(** * Excalidraw diagram skill: classifier and layout builders

    A shallow embedding of [scripts/diagram_router.py] and of the builder
    functions of [scripts/generate_diagram.py], with the properties the
    specification states about them.

    Conventions of the embedding.
    - A Python [str] is a [string]; the development covers ASCII text, on
      which [str.lower], [str.strip], [str.title] and the classes [\w], [\s],
      [\d] of the [re] module are the functions defined in [PyStr] and [Re].
    - A Python [float] is a binary64 [float] of the kernel, with the IEEE
      operations the interpreter uses; [sum] accumulates from left to right.
    - A Python [dict] whose iteration order the code relies on is an
      association list in insertion order ([PyDict]). *)

From Stdlib Require Import Bool Arith List String Ascii NArith ZArith Lia.
From Stdlib Require Import Floats.
Import ListNotations.

Set Warnings "-inexact-float".

Local Open Scope string_scope.
Local Open Scope list_scope.

(* ================================================================== *)
(** ** Python string operations, on ASCII text *)

Module PyStr.

Definition code (c : ascii) : N := N_of_ascii c.

Definition in_range (lo hi : N) (c : ascii) : bool :=
  (N.leb lo (code c) && N.leb (code c) hi)%bool.

Definition is_digit (c : ascii) : bool := in_range 48 57 c.
Definition is_upper (c : ascii) : bool := in_range 65 90 c.
Definition is_lower (c : ascii) : bool := in_range 97 122 c.
Definition is_alpha (c : ascii) : bool := (is_upper c || is_lower c)%bool.

(** [\w] on ASCII: letters, digits and the underscore. *)
Definition is_word (c : ascii) : bool :=
  (is_alpha c || is_digit c || N.eqb (code c) 95)%bool.

(** [str.isspace] on ASCII: TAB, LF, VT, FF, CR, the separators
    FS, GS, RS, US, and the space. *)
Definition is_space (c : ascii) : bool :=
  (in_range 9 13 c || in_range 28 31 c || N.eqb (code c) 32)%bool.

Definition lower_char (c : ascii) : ascii :=
  if is_upper c then ascii_of_N (code c + 32) else c.

Definition upper_char (c : ascii) : ascii :=
  if is_lower c then ascii_of_N (code c - 32) else c.

Definition chars (s : string) : list ascii := list_ascii_of_string s.
Definition str (l : list ascii) : string := string_of_list_ascii l.

(** [s.lower()] *)
Definition lower (s : string) : string := str (map lower_char (chars s)).

(** [s.replace(a, b)] for one-character [a] and [b]. *)
Definition replace_char (a b : ascii) (s : string) : string :=
  str (map (fun c => if Ascii.eqb c a then b else c) (chars s)).

Fixpoint starts_with (p l : list ascii) : bool :=
  match p, l with
  | [], _ => true
  | _ :: _, [] => false
  | a :: p', b :: l' => (Ascii.eqb a b && starts_with p' l')%bool
  end.

Fixpoint infix_of (p l : list ascii) : bool :=
  (starts_with p l ||
   match l with
   | [] => false
   | _ :: l' => infix_of p l'
   end)%bool.

(** [needle in hay] on strings: substring test. *)
Definition contains (needle hay : string) : bool :=
  infix_of (chars needle) (chars hay).

Fixpoint drop_while (f : ascii -> bool) (l : list ascii) : list ascii :=
  match l with
  | [] => []
  | c :: l' => if f c then drop_while f l' else l
  end.

Definition rdrop_while (f : ascii -> bool) (l : list ascii) : list ascii :=
  rev (drop_while f (rev l)).

(** [s.strip()] *)
Definition strip (s : string) : string :=
  str (rdrop_while is_space (drop_while is_space (chars s))).

(** [s.rstrip(cs)] *)
Definition rstrip (cs : string) (s : string) : string :=
  str (rdrop_while (fun c => existsb (Ascii.eqb c) (chars cs)) (chars s)).

(** [s.title()]: a cased character is upper-cased when the character before
    it is not cased, and lower-cased otherwise. *)
Fixpoint title_from (prev_cased : bool) (l : list ascii) : list ascii :=
  match l with
  | [] => []
  | c :: l' =>
      if is_alpha c
      then (if prev_cased then lower_char c else upper_char c) :: title_from true l'
      else c :: title_from false l'
  end.

Definition title (s : string) : string := str (title_from false (chars s)).

(** [s.split(":", 1)] when [":" in s]: the text before the first colon and
    the text after it. *)
Fixpoint split_colon (l : list ascii) : option (list ascii * list ascii) :=
  match l with
  | [] => None
  | c :: l' =>
      if Ascii.eqb c ":" then Some ([], l')
      else match split_colon l' with
           | Some (a, b) => Some (c :: a, b)
           | None => None
           end
  end.

(** [str(n)] for a natural number. *)
Fixpoint digits_of (fuel n : nat) (acc : list ascii) : list ascii :=
  match fuel with
  | O => acc
  | S fuel' =>
      let d := ascii_of_nat (48 + n mod 10) in
      if Nat.ltb n 10 then d :: acc else digits_of fuel' (n / 10) (d :: acc)
  end.

Definition of_nat (n : nat) : string := str (digits_of (S n) n []).

End PyStr.

(* ================================================================== *)
(** ** The fragment of Python's [re] the router uses *)

Module Re.
Import PyStr.

(** One member of a character class, or a one-character atom. *)
Inductive citem : Type :=
| IChar (c : ascii)
| IRange (lo hi : ascii)
| IDigit                      (* \d *)
| IWord                       (* \w *)
| ISpace.                     (* \s *)

Inductive regex : Type :=
| Empty
| Dot                          (* any character but a newline *)
| Item (i : citem)
| Class (negated : bool) (items : list citem)
| WordBoundary                 (* \b *)
| Cat (r1 r2 : regex)
| Alt (r1 r2 : regex)          (* r1 is tried first *)
| Star (r : regex).            (* greedy *)

Definition item_matches (i : citem) (c : ascii) : bool :=
  match i with
  | IChar a => Ascii.eqb a c
  | IRange lo hi => in_range (code lo) (code hi) c
  | IDigit => is_digit c
  | IWord => is_word c
  | ISpace => is_space c
  end.

Definition prev_is_word (prev : option ascii) : bool :=
  match prev with
  | Some c => is_word c
  | None => false
  end.

Definition next_is_word (s : list ascii) : bool :=
  match s with
  | c :: _ => is_word c
  | [] => false
  end.

Section Matcher.
Context {A : Type}.

  (** Backtracking matcher in continuation-passing style: [rx_match r prev s k]
      matches [r] at the front of [s], where [prev] is the character before
      [s], and hands the last character consumed and the rest of the text to
      [k]; alternatives are explored in the order of the [re] module (left
      branch first, longest repetition first). *)
Fixpoint rx_match (r : regex) (prev : option ascii) (s : list ascii)
           (k : option ascii -> list ascii -> option A) {struct r} : option A :=
    match r with
    | Empty => k prev s
    | Dot =>
        match s with
        | c :: s' => if Ascii.eqb c "010" then None else k (Some c) s'
        | [] => None
        end
    | Item i =>
        match s with
        | c :: s' => if item_matches i c then k (Some c) s' else None
        | [] => None
        end
    | Class negated items =>
        match s with
        | c :: s' =>
            if xorb negated (existsb (fun i => item_matches i c) items)
            then k (Some c) s' else None
        | [] => None
        end
    | WordBoundary =>
        if xorb (prev_is_word prev) (next_is_word s) then k prev s else None
    | Cat r1 r2 =>
        rx_match r1 prev s (fun p' s' => rx_match r2 p' s' k)
    | Alt r1 r2 =>
        match rx_match r1 prev s k with
        | Some a => Some a
        | None => rx_match r2 prev s k
        end
    | Star r' =>
        (fix loop (fuel : nat) (prev : option ascii) (s : list ascii)
             {struct fuel} : option A :=
           match fuel with
           | O => k prev s
           | S fuel' =>
               match rx_match r' prev s
                       (fun p' s' =>
                          if Nat.ltb (List.length s') (List.length s) then loop fuel' p' s'
                          else None)
               with
               | Some a => Some a
               | None => k prev s
               end
           end) (List.length s) prev s
    end.
End Matcher.

(** The match of [r] that starts exactly here, if any: the last character it
    consumed and the text after it. *)
Definition match_here (r : regex) (prev : option ascii) (s : list ascii)
  : option (option ascii * list ascii) :=
  rx_match r prev s (fun p s' => Some (p, s')).

(** [re.search(r, text)] as a truth value: is there a match anywhere? *)
Fixpoint search_from (r : regex) (prev : option ascii) (s : list ascii) : bool :=
  match match_here r prev s with
  | Some _ => true
  | None =>
      match s with
      | [] => false
      | c :: s' => search_from r (Some c) s'
      end
  end.

(** [len(re.findall(r, text))]: the number of non-overlapping matches found
    scanning from the left. *)
Fixpoint count_from (fuel : nat) (r : regex) (prev : option ascii)
         (s : list ascii) : nat :=
  match fuel with
  | O => 0
  | S fuel' =>
      match match_here r prev s with
      | Some (p', s') =>
          if Nat.ltb (List.length s') (List.length s)
          then S (count_from fuel' r p' s')
          else match s with
               | [] => 1
               | c :: t => S (count_from fuel' r (Some c) t)
               end
      | None =>
          match s with
          | [] => 0
          | c :: t => count_from fuel' r (Some c) t
          end
      end
  end.

(** *** Reading a pattern *)

Definition escape (c : ascii) : regex :=
  if Ascii.eqb c "b" then WordBoundary
  else if Ascii.eqb c "d" then Item IDigit
  else if Ascii.eqb c "w" then Item IWord
  else if Ascii.eqb c "s" then Item ISpace
  else Item (IChar c).

Definition class_escape (c : ascii) : citem :=
  if Ascii.eqb c "d" then IDigit
  else if Ascii.eqb c "w" then IWord
  else if Ascii.eqb c "s" then ISpace
  else IChar c.

(** The members of a class, up to the closing bracket. *)
Fixpoint parse_items (fuel : nat) (s : list ascii)
  : option (list citem * list ascii) :=
  match fuel with
  | O => None
  | S fuel' =>
      match s with
      | [] => None
      | "]"%char :: t => Some ([], t)
      | "\"%char :: c :: t =>
          match parse_items fuel' t with
          | Some (l, t') => Some (class_escape c :: l, t')
          | None => None
          end
      | lo :: "-"%char :: hi :: t =>
          if Ascii.eqb hi "]" then
            match parse_items fuel' ("-"%char :: hi :: t) with
            | Some (l, t') => Some (IChar lo :: l, t')
            | None => None
            end
          else
            match parse_items fuel' t with
            | Some (l, t') => Some (IRange lo hi :: l, t')
            | None => None
            end
      | c :: t =>
          match parse_items fuel' t with
          | Some (l, t') => Some (IChar c :: l, t')
          | None => None
          end
      end
  end.

Definition parse_class (s : list ascii) : option (regex * list ascii) :=
  match s with
  | "^"%char :: t =>
      match parse_items (S (List.length t)) t with
      | Some (l, t') => Some (Class true l, t')
      | None => None
      end
  | _ =>
      match parse_items (S (List.length s)) s with
      | Some (l, t') => Some (Class false l, t')
      | None => None
      end
  end.

Fixpoint repeat_regex (n : nat) (r : regex) : regex :=
  match n with
  | O => Empty
  | S n' => Cat r (repeat_regex n' r)
  end.

(** A one-digit count between braces, as in [\d{4}]. *)
Definition parse_count (s : list ascii) : option (nat * list ascii) :=
  match s with
  | d :: "}"%char :: t =>
      if is_digit d then Some (nat_of_ascii d - 48, t) else None
  | _ => None
  end.

(** The quantifier that follows an atom, if there is one. *)
Definition quantify (a : regex) (s : list ascii) : option (regex * list ascii) :=
  match s with
  | "*"%char :: t => Some (Star a, t)
  | "+"%char :: t => Some (Cat a (Star a), t)
  | "?"%char :: t => Some (Alt a Empty, t)
  | "{"%char :: t =>
      match parse_count t with
      | Some (n, t') => Some (repeat_regex n a, t')
      | None => None
      end
  | _ => Some (a, s)
  end.

Fixpoint parse_alt (fuel : nat) (s : list ascii) : option (regex * list ascii) :=
  match fuel with
  | O => None
  | S fuel' =>
      let atom (s : list ascii) : option (regex * list ascii) :=
        match s with
        | [] => None
        | "("%char :: t =>
            match parse_alt fuel' t with
            | Some (r, ")"%char :: t') => Some (r, t')
            | _ => None
            end
        | "["%char :: t => parse_class t
        | "\"%char :: c :: t => Some (escape c, t)
        | "."%char :: t => Some (Dot, t)
        | c :: t => Some (Item (IChar c), t)
        end in
      let fix cat (n : nat) (s : list ascii) : option (regex * list ascii) :=
        match n with
        | O => None
        | S n' =>
            match s with
            | [] => Some (Empty, s)
            | ")"%char :: _ => Some (Empty, s)
            | "|"%char :: _ => Some (Empty, s)
            | _ =>
                match atom s with
                | Some (a, t) =>
                    match quantify a t with
                    | Some (q, t') =>
                        match cat n' t' with
                        | Some (Empty, t'') => Some (q, t'')
                        | Some (r, t'') => Some (Cat q r, t'')
                        | None => None
                        end
                    | None => None
                    end
                | None => None
                end
            end
        end in
      match cat (S (List.length s)) s with
      | Some (r, "|"%char :: t) =>
          match parse_alt fuel' t with
          | Some (r', t') => Some (Alt r r', t')
          | None => None
          end
      | res => res
      end
  end.

(** [re.compile(pattern)]; the patterns of the router are all well formed. *)
Definition compile (pattern : string) : option regex :=
  match parse_alt (S (String.length pattern)) (chars pattern) with
  | Some (r, []) => Some r
  | _ => None
  end.

(** [bool(re.search(pattern, text))] *)
Definition search (pattern text : string) : bool :=
  match compile pattern with
  | Some r => search_from r None (chars text)
  | None => false
  end.

(** [len(re.findall(pattern, text))] *)
Definition findall_count (pattern text : string) : nat :=
  match compile pattern with
  | Some r => count_from (S (String.length text)) r None (chars text)
  | None => 0
  end.

End Re.

(* ================================================================== *)
(** ** Python floats *)

Module PyFloat.

Local Open Scope float_scope.

(** [sum(xs)]: the accumulator starts at 0 and the items are added in order,
    each addition rounded, as in CPython up to 3.11 (later versions carry a
    correction term for the rounding errors). *)
Definition py_sum (xs : list float) : float := fold_left PrimFloat.add xs 0.

(** [min(a, b)]: the second argument replaces the first only when it is
    strictly smaller. *)
Definition py_min (a b : float) : float := if b <? a then b else a.

(** [numerator / denominator] rounded to the nearest integer, ties to even;
    for a positive denominator. *)
Definition round_half_even (numerator denominator : Z) : Z :=
  let q := (numerator / denominator)%Z in
  let r := (numerator mod denominator)%Z in
  match (2 * r ?= denominator)%Z with
  | Lt => q
  | Gt => (q + 1)%Z
  | Eq => if Z.even q then q else (q + 1)%Z
  end.

(** The magnitude [m * 2^e] in hundredths, rounded to the nearest integer,
    ties to even: the digits [round(x, 2)] keeps. *)
Definition hundredths (m : positive) (e : Z) : Z :=
  if (0 <=? e)%Z
  then (Z.pos m * 2 ^ e * 100)%Z
  else round_half_even (Z.pos m * 100) (2 ^ (- e)).

(** [round(x, 2)]: the exact value of [x] is rounded to two decimals, ties to
    even, and the float nearest to that decimal is returned.  From 2^53
    hundredths on, the float nearest to the decimal is [x] itself. *)
Definition py_round2 (x : float) : float :=
  match Prim2SF x with
  | S754_finite negative m e =>
      let n := hundredths m e in
      if (n <? 2 ^ 53)%Z
      then let r := of_uint63 (Uint63.of_Z n) / 100 in
           if negative then - r else r
      else x
  | _ => x
  end.

End PyFloat.

(* ================================================================== *)
(** ** diagram_router.py *)

Module Router.
Import PyStr PyFloat.

Local Open Scope float_scope.

(** The values of ["diagram_type"]. *)
Inductive archetype : Type :=
| Flowchart | Architecture | Sequence | Mindmap | Timeline | Er | Simple.

(** The string each archetype stands for. *)
Definition archetype_name (a : archetype) : string :=
  match a with
  | Flowchart => "flowchart"
  | Architecture => "architecture"
  | Sequence => "sequence"
  | Mindmap => "mindmap"
  | Timeline => "timeline"
  | Er => "er"
  | Simple => "simple"
  end.

(** Equality of two keys of the [scores] dictionary. *)
Definition archetype_eqb (a b : archetype) : bool :=
  match a, b with
  | Flowchart, Flowchart | Architecture, Architecture | Sequence, Sequence
  | Mindmap, Mindmap | Timeline, Timeline | Er, Er | Simple, Simple => true
  | _, _ => false
  end.

(** [sum(w for k in keywords if k in text)] *)
Definition keyword_score (w : float) (keywords : list string) (text : string) : float :=
  py_sum (map (fun _ => w) (filter (fun k => contains k text) keywords)).

(** [sum(w for p in patterns if re.search(p, text))] *)
Definition pattern_score (w : float) (patterns : list string) (text : string) : float :=
  py_sum (map (fun _ => w) (filter (fun p => Re.search p text) patterns)).

Definition flowchart_keywords : list string :=
  [ "if "; "then"; "else"; "step"; "process"; "decision"; "start"; "end";
    "flow"; "when"; "next"; "begin"; "check"; "validate"; "verify";
    "approve"; "reject"; "submit"; "retry"; "loop"; "repeat" ].

Definition flowchart_patterns : list string :=
  [ "\bif\b.*\bthen\b"; "\bif\s+(yes|no|valid|invalid)\b";
    "step\s*\d"; "\d\.\s+\w+";
    "(first|second|third|finally|lastly)";
    "(yes|no)\s*[,:]"; "if\s+(yes|no|true|false|valid|invalid)" ].

Definition _score_flowchart (text : string) : float :=
  let score := keyword_score 0.15 flowchart_keywords text in
  let score := score + pattern_score 0.25 flowchart_patterns text in
  let score :=
    if Re.search "if\s+\w+.*,\s*(do|show|go|redirect|return)" text
    then score + 0.4 else score in
  py_min score 1.0.

Definition architecture_keywords : list string :=
  [ "service"; "database"; "api"; "frontend"; "backend"; "server";
    "client"; "layer"; "component"; "system"; "microservice"; "gateway";
    "queue"; "cache"; "load balancer"; "proxy"; "container"; "cluster";
    "rest"; "grpc"; "graphql"; "webhook"; "endpoint" ].

Definition architecture_patterns : list string :=
  [ "(front.?end|back.?end)"; "(micro.?service|web.?server)";
    "(api|db|cdn|dns|ssl|http|tcp)\b";
    "(connects?\s+to|communicates?\s+with|talks?\s+to)";
    "(layer|tier)\s*\d" ].

Definition _score_architecture (text : string) : float :=
  let score := keyword_score 0.15 architecture_keywords text in
  let score := score + pattern_score 0.25 architecture_patterns text in
  py_min score 1.0.

Definition sequence_keywords : list string :=
  [ "sends"; "receives"; "request"; "response"; "calls"; "returns";
    "message"; "actor"; "reply"; "acknowledge"; "notify"; "publish";
    "subscribe"; "emit"; "trigger"; "callback"; "webhook" ].

Definition sequence_patterns : list string :=
  [ "\w+\s+sends?\s+\w+\s+to\s+\w+";
    "\w+\s+(calls?|requests?)\s+\w+";
    "\w+\s+returns?\s+\w+";
    "\w+\s+responds?\s+(with|to)\s+";
    "(request|response)\s+(from|to)\s+" ].

Definition _score_sequence (text : string) : float :=
  let score := keyword_score 0.15 sequence_keywords text in
  let score := score + pattern_score 0.3 sequence_patterns text in
  let to_patterns := Re.findall_count "\b\w+\s+to\s+\w+\b" text in
  let score := if Nat.leb 3 to_patterns then score + 0.3 else score in
  py_min score 1.0.

Definition mindmap_keywords : list string :=
  [ "aspects of"; "categories"; "branches"; "related to"; "subtopics";
    "brainstorm"; "ideas"; "concepts"; "topics"; "main topic";
    "central"; "branching"; "hierarchy"; "breakdown"; "subdivisions";
    "mind map"; "mindmap"; "overview of"; "types of"; "kinds of";
    "areas of"; "components of"; "parts of"; "elements of" ].

Definition mindmap_patterns : list string :=
  [ "aspects?\s+of\s+"; "main\s+(topic|concept|idea)";
    "central\s+(concept|idea|theme)"; "branches?\s+(into|to|of)";
    "subdivided\s+into"; "related\s+(concepts|ideas|topics)";
    "has\s+branches"; "types?\s+of\s+";
    "\w+\s*\([^)]+,\s*[^)]+\)" ].

Definition _score_mindmap (text : string) : float :=
  let score := keyword_score 0.2 mindmap_keywords text in
  let score := score + pattern_score 0.3 mindmap_patterns text in
  let nested_groups := Re.findall_count "\w+\s*\([^)]+,\s*[^)]+\)" text in
  let score := if Nat.leb 2 nested_groups then score + 0.4 else score in
  py_min score 1.0.

Definition timeline_keywords : list string :=
  [ "timeline"; "history"; "evolution"; "milestone"; "era";
    "chronolog"; "founded"; "launched"; "released"; "established" ].

Definition timeline_patterns : list string :=
  [ "\b\d{4}\b";
    "\b(january|february|march|april|may|june|july|august|september|october|november|december)\b";
    "\b(jan|feb|mar|apr|may|jun|jul|aug|sep|oct|nov|dec)\s+\d";
    "(before|after)\s+\d{4}";
    "\d{4}\s*[-–:]\s*\w+" ].

(** [len(re.findall(r'\b(19|20)\d{2}\b', text))] *)
Definition timeline_years (text : string) : nat :=
  Re.findall_count "\b(19|20)\d{2}\b" text.

(** The score of the timeline signals before the bonus for several years. *)
Definition timeline_signals (text : string) : float :=
  let score := keyword_score 0.2 timeline_keywords text in
  score + pattern_score 0.25 timeline_patterns text.

Definition _score_timeline (text : string) : float :=
  let score := timeline_signals text in
  let years := timeline_years text in
  let score :=
    if Nat.leb 3 years then score + 0.4
    else if Nat.leb 2 years then score + 0.2
    else score in
  py_min score 1.0.

Definition er_keywords : list string :=
  [ "entity"; "relationship"; "has many"; "belongs to"; "one to many";
    "many to many"; "one to one"; "attributes"; "fields"; "table";
    "schema"; "foreign key"; "primary key"; "column"; "record" ].

Definition er_patterns : list string :=
  [ "(has\s+many|belongs\s+to|has\s+one)";
    "(one|many)\s+to\s+(one|many)";
    "entity\s+\w+\s+has";
    "(table|entity)\s+\w+";
    "attributes?\s*[:=]" ].

Definition _score_er (text : string) : float :=
  let score := keyword_score 0.2 er_keywords text in
  let score := score + pattern_score 0.3 er_patterns text in
  let rel_count := Re.findall_count "(has\s+many|belongs\s+to|has\s+one)" text in
  let score := if Nat.leb 2 rel_count then score + 0.4 else score in
  py_min score 1.0.

(** The [scores] dictionary, in insertion order. *)
Definition scores (text_lower : string) : list (archetype * float) :=
  [ (Flowchart, _score_flowchart text_lower);
    (Architecture, _score_architecture text_lower);
    (Sequence, _score_sequence text_lower);
    (Mindmap, _score_mindmap text_lower);
    (Timeline, _score_timeline text_lower);
    (Er, _score_er text_lower) ].

(** [d[k]], that is [d.get(k)], for a key of the dictionary; the default is
    never reached, the keys looked up being those of [scores]. *)
Fixpoint get (d : list (archetype * float)) (k : archetype) : float :=
  match d with
  | [] => nan
  | (k', v) :: d' => if archetype_eqb k k' then v else get d' k
  end.

(** [max(items, key=key)] after the first item: a later item replaces the
    running maximum only when its key is strictly greater. *)
Fixpoint max_from {K : Type} (key : K -> float) (best : K) (items : list K) : K :=
  match items with
  | [] => best
  | x :: items' => max_from key (if key best <? key x then x else best) items'
  end.

(** [max(d, key=d.get)]; the dictionary of the scores is not empty. *)
Definition max_key (d : list (archetype * float)) : archetype :=
  match map fst d with
  | [] => Simple
  | k :: ks => max_from (get d) k ks
  end.

Record result : Type := {
  diagram_type : archetype;
  confidence : float;
  reasoning : string
}.

(** The [reasons] dictionary; it has no entry for "simple", which the
    arg-max never yields. *)
Definition reasons (a : archetype) : string :=
  match a with
  | Flowchart => "Detected steps, decisions, or process flow"
  | Architecture => "Detected system components, services, or layers"
  | Sequence => "Detected message passing between actors/services"
  | Mindmap => "Detected central concept with branches or categories"
  | Timeline => "Detected chronological events or dates"
  | Er => "Detected entities with attributes and relationships"
  | Simple => ""
  end.

Definition detect_type (text : string) : result :=
  let text_lower := lower text in
  let scores := scores text_lower in
  let best_type := max_key scores in
  let best_score := get scores best_type in
  if best_score <? 0.2 then
    {| diagram_type := Simple;
       confidence := 0.5;
       reasoning := "No strong pattern detected, defaulting to simple diagram" |}
  else
    {| diagram_type := best_type;
       confidence := py_round2 (py_min best_score 1.0);
       reasoning := reasons best_type |}.

End Router.

(* ================================================================== *)
(** ** The values a score can take *)

Module ScoreValues.
Import PyStr PyFloat Router.

Local Open Scope float_scope.

(** [sum] of [k] copies of the weight [w], for [k] up to [n]. *)
Definition sums (w : float) (n : nat) : list float :=
  map (fun k => py_sum (repeat w k)) (seq 0 (S n)).

(** What a bonus rule does to the score: nothing, or one addition. *)
Definition apply_bonus (b : option float) (score : float) : float :=
  match b with
  | Some x => score + x
  | None => score
  end.

(** Every value of [min(keywords + patterns (+ bonus), 1.0)] for [nk]
    keywords of weight [wk], [np] patterns of weight [wp] and the given
    bonus rules. *)
Definition signal_values (wk : float) (nk : nat) (wp : float) (np : nat)
           (bonuses : list (option float)) : list float :=
  flat_map (fun a =>
    flat_map (fun b =>
      map (fun bonus => py_min (apply_bonus bonus (a + b)) 1.0) bonuses)
      (sums wp np))
    (sums wk nk).

Definition values_of (wk : float) (keywords : list string)
           (wp : float) (patterns : list string)
           (bonuses : list (option float)) : list float :=
  signal_values wk (List.length keywords) wp (List.length patterns) bonuses.

Definition flowchart_values :=
  values_of 0.15 flowchart_keywords 0.25 flowchart_patterns [None; Some 0.4].
Definition architecture_values :=
  values_of 0.15 architecture_keywords 0.25 architecture_patterns [None].
Definition sequence_values :=
  values_of 0.15 sequence_keywords 0.3 sequence_patterns [None; Some 0.3].
Definition mindmap_values :=
  values_of 0.2 mindmap_keywords 0.3 mindmap_patterns [None; Some 0.4].
Definition timeline_values :=
  values_of 0.2 timeline_keywords 0.25 timeline_patterns [None; Some 0.2; Some 0.4].
Definition er_values :=
  values_of 0.2 er_keywords 0.3 er_patterns [None; Some 0.4].

Definition score_values : list float :=
  flowchart_values ++ architecture_values ++ sequence_values ++
  mindmap_values ++ timeline_values ++ er_values.

(** The exact value of a score, in units of 2^-60. *)
Definition exact (x : float) : option Z :=
  match Prim2SF x with
  | S754_zero false => Some 0%Z
  | S754_finite false m e =>
      if (-60 <=? e)%Z then Some (Z.pos m * 2 ^ (e + 60))%Z else None
  | _ => None
  end.

Definition key (x : float) : Z :=
  match exact x with
  | Some z => z
  | None => (-1)%Z
  end.

(** The float comparisons of two scores are the comparisons of their exact
    values. *)
Definition compares_exactly (p q : float * Z) : bool :=
  (Bool.eqb (fst p <? fst q) (snd p <? snd q)%Z &&
   Bool.eqb (fst p <=? fst q) (snd p <=? snd q)%Z &&
   Bool.eqb (fst p =? fst q) (snd p =? snd q)%Z)%bool.

(** What the classifier needs of a score [x]: it is at most 1, and when it
    reaches the threshold its rounding is a number of hundredths between 0
    and 100, itself between 0 and 1. *)
Definition confidence_ok (x : float) : bool :=
  ((x <=? 1) &&
   ((x <? 0.2) ||
    let y := py_min x 1.0 in
    match Prim2SF y with
    | S754_finite false m e =>
        (0 <=? hundredths m e)%Z && (hundredths m e <=? 100)%Z &&
        (0 <=? py_round2 y) && (py_round2 y <=? 1)
    | _ => false
    end))%bool.

(** The values of [l] whose exact value is not among [seen], each once. *)
Fixpoint dedupe (seen : list Z) (l : list float) : list float :=
  match l with
  | [] => []
  | x :: l' =>
      if existsb (Z.eqb (key x)) seen then dedupe seen l'
      else x :: dedupe (key x :: seen) l'
  end.

(** The scores without their repetitions: two dozen floats. *)
Definition distinct_values : list float :=
  Eval vm_compute in dedupe [] score_values.

End ScoreValues.

(* ================================================================== *)
(** ** Python dictionaries with string keys, in insertion order *)

Module PyDict.

Definition dict (V : Type) : Type := list (string * V).

(** [d[k] = v]: a key already present keeps its place. *)
Fixpoint set {V : Type} (d : dict V) (k : string) (v : V) : dict V :=
  match d with
  | [] => [(k, v)]
  | (k', v') :: d' =>
      if String.eqb k k' then (k, v) :: d' else (k', v') :: set d' k v
  end.

(** [d.get(k)] *)
Fixpoint get {V : Type} (d : dict V) (k : string) : option V :=
  match d with
  | [] => None
  | (k', v) :: d' => if String.eqb k k' then Some v else get d' k
  end.

End PyDict.

(* ================================================================== *)
(** ** The diagram model *)

Module Excalidraw.

(** Modelled from the spec: the module [excalidraw_generator] (the classes
    [Diagram], [Flowchart], [ArchitectureDiagram], [SequenceDiagram],
    [MindMap], [TimelineDiagram] and [ERDiagram]) is imported by
    [generate_diagram.py] and is not among the sources.  Following section 3
    and 4.3 of the specification, a diagram owns an ordered sequence of nodes
    and an ordered sequence of edges; creating a node or an edge appends it
    and never fails.  A node made by a call that takes no identifier
    ([Diagram.box], [MindMap.branch], the timeline events) is identified by
    its position in the sequence of nodes. *)
Inductive ident : Type :=
| Id (name : string)
| Anon (index : nat).

Inductive kind : Type :=
| Terminator
| Process
| Decision
| Component (x y : Z)
| Participant
| Central
| Branch
| Event (date description : string)
| Milestone (date : string)
| Entity (attributes : list string)
| BoxShape (x y : Z).

Record Node : Type := {
  node_id : ident;
  node_label : string;
  node_kind : kind;
  node_color : option string
}.

Record Edge : Type := {
  edge_from : ident;
  edge_to : ident;
  edge_label : option string;
  edge_cardinality : option string
}.

Record Diagram : Type := {
  nodes : list Node;
  edges : list Edge
}.

Definition empty : Diagram := {| nodes := []; edges := [] |}.

Definition add_node (d : Diagram) (n : Node) : Diagram :=
  {| nodes := nodes d ++ [n]; edges := edges d |}.

Definition add_edge (d : Diagram) (e : Edge) : Diagram :=
  {| nodes := nodes d; edges := edges d ++ [e] |}.

Definition node_ids (d : Diagram) : list ident := map node_id (nodes d).

Definition endpoints (e : Edge) : ident * ident := (edge_from e, edge_to e).

(** Modelled from the spec: the methods of [Flowchart].  [start] and [end]
    make the terminators ["__start__"] and ["__end__"], the identifiers the
    builder connects them by. *)
Definition fc_start (d : Diagram) (label : string) : Diagram :=
  add_node d {| node_id := Id "__start__"; node_label := label;
                node_kind := Terminator; node_color := None |}.

Definition fc_end (d : Diagram) (label : string) : Diagram :=
  add_node d {| node_id := Id "__end__"; node_label := label;
                node_kind := Terminator; node_color := None |}.

Definition fc_process (d : Diagram) (id label : string) : Diagram :=
  add_node d {| node_id := Id id; node_label := label;
                node_kind := Process; node_color := None |}.

Definition fc_decision (d : Diagram) (id label : string) : Diagram :=
  add_node d {| node_id := Id id; node_label := label;
                node_kind := Decision; node_color := None |}.

Definition fc_connect (d : Diagram) (from to : string) (label : option string)
  : Diagram :=
  add_edge d {| edge_from := Id from; edge_to := Id to;
                edge_label := label; edge_cardinality := None |}.

(** Modelled from the spec: the methods of [ArchitectureDiagram]. *)
Definition arch_component (d : Diagram) (id label : string) (x y : Z)
           (color : string) : Diagram :=
  add_node d {| node_id := Id id; node_label := label;
                node_kind := Component x y; node_color := Some color |}.

Definition arch_connect (d : Diagram) (from to label : string) : Diagram :=
  add_edge d {| edge_from := Id from; edge_to := Id to;
                edge_label := Some label; edge_cardinality := None |}.

(** Modelled from the spec: the methods of [SequenceDiagram]. *)
Definition seq_participant (d : Diagram) (id label color : string) : Diagram :=
  add_node d {| node_id := Id id; node_label := label;
                node_kind := Participant; node_color := Some color |}.

Definition seq_message (d : Diagram) (from to label : string) : Diagram :=
  add_edge d {| edge_from := Id from; edge_to := Id to;
                edge_label := Some label; edge_cardinality := None |}.

(** Modelled from the spec: the methods of [MindMap].  The central node is
    ["__central__"]; a branch is a new node linked from its parent. *)
Definition mm_central (d : Diagram) (label color : string) : Diagram :=
  add_node d {| node_id := Id "__central__"; node_label := label;
                node_kind := Central; node_color := Some color |}.

Definition mm_branch (d : Diagram) (parent label color : string) : Diagram :=
  let id := Anon (List.length (nodes d)) in
  add_edge
    (add_node d {| node_id := id; node_label := label;
                   node_kind := Branch; node_color := Some color |})
    {| edge_from := Id parent; edge_to := id;
       edge_label := None; edge_cardinality := None |}.

(** Modelled from the spec: the methods of [TimelineDiagram]; [build] keeps
    the events in the order given. *)
Definition tl_event (d : Diagram) (date title description color : string)
  : Diagram :=
  add_node d {| node_id := Anon (List.length (nodes d)); node_label := title;
                node_kind := Event date description;
                node_color := Some color |}.

Definition tl_milestone (d : Diagram) (date title color : string) : Diagram :=
  add_node d {| node_id := Anon (List.length (nodes d)); node_label := title;
                node_kind := Milestone date; node_color := Some color |}.

Definition tl_build (d : Diagram) : Diagram := d.

(** Modelled from the spec: the methods of [ERDiagram]. *)
Definition er_entity (d : Diagram) (id name : string)
           (attributes : list string) (color : string) : Diagram :=
  add_node d {| node_id := Id id; node_label := name;
                node_kind := Entity attributes; node_color := Some color |}.

Definition er_relationship (d : Diagram) (from to label cardinality : string)
  : Diagram :=
  add_edge d {| edge_from := Id from; edge_to := Id to;
                edge_label := Some label;
                edge_cardinality := Some cardinality |}.

(** Modelled from the spec: the methods of [Diagram].  [box] returns the
    element it creates; [arrow_between] takes two such elements. *)
Definition box (d : Diagram) (x y : Z) (label color : string)
  : Diagram * ident :=
  let id := Anon (List.length (nodes d)) in
  (add_node d {| node_id := id; node_label := label;
                 node_kind := BoxShape x y; node_color := Some color |}, id).

Definition arrow_between (d : Diagram) (source target : ident)
           (label : option string) : Diagram :=
  add_edge d {| edge_from := source; edge_to := target;
                edge_label := label; edge_cardinality := None |}.

End Excalidraw.

(* ================================================================== *)
(** ** generate_diagram.py: the builders *)

Module Generate.
Import PyStr Excalidraw.

Local Open Scope string_scope.

(** A connection: a dictionary whose keys ["from"], ["to"] and ["label"] may
    each be absent. *)
Record Connection : Type := {
  conn_from : option string;
  conn_to : option string;
  conn_label : option string
}.

(** [conn.get(key, default)] *)
Definition get_or (field : option string) (default : string) : string :=
  match field with
  | Some v => v
  | None => default
  end.

(** The truth value of a string: it is not empty. *)
Definition truthy (s : string) : bool := negb (String.eqb s "").

(** [colors[i % len(colors)]] *)
Definition cycle (colors : list string) (i : nat) : string :=
  nth (i mod List.length colors) colors "".

(** [element.lower().replace(" ", "_")] *)
Definition derive_id (element : string) : string :=
  replace_char " " "_" (lower element).

(** *** _create_flowchart *)

Definition decision_words : list string :=
  [ "check"; "if"; "validate"; "verify"; "decision"; "?" ].

(** [element.strip().rstrip('.!?')] *)
Definition clean (element : string) : string := rstrip ".!?" (strip element).

Definition is_decision (element_clean : string) : bool :=
  existsb (fun word => contains word (lower element_clean)) decision_words.

(** The test of the comprehension that builds [yes_connections]. *)
Definition from_matches (element_clean : string) (c : Connection) : bool :=
  contains (lower (get_or (conn_from c) "")) (lower element_clean).

(** One turn of the loop over [enumerate(elements)]; the state is the
    flowchart and [previous_id]. *)
Definition flowchart_step (connections : list Connection) (i : nat)
           (element : string) (st : Diagram * string) : Diagram * string :=
  let '(flowchart, previous_id) := st in
  let element_clean := clean element in
  if is_decision element_clean then
    let node_id := "decision_" ++ of_nat i in
    let flowchart := fc_decision flowchart node_id element_clean in
    let flowchart := fc_connect flowchart previous_id node_id None in
    let yes_connections := filter (from_matches element_clean) connections in
    match yes_connections with
    | conn :: _ =>
        let next_id := "process_" ++ of_nat i ++ "_yes" in
        let flowchart :=
          fc_process flowchart next_id (get_or (conn_to conn) "Continue") in
        let flowchart := fc_connect flowchart node_id next_id (Some "yes") in
        (flowchart, next_id)
    | [] =>
        let next_id := "process_" ++ of_nat i ++ "_continue" in
        let flowchart := fc_process flowchart next_id "Continue" in
        let flowchart := fc_connect flowchart node_id next_id (Some "yes") in
        (flowchart, next_id)
    end
  else
    let node_id := "process_" ++ of_nat i in
    let flowchart := fc_process flowchart node_id element_clean in
    let flowchart := fc_connect flowchart previous_id node_id None in
    (flowchart, node_id).

Fixpoint flowchart_loop (connections : list Connection) (i : nat)
         (elements : list string) (st : Diagram * string) : Diagram * string :=
  match elements with
  | [] => st
  | element :: rest =>
      flowchart_loop connections (S i) rest
                     (flowchart_step connections i element st)
  end.

Definition _create_flowchart (elements : list string)
           (connections : list Connection) : Diagram :=
  let flowchart := empty in
  match elements with
  | [] =>
      let flowchart := fc_start flowchart "Start" in
      let flowchart := fc_process flowchart "main" "Main Process" in
      let flowchart := fc_end flowchart "End" in
      let flowchart := fc_connect flowchart "__start__" "main" None in
      fc_connect flowchart "main" "__end__" None
  | _ :: _ =>
      let flowchart := fc_start flowchart "Start" in
      let '(flowchart, previous_id) :=
        flowchart_loop connections 0 elements (flowchart, "__start__") in
      let flowchart := fc_end flowchart "End" in
      fc_connect flowchart previous_id "__end__" None
  end.

(** *** _create_architecture_diagram *)

Definition architecture_colors : list string :=
  [ "blue"; "green"; "orange"; "red"; "purple"; "cyan"; "yellow" ].

Fixpoint architecture_components (cols i : nat) (elements : list string)
         (st : Diagram * PyDict.dict string) : Diagram * PyDict.dict string :=
  match elements with
  | [] => st
  | element :: rest =>
      let '(arch, component_ids) := st in
      let comp_id := derive_id element in
      let component_ids := PyDict.set component_ids element comp_id in
      let color := cycle architecture_colors i in
      let col := i mod cols in
      let row := i / cols in
      let x := (150 + Z.of_nat col * 200)%Z in
      let y := (100 + Z.of_nat row * 150)%Z in
      architecture_components cols (S i) rest
        (arch_component arch comp_id (title element) x y color, component_ids)
  end.

(** One turn of the loop over the connections. *)
Definition architecture_connect (component_ids : PyDict.dict string)
           (arch : Diagram) (conn : Connection) : Diagram :=
  let from_elem := get_or (conn_from conn) "" in
  let to_elem := get_or (conn_to conn) "" in
  let label := get_or (conn_label conn) "" in
  match PyDict.get component_ids from_elem, PyDict.get component_ids to_elem with
  | Some from_id, Some to_id =>
      if (truthy from_id && truthy to_id)%bool
      then arch_connect arch from_id to_id label
      else arch
  | _, _ => arch
  end.

Definition _create_architecture_diagram (elements : list string)
           (connections : list Connection) : Diagram :=
  let arch := empty in
  match elements with
  | [] =>
      let arch := arch_component arch "frontend" "Frontend" 100 100 "blue" in
      let arch := arch_component arch "backend" "Backend" 400 100 "green" in
      let arch := arch_component arch "database" "Database" 700 100 "orange" in
      let arch := arch_connect arch "frontend" "backend" "API" in
      arch_connect arch "backend" "database" "SQL"
  | _ :: _ =>
      let cols := Nat.min (List.length elements) 4 in
      let '(arch, component_ids) :=
        architecture_components cols 0 elements (arch, []) in
      fold_left (architecture_connect component_ids) connections arch
  end.

(** *** _create_sequence_diagram *)

Definition sequence_colors : list string :=
  [ "blue"; "green"; "orange"; "red"; "purple" ].

Fixpoint sequence_participants (i : nat) (elements : list string)
         (st : Diagram * PyDict.dict string) : Diagram * PyDict.dict string :=
  match elements with
  | [] => st
  | element :: rest =>
      let '(seq, participants) := st in
      let part_id := derive_id element in
      let participants := PyDict.set participants element part_id in
      let color := cycle sequence_colors i in
      sequence_participants (S i) rest
        (seq_participant seq part_id (title element) color, participants)
  end.

Definition sequence_message (participants : PyDict.dict string)
           (seq : Diagram) (conn : Connection) : Diagram :=
  let from_elem := get_or (conn_from conn) "" in
  let to_elem := get_or (conn_to conn) "" in
  let label := get_or (conn_label conn) "Message" in
  match PyDict.get participants from_elem, PyDict.get participants to_elem with
  | Some from_id, Some to_id =>
      if (truthy from_id && truthy to_id)%bool
      then seq_message seq from_id to_id label
      else seq
  | _, _ => seq
  end.

(** The default flow over [part_list = list(participants.keys())]: a message
    from [participants[part_list[i]]] to [participants[part_list[i + 1]]],
    labelled "Step i+1"; [ids] are the values of the dictionary in the order
    of its keys. *)
Fixpoint sequence_default_flow (i : nat) (ids : list string) (seq : Diagram)
  : Diagram :=
  match ids with
  | from_id :: ((to_id :: _) as rest) =>
      sequence_default_flow (S i) rest
        (seq_message seq from_id to_id ("Step " ++ of_nat (i + 1)))
  | _ => seq
  end.

Definition _create_sequence_diagram (elements : list string)
           (connections : list Connection) : Diagram :=
  let seq := empty in
  match elements with
  | [] =>
      let seq := seq_participant seq "user" "User" "blue" in
      let seq := seq_participant seq "server" "Server" "green" in
      let seq := seq_message seq "user" "server" "Request" in
      seq_message seq "server" "user" "Response"
  | _ :: _ =>
      let '(seq, participants) :=
        sequence_participants 0 elements (seq, []) in
      match connections with
      | _ :: _ => fold_left (sequence_message participants) connections seq
      | [] => sequence_default_flow 0 (map snd participants) seq
      end
  end.

(** *** _create_mindmap *)

Definition mindmap_colors : list string :=
  [ "green"; "orange"; "red"; "purple"; "cyan"; "yellow" ].

Fixpoint mindmap_branches (i : nat) (elements : list string) (mindmap : Diagram)
  : Diagram :=
  match elements with
  | [] => mindmap
  | element :: rest =>
      let color := cycle mindmap_colors i in
      mindmap_branches (S i) rest (mm_branch mindmap "__central__" element color)
  end.

Definition _create_mindmap (elements : list string)
           (connections : list Connection) : Diagram :=
  let mindmap := empty in
  match elements with
  | [] =>
      let mindmap := mm_central mindmap "Central Concept" "blue" in
      let mindmap := mm_branch mindmap "__central__" "Branch 1" "green" in
      mm_branch mindmap "__central__" "Branch 2" "orange"
  | central_label :: branches =>
      let mindmap := mm_central mindmap central_label "blue" in
      mindmap_branches 0 branches mindmap
  end.

(** *** _create_timeline_diagram *)

Definition timeline_colors : list string :=
  [ "blue"; "green"; "orange"; "red"; "purple" ].

Definition milestone_words : list string :=
  [ "milestone"; "launch"; "release"; "completion" ].

Definition timeline_step (i : nat) (element : string) (timeline : Diagram)
  : Diagram :=
  let color := cycle timeline_colors i in
  match split_colon (chars element) with
  | Some (before, after) =>
      let date_part := strip (str before) in
      let event_part := strip (str after) in
      if existsb (fun word => contains word (lower event_part)) milestone_words
      then tl_milestone timeline date_part event_part "red"
      else tl_event timeline date_part event_part "" color
  | None =>
      tl_event timeline ("Step " ++ of_nat (i + 1)) element "" color
  end.

Fixpoint timeline_loop (i : nat) (elements : list string) (timeline : Diagram)
  : Diagram :=
  match elements with
  | [] => timeline
  | element :: rest => timeline_loop (S i) rest (timeline_step i element timeline)
  end.

Definition _create_timeline_diagram (elements : list string)
           (connections : list Connection) : Diagram :=
  let timeline := empty in
  match elements with
  | [] =>
      let timeline := tl_event timeline "2020" "Start" "Beginning" "blue" in
      let timeline := tl_milestone timeline "2021" "Milestone" "red" in
      let timeline := tl_event timeline "2022" "Progress" "Continue" "green" in
      let timeline := tl_event timeline "2023" "Current" "Today" "orange" in
      tl_build timeline
  | _ :: _ => tl_build (timeline_loop 0 elements timeline)
  end.

(** *** _create_er_diagram *)

Definition er_colors : list string :=
  [ "blue"; "green"; "orange"; "red"; "purple" ].

Fixpoint er_entities (i : nat) (elements : list string)
         (st : Diagram * PyDict.dict string) : Diagram * PyDict.dict string :=
  match elements with
  | [] => st
  | element :: rest =>
      let '(er, entity_ids) := st in
      let ent_id := derive_id element in
      let entity_ids := PyDict.set entity_ids element ent_id in
      let color := cycle er_colors i in
      let attributes := [ "id"; "name"; "created_at" ] in
      er_entities (S i) rest
        (er_entity er ent_id (title element) attributes color, entity_ids)
  end.

Definition er_relate (entity_ids : PyDict.dict string)
           (er : Diagram) (conn : Connection) : Diagram :=
  let from_elem := get_or (conn_from conn) "" in
  let to_elem := get_or (conn_to conn) "" in
  let label := get_or (conn_label conn) "related to" in
  match PyDict.get entity_ids from_elem, PyDict.get entity_ids to_elem with
  | Some from_id, Some to_id =>
      if (truthy from_id && truthy to_id)%bool
      then er_relationship er from_id to_id label "1:N"
      else er
  | _, _ => er
  end.

Definition _create_er_diagram (elements : list string)
           (connections : list Connection) : Diagram :=
  let er := empty in
  match elements with
  | [] =>
      let er := er_entity er "user" "User" [ "id"; "name"; "email" ] "blue" in
      let er := er_entity er "order" "Order" [ "id"; "user_id"; "total" ] "green" in
      er_relationship er "user" "order" "has" "1:N"
  | _ :: _ =>
      let '(er, entity_ids) := er_entities 0 elements (er, []) in
      fold_left (er_relate entity_ids) connections er
  end.

(** *** _create_simple_diagram *)

Definition simple_colors : list string :=
  [ "blue"; "green"; "orange"; "red"; "purple"; "cyan"; "yellow" ].

(** The two layouts: a row for up to four elements, else three columns. *)
Definition simple_place (horizontal : bool) (i : nat) : Z * Z :=
  if horizontal
  then ((100 + Z.of_nat i * 200)%Z, 150%Z)
  else ((100 + Z.of_nat (i mod 3) * 200)%Z, (100 + Z.of_nat (i / 3) * 120)%Z).

Fixpoint simple_boxes (horizontal : bool) (i : nat) (elements : list string)
         (st : Diagram * PyDict.dict ident) : Diagram * PyDict.dict ident :=
  match elements with
  | [] => st
  | element :: rest =>
      let '(diagram, boxes) := st in
      let '(x, y) := simple_place horizontal i in
      let color := cycle simple_colors i in
      let '(diagram, box) := box diagram x y element color in
      simple_boxes horizontal (S i) rest
                   (diagram, PyDict.set boxes element box)
  end.

(** A box is an object, and true as a condition; a missing one is [None]. *)
Definition simple_connect (boxes : PyDict.dict ident)
           (diagram : Diagram) (conn : Connection) : Diagram :=
  let from_elem := get_or (conn_from conn) "" in
  let to_elem := get_or (conn_to conn) "" in
  let label := get_or (conn_label conn) "" in
  match PyDict.get boxes from_elem, PyDict.get boxes to_elem with
  | Some from_box, Some to_box =>
      arrow_between diagram from_box to_box (Some label)
  | _, _ => diagram
  end.

(** The sequential links made when there is no connection at all. *)
Fixpoint simple_sequential (boxes : PyDict.dict ident)
         (element_list : list string) (diagram : Diagram) : Diagram :=
  match element_list with
  | a :: ((b :: _) as rest) =>
      simple_sequential boxes rest
        match PyDict.get boxes a, PyDict.get boxes b with
        | Some from_box, Some to_box =>
            arrow_between diagram from_box to_box None
        | _, _ => diagram
        end
  | _ => diagram
  end.

Definition _create_simple_diagram (elements : list string)
           (connections : list Connection) : Diagram :=
  let diagram := empty in
  match elements with
  | [] =>
      let '(diagram, box1) := box diagram 100 100 "Item 1" "blue" in
      let '(diagram, box2) := box diagram 300 100 "Item 2" "green" in
      arrow_between diagram box1 box2 (Some "connection")
  | _ :: _ =>
      let horizontal := Nat.leb (List.length elements) 4 in
      let '(diagram, boxes) :=
        simple_boxes horizontal 0 elements (diagram, []) in
      let diagram := fold_left (simple_connect boxes) connections diagram in
      match connections with
      | [] => simple_sequential boxes elements diagram
      | _ :: _ => diagram
      end
  end.

(** *** generate_diagram_from_analysis *)

(** The [analysis] dictionary: ["diagram_type"] and ["elements"] are read by
    subscript, ["connections"] with a default. *)
Record Analysis : Type := {
  analysis_diagram_type : string;
  analysis_elements : list string;
  analysis_connections : option (list Connection)
}.

(** What a call does: it returns, or it raises an exception that
    [except Exception] catches, carried here by its message. *)
Inductive outcome (A : Type) : Type :=
| Returned (value : A)
| Raised (exception : string).

Arguments Returned {A} value.
Arguments Raised {A} exception.

(** The dictionary the function returns. *)
Record Generated : Type := {
  generated_diagram : Diagram;
  generated_type : string;
  generated_excalidraw_path : string;
  generated_analysis : Analysis
}.

Section Dispatch.

  (** The seven builders and [Diagram.save], as calls that may raise: the
      builders through the diagram classes they call, [save] when the
      destination cannot be written. *)
Variables create_flowchart create_architecture_diagram
            create_sequence_diagram create_mindmap create_timeline_diagram
            create_er_diagram create_simple_diagram
    : list string -> list Connection -> outcome Diagram.
Variable save : Diagram -> string -> outcome unit.

  (** The body of the [try]: the builder chosen by [diagram_type]. *)
Definition build (diagram_type : string) (elements : list string)
             (connections : list Connection) : outcome Diagram :=
    if String.eqb diagram_type "flowchart" then
      create_flowchart elements connections
    else if String.eqb diagram_type "architecture" then
      create_architecture_diagram elements connections
    else if String.eqb diagram_type "sequence" then
      create_sequence_diagram elements connections
    else if String.eqb diagram_type "mindmap" then
      create_mindmap elements connections
    else if String.eqb diagram_type "timeline" then
      create_timeline_diagram elements connections
    else if String.eqb diagram_type "er" then
      create_er_diagram elements connections
    else
      create_simple_diagram elements connections.

  (** From "Save diagram" to the [return]. *)
Definition save_and_return (analysis : Analysis) (output_path : string)
             (diagram : Diagram) (diagram_type : string) : outcome Generated :=
    let excalidraw_path := output_path ++ ".excalidraw" in
    match save diagram excalidraw_path with
    | Returned _ =>
        Returned {| generated_diagram := diagram;
                    generated_type := diagram_type;
                    generated_excalidraw_path := excalidraw_path;
                    generated_analysis := analysis |}
    | Raised e => Raised e
    end.

  (** The lines printed to [sys.stderr], and the outcome of the call. *)
Definition generate_diagram_from_analysis (analysis : Analysis)
             (output_path : string) : list string * outcome Generated :=
    let diagram_type := analysis_diagram_type analysis in
    let elements := analysis_elements analysis in
    let connections :=
      match analysis_connections analysis with
      | Some l => l
      | None => []
      end in
    match build diagram_type elements connections with
    | Returned diagram =>
        ([], save_and_return analysis output_path diagram diagram_type)
    | Raised e =>
        let stderr :=
          [ "Warning: Failed to create " ++ diagram_type ++ " diagram: " ++ e;
            "Falling back to simple diagram" ] in
        match create_simple_diagram elements connections with
        | Returned diagram =>
            (stderr, save_and_return analysis output_path diagram "simple")
        | Raised e' => (stderr, Raised e')
        end
    end.

End Dispatch.

(** A builder of this file, as a call: it returns. *)
Definition returns (builder : list string -> list Connection -> Diagram)
  : list string -> list Connection -> outcome Diagram :=
  fun elements connections => Returned (builder elements connections).

(** The dispatcher over the seven builders of this file. *)
Definition generate (save : Diagram -> string -> outcome unit)
  : Analysis -> string -> list string * outcome Generated :=
  generate_diagram_from_analysis
    (returns _create_flowchart) (returns _create_architecture_diagram)
    (returns _create_sequence_diagram) (returns _create_mindmap)
    (returns _create_timeline_diagram) (returns _create_er_diagram)
    (returns _create_simple_diagram) save.

End Generate.

(* ================================================================== *)
(** ** Notions used to state the properties of the classifier *)

Module RouterSpec.
Import PyStr PyFloat Router ScoreValues.

Local Open Scope float_scope.

Definition with_key (x : float) : float * Z := (x, key x).

Definition pairwise {A : Type} (f : A -> A -> bool) (l : list A) : bool :=
  forallb (fun p => forallb (f p) l) l.

(** The position of an archetype in the order of evaluation. *)
Definition position (a : archetype) : nat :=
  match a with
  | Flowchart => 0 | Architecture => 1 | Sequence => 2
  | Mindmap => 3 | Timeline => 4 | Er => 5 | Simple => 6
  end.

Definition simple_result : result :=
  {| diagram_type := Simple;
     confidence := 0.5;
     reasoning := "No strong pattern detected, defaulting to simple diagram" |}.

(** The count [_score_timeline] takes its bonus from: the number of tokens
    that are a year of the form 19dd or 20dd decides between +0.4 (three or
    more), +0.2 (exactly two) and no bonus. *)
Definition timeline_bonus (years : nat) (score : float) : float :=
  match years with
  | 0 | 1 => score
  | 2 => score + 0.2
  | _ => score + 0.4
  end.

(** The four-digit tokens of a text, as the first timeline pattern (the one
    the source comments as "years") finds them. *)
Definition four_digit_tokens (text : string) : nat :=
  Re.findall_count "\b\d{4}\b" text.

(** The [scores] dictionary for six given scores. *)
Definition six_scores (s1 s2 s3 s4 s5 s6 : float) : list (archetype * float) :=
  [ (Flowchart, s1); (Architecture, s2); (Sequence, s3);
    (Mindmap, s4); (Timeline, s5); (Er, s6) ].

End RouterSpec.

(* ================================================================== *)
(** ** Notions used to state the properties of the builders *)

Module GenerateSpec.
Import PyStr Excalidraw Generate.

Local Open Scope string_scope.

(** Each node after the first is linked from the node before it, by the
    edges in their order. *)
Definition chained (d : Diagram) : Prop :=
  map endpoints (edges d) = combine (node_ids d) (tl (node_ids d)).

(** The state of the loop: the nodes made so far follow the start node, they
    are chained, and [previous_id] names the last of them. *)
Definition flowchart_inv (start : Node) (st : Diagram * string) : Prop :=
  (exists middle, nodes (fst st) = start :: middle) /\
  chained (fst st) /\
  last (node_ids (fst st)) (Id "") = Id (snd st).

Definition start_node : Node :=
  {| node_id := Id "__start__"; node_label := "Start";
     node_kind := Terminator; node_color := None |}.

Definition end_node : Node :=
  {| node_id := Id "__end__"; node_label := "End";
     node_kind := Terminator; node_color := None |}.

(** The diagram [d'] has everything the diagram [d] has. *)
Definition extends (d d' : Diagram) : Prop :=
  incl (nodes d) (nodes d') /\ incl (edges d) (edges d').

(** The label is, character for character, one of the elements. *)
Definition matched (elements : list string) (label : string) : bool :=
  existsb (String.eqb label) elements.

(** The dictionary the loops over the elements build: each element is mapped
    to the identifier derived from it. *)
Definition maps_elements (elements : list string) (before after : PyDict.dict string)
  : Prop :=
  forall k, PyDict.get after k =
            if matched elements k then Some (derive_id k) else PyDict.get before k.

Definition derived_ids (elements : list string) : list ident :=
  map (fun element => Id (derive_id element)) elements.

(** The edge a turn of the loops over the connections adds, if any, in the
    builders that keep identifiers in the dictionary. *)
Definition id_links (default : string) (cardinality : option string)
           (ids : PyDict.dict string) (conn : Connection) : list Edge :=
  match PyDict.get ids (get_or (conn_from conn) ""),
        PyDict.get ids (get_or (conn_to conn) "") with
  | Some from_id, Some to_id =>
      if (truthy from_id && truthy to_id)%bool
      then [ {| edge_from := Id from_id; edge_to := Id to_id;
                edge_label := Some (get_or (conn_label conn) default);
                edge_cardinality := cardinality |} ]
      else []
  | _, _ => []
  end.

(** The nodes a connection joins in the architecture, ER and sequence
    builders: those derived from its two labels, when each label is one of
    the elements and is not empty. *)
Definition linked_ids (elements : list string) (conn : Connection)
  : list (ident * ident) :=
  let from_elem := get_or (conn_from conn) "" in
  let to_elem := get_or (conn_to conn) "" in
  if (matched elements from_elem && matched elements to_elem &&
      truthy from_elem && truthy to_elem)%bool
  then [ (Id (derive_id from_elem), Id (derive_id to_elem)) ]
  else [].

(** The position of the last element equal to [label]. *)
Fixpoint last_index (label : string) (elements : list string) : option nat :=
  match elements with
  | [] => None
  | element :: rest =>
      match last_index label rest with
      | Some j => Some (S j)
      | None => if String.eqb label element then Some 0 else None
      end
  end.

(** The dictionary of boxes: each element is mapped to the box made for its
    last occurrence, the ones before having been overwritten. *)
Definition maps_boxes (first : nat) (elements : list string)
           (before after : PyDict.dict ident) : Prop :=
  forall k, PyDict.get after k =
            match last_index k elements with
            | Some j => Some (Anon (first + j))
            | None => PyDict.get before k
            end.

Definition box_links (boxes : PyDict.dict ident) (conn : Connection) : list Edge :=
  match PyDict.get boxes (get_or (conn_from conn) ""),
        PyDict.get boxes (get_or (conn_to conn) "") with
  | Some from_box, Some to_box =>
      [ {| edge_from := from_box; edge_to := to_box;
           edge_label := Some (get_or (conn_label conn) "");
           edge_cardinality := None |} ]
  | _, _ => []
  end.

(** The boxes a connection joins in the simple builder: the last box made for
    each of its two labels, when each label is one of the elements. *)
Definition linked_boxes (elements : list string) (conn : Connection)
  : list (ident * ident) :=
  match last_index (get_or (conn_from conn) "") elements,
        last_index (get_or (conn_to conn) "") elements with
  | Some a, Some b => [ (Anon a, Anon b) ]
  | _, _ => []
  end.

Definition box_ids (elements : list string) : list ident :=
  map Anon (seq 0 (List.length elements)).

(** Both endpoints of the edge are among [ids]. *)
Definition within (ids : list ident) (e : Edge) : Prop :=
  In (edge_from e) ids /\ In (edge_to e) ids.

(** One turn of the loop that links the elements in sequence. *)
Definition sequential_link (boxes : PyDict.dict ident) (a b : string)
           (diagram : Diagram) : Diagram :=
  match PyDict.get boxes a, PyDict.get boxes b with
  | Some from_box, Some to_box => arrow_between diagram from_box to_box None
  | _, _ => diagram
  end.

(** Every edge of the diagram joins two nodes of the diagram. *)
Definition closed (d : Diagram) : Prop :=
  Forall (within (node_ids d)) (edges d).

Definition connection (from to : string) : Connection :=
  {| conn_from := Some from; conn_to := Some to; conn_label := None |}.

(** The matching in the words of section 3 of the specification: the label,
    case-normalized, equals the identifier of one of the nodes derived from
    the elements. *)
Definition normalized_match (elements : list string) (label : string) : bool :=
  existsb (String.eqb (lower label)) (map derive_id elements).

End GenerateSpec.

(* ================================================================== *)
(** ** Further statements about the classifier *)

Module RouterSpecExt.
Import PyStr PyFloat Router ScoreValues RouterSpec.

(** The pattern of the years that earn the timeline bonus, and the first
    pattern of the timeline list, as [re.compile] reads them. *)
Definition year_regex : option Re.regex :=
  Eval vm_compute in Re.compile "\b(19|20)\d{2}\b".

Definition four_digits_regex : option Re.regex :=
  Eval vm_compute in Re.compile "\b\d{4}\b".

(** Two texts that differ at most by the case of their letters. *)
Definition same_up_to_case (t1 t2 : string) : Prop :=
  Forall2 (fun a b => lower_char a = lower_char b) (chars t1) (chars t2).

Local Open Scope float_scope.

(** [sum] of [k] copies of [w], for [k] from [lo] up to [n]. *)
Definition sums_from (w : float) (lo n : nat) : list float :=
  map (fun k => py_sum (repeat w k)) (seq lo (S n - lo)).

(** The values of a score when at least [klo] keywords and [plo] patterns are
    found and the bonus rule is one of [bonuses]. *)
Definition values_between (wk : float) (keywords : list string) (klo : nat)
           (wp : float) (patterns : list string) (plo : nat)
           (bonuses : list (option float)) : list float :=
  flat_map (fun a =>
    flat_map (fun b =>
      map (fun bonus => py_min (apply_bonus bonus (a + b)) 1.0) bonuses)
      (sums_from wp plo (List.length patterns)))
    (sums_from wk klo (List.length keywords)).

(** A winning score that reaches the threshold is at most 1 and rounds to at
    least 0.2. *)
Definition winner_ok (x : float) : bool :=
  ((x <? 0.2) || (negb (1.0 <? x) && (0.2 <=? py_round2 x)))%bool.

(** Whatever score is at least one of the scores of [l] reaches the
    threshold and rounds to at least [c]. *)
Definition dominated_ok (c : float) (l : list float) : bool :=
  forallb (fun y =>
    forallb (fun x =>
      implb (y <=? x)
            (negb (x <? 0.2) && (c <=? py_round2 (py_min x 1.0))))
      distinct_values) l.

(** The scores of a text with a keyword of weight 0.2, and of a text with
    two, or at least three, years. *)
Definition mindmap_keyword_values : list float :=
  values_between 0.2 mindmap_keywords 1 0.3 mindmap_patterns 0 [None; Some 0.4].
Definition timeline_keyword_values : list float :=
  values_between 0.2 timeline_keywords 1 0.25 timeline_patterns 0
                 [None; Some 0.2; Some 0.4].
Definition er_keyword_values : list float :=
  values_between 0.2 er_keywords 1 0.3 er_patterns 0 [None; Some 0.4].
Definition two_year_values : list float :=
  values_between 0.2 timeline_keywords 0 0.25 timeline_patterns 1 [Some 0.2].
Definition three_year_values : list float :=
  values_between 0.2 timeline_keywords 0 0.25 timeline_patterns 1 [Some 0.4].

(** The confidence a text with [years] years reaches at least. *)
Definition years_confidence (years : nat) : float :=
  if Nat.leb 3 years then 0.65 else 0.45.

End RouterSpecExt.

(* ================================================================== *)
(** ** Further statements about the builders *)

Module GenerateSpecExt.
Import PyStr Excalidraw Generate GenerateSpec.

Local Open Scope string_scope.

(** [enumerate(l)], counting from [i]. *)
Definition enumerate_from {A : Type} (i : nat) (l : list A) : list (nat * A) :=
  combine (seq i (List.length l)) l.

(** The component the architecture builder makes of the element at
    position [i], with [cols] columns. *)
Definition architecture_node (cols : nat) (p : nat * string) : Node :=
  let '(i, element) := p in
  {| node_id := Id (derive_id element);
     node_label := title element;
     node_kind := Component (150 + Z.of_nat (i mod cols) * 200)
                            (100 + Z.of_nat (i / cols) * 150);
     node_color := Some (cycle architecture_colors i) |}.

Definition sequence_node (p : nat * string) : Node :=
  let '(i, element) := p in
  {| node_id := Id (derive_id element);
     node_label := title element;
     node_kind := Participant;
     node_color := Some (cycle sequence_colors i) |}.

Definition er_node (p : nat * string) : Node :=
  let '(i, element) := p in
  {| node_id := Id (derive_id element);
     node_label := title element;
     node_kind := Entity [ "id"; "name"; "created_at" ];
     node_color := Some (cycle er_colors i) |}.

(** The box the simple builder makes of the element at position [i]. *)
Definition simple_node (horizontal : bool) (p : nat * string) : Node :=
  let '(i, element) := p in
  {| node_id := Anon i;
     node_label := element;
     node_kind := BoxShape (fst (simple_place horizontal i))
                           (snd (simple_place horizontal i));
     node_color := Some (cycle simple_colors i) |}.

(** Where a node is placed, when its kind carries a position. *)
Definition placed_at (n : Node) : option (Z * Z) :=
  match node_kind n with
  | Component x y => Some (x, y)
  | BoxShape x y => Some (x, y)
  | _ => None
  end.

(** The grid of the architecture builder: position [i] with [cols] columns. *)
Definition architecture_place (cols i : nat) : Z * Z :=
  ((150 + Z.of_nat (i mod cols) * 200)%Z, (100 + Z.of_nat (i / cols) * 150)%Z).

(** The edge the architecture, ER and sequence builders make of a
    connection: none unless both labels are elements and are not empty;
    [default] is the label of a connection that has none. *)
Definition link_edges (default : string) (cardinality : option string)
           (elements : list string) (conn : Connection) : list Edge :=
  let from_elem := get_or (conn_from conn) "" in
  let to_elem := get_or (conn_to conn) "" in
  if (matched elements from_elem && matched elements to_elem &&
      truthy from_elem && truthy to_elem)%bool
  then [ {| edge_from := Id (derive_id from_elem);
            edge_to := Id (derive_id to_elem);
            edge_label := Some (get_or (conn_label conn) default);
            edge_cardinality := cardinality |} ]
  else [].

(** The arrow the simple builder makes of a connection: none unless both
    labels are elements; it joins the last box made for each label. *)
Definition box_edges (elements : list string) (conn : Connection) : list Edge :=
  match last_index (get_or (conn_from conn) "") elements,
        last_index (get_or (conn_to conn) "") elements with
  | Some a, Some b =>
      [ {| edge_from := Anon a; edge_to := Anon b;
           edge_label := Some (get_or (conn_label conn) "");
           edge_cardinality := None |} ]
  | _, _ => []
  end.

(** Both labels of the connection are there, are not empty and are among
    the elements. *)
Definition refers_to (elements : list string) (conn : Connection) : Prop :=
  (exists a, conn_from conn = Some a /\ a <> "" /\ In a elements) /\
  (exists b, conn_to conn = Some b /\ b <> "" /\ In b elements).

(** The keys of the dictionary the loop over the elements fills, in the
    order of their first occurrence. *)
Definition first_occurrences (elements : list string) : list string :=
  fold_left (fun seen element =>
               if existsb (String.eqb element) seen then seen
               else (seen ++ [element])%list)
            elements [].

(** The message of the default flow from the participant at position [i]
    to the next one. *)
Definition step_message (p : nat * (string * string)) : Edge :=
  let '(i, (from_id, to_id)) := p in
  {| edge_from := Id from_id; edge_to := Id to_id;
     edge_label := Some ("Step " ++ of_nat (i + 1));
     edge_cardinality := None |}.

(** The arrow from the box at position [i] to the next one. *)
Definition next_arrow (i : nat) : Edge :=
  {| edge_from := Anon i; edge_to := Anon (S i);
     edge_label := None; edge_cardinality := None |}.

(** The arrow the simple builder draws between two consecutive elements. *)
Definition sequential_edges (elements : list string) (p : string * string)
  : list Edge :=
  match last_index (fst p) elements, last_index (snd p) elements with
  | Some a, Some b =>
      [ {| edge_from := Anon a; edge_to := Anon b;
           edge_label := None; edge_cardinality := None |} ]
  | _, _ => []
  end.

Definition process_node (id label : string) : Node :=
  {| node_id := Id id; node_label := label;
     node_kind := Process; node_color := None |}.

Definition decision_node (id label : string) : Node :=
  {| node_id := Id id; node_label := label;
     node_kind := Decision; node_color := None |}.

(** The nodes the flowchart builder makes of the element at position [i]:
    a process, or a decision followed by the process of its "yes" branch. *)
Definition flowchart_turn_nodes (connections : list Connection)
           (p : nat * string) : list Node :=
  let '(i, element) := p in
  let element_clean := clean element in
  if is_decision element_clean then
    [ decision_node ("decision_" ++ of_nat i) element_clean;
      match filter (from_matches element_clean) connections with
      | conn :: _ =>
          process_node ("process_" ++ of_nat i ++ "_yes")
                       (get_or (conn_to conn) "Continue")
      | [] => process_node ("process_" ++ of_nat i ++ "_continue") "Continue"
      end ]
  else [ process_node ("process_" ++ of_nat i) element_clean ].

(** The elements the flowchart builder takes for decisions. *)
Definition decisions (elements : list string) : list string :=
  filter (fun element => is_decision (clean element)) elements.

Definition central_node (label : string) : Node :=
  {| node_id := Id "__central__"; node_label := label;
     node_kind := Central; node_color := Some "blue" |}.

(** The branch the mind map builder makes of the element at position [i]
    after the first one: the node number [i + 1] of the diagram. *)
Definition branch_node (p : nat * string) : Node :=
  let '(i, element) := p in
  {| node_id := Anon (S i); node_label := element;
     node_kind := Branch; node_color := Some (cycle mindmap_colors i) |}.

Definition branch_edge (i : nat) : Edge :=
  {| edge_from := Id "__central__"; edge_to := Anon (S i);
     edge_label := None; edge_cardinality := None |}.

(** The title the timeline builder gives the entry made of an element: the
    text after the first colon, stripped, or the whole element. *)
Definition timeline_title (element : string) : string :=
  match split_colon (chars element) with
  | Some (_, after) => strip (str after)
  | None => element
  end.

(** The date of that entry: the text before the first colon, stripped, or
    the position of the element, counted from one. *)
Definition timeline_date (p : nat * string) : string :=
  let '(i, element) := p in
  match split_colon (chars element) with
  | Some (before, _) => strip (str before)
  | None => "Step " ++ of_nat (i + 1)
  end.

(** The date a timeline entry carries. *)
Definition date_of (n : Node) : option string :=
  match node_kind n with
  | Event date _ => Some date
  | Milestone date => Some date
  | _ => None
  end.

(** The characters [rstrip('.!?')] removes. *)
Definition is_final_mark (c : ascii) : bool :=
  existsb (Ascii.eqb c) (chars ".!?").

(** The names the dispatcher knows. *)
Definition known_types : list string :=
  [ "flowchart"; "architecture"; "sequence"; "mindmap"; "timeline"; "er" ].

(** [analysis.get("connections", [])] *)
Definition connections_of (analysis : Analysis) : list Connection :=
  match analysis_connections analysis with
  | Some l => l
  | None => []
  end.

(** The value of a character as a decimal digit. *)
Definition digit_value (c : ascii) : nat := nat_of_ascii c - 48.

(** The number a run of decimal digits writes. *)
Definition decimal_value (l : list ascii) : nat :=
  fold_left (fun a c => 10 * a + digit_value c) l 0.

(** An identifier of the flowchart made of a prefix, the position of the
    element and a suffix. *)
Definition numbered (form : string * string) (i : nat) : string :=
  fst form ++ of_nat i ++ snd form.

(** The four forms of the identifiers the flowchart loop makes. *)
Definition id_forms : list (string * string) :=
  [ ("decision_", ""); ("process_", "");
    ("process_", "_yes"); ("process_", "_continue") ].

(** The identifier is one of those the flowchart loop can make at
    position [i]. *)
Definition made_at (i : nat) (id : ident) : Prop :=
  exists form, In form id_forms /\ id = Id (numbered form i).

End GenerateSpecExt.

(* ================================================================== *)
(** ** Properties of the classifier *)

Module RouterProps.
Import PyStr PyFloat Router ScoreValues RouterSpec.

Local Open Scope float_scope.

(** Every pattern of the router is in the fragment [Re] reads. *)
Lemma patterns_compile :
  forallb (fun p => match Re.compile p with Some _ => true | None => false end)
          (flowchart_patterns ++ architecture_patterns ++ sequence_patterns ++
           mindmap_patterns ++ timeline_patterns ++ er_patterns ++
           [ "if\s+\w+.*,\s*(do|show|go|redirect|return)";
             "\b\w+\s+to\s+\w+\b"; "\w+\s*\([^)]+,\s*[^)]+\)";
             "\b(19|20)\d{2}\b"; "(has\s+many|belongs\s+to|has\s+one)" ])
  = true.
Proof. vm_compute. reflexivity. Qed.

(** The matcher on the examples the source comments on its patterns. *)
Example search_examples :
  Re.search "\w+\s+sends?\s+\w+\s+to\s+\w+" "a sends x to b" = true /\
  Re.search "\d{4}\s*[-:]\s*\w+" "2008: something" = true /\
  Re.search "\w+\s*\([^)]+,\s*[^)]+\)" "topic (sub1, sub2)" = true /\
  Re.search "\bif\b.*\bthen\b" "gift then" = false /\
  Re.findall_count "\b\w+\s+to\s+\w+\b" "a to b, c to d and e to f" = 3%nat.
Proof. vm_compute. repeat split; reflexivity. Qed.

(** [round(x, 2)] on values whose ties and neighbours are known. *)
Example round_examples :
  map py_round2 [0.125; 0.375; 2.675; 0.995; 0.7; 1.0] =
  [0.12; 0.38; 2.67; 0.99; 0.7; 1.0].
Proof. vm_compute. reflexivity. Qed.

Lemma map_const_repeat {A B : Type} (w : B) (l : list A) :
  map (fun _ => w) l = repeat w (List.length l).
Proof.
  induction l as [|a l IH]; simpl; [reflexivity | now rewrite IH].
Qed.

Lemma hits_in_sums (w : float) (f : string -> bool) (items : list string) :
  In (py_sum (map (fun _ => w) (filter f items))) (sums w (List.length items)).
Proof.
  rewrite map_const_repeat. unfold sums.
  apply in_map_iff. exists (List.length (filter f items)). split; [reflexivity|].
  apply in_seq. pose proof (filter_length_le f items). lia.
Qed.

Lemma signal_in_values wk keywords wp patterns bonuses text bonus :
  In bonus bonuses ->
  In (py_min (apply_bonus bonus (keyword_score wk keywords text +
                                 pattern_score wp patterns text)) 1.0)
     (values_of wk keywords wp patterns bonuses).
Proof.
  intros Hbonus. unfold values_of, signal_values.
  apply in_flat_map. eexists. split; [apply hits_in_sums|].
  apply in_flat_map. eexists. split; [apply hits_in_sums|].
  apply in_map_iff. exists bonus. split; [reflexivity | exact Hbonus].
Qed.

Lemma bonus_if (c : bool) (b s : float) :
  (if c then s + b else s) = apply_bonus (if c then Some b else None) s.
Proof. destruct c; reflexivity. Qed.

Lemma bonus_if2 (c1 c2 : bool) (b1 b2 s : float) :
  (if c1 then s + b1 else if c2 then s + b2 else s) =
  apply_bonus (if c1 then Some b1 else if c2 then Some b2 else None) s.
Proof. destruct c1, c2; reflexivity. Qed.

Lemma score_flowchart_value text : In (_score_flowchart text) flowchart_values.
Proof.
  unfold _score_flowchart, flowchart_values. cbv zeta. rewrite bonus_if.
  apply signal_in_values.
  destruct (Re.search _ text); [right; left | left]; reflexivity.
Qed.

Lemma bonus_none (s : float) : s = apply_bonus None s.
Proof. reflexivity. Qed.

Lemma score_architecture_value text : In (_score_architecture text) architecture_values.
Proof.
  unfold _score_architecture, architecture_values. cbv zeta.
  rewrite (bonus_none (_ + _)).
  apply signal_in_values. left. reflexivity.
Qed.

Lemma score_sequence_value text : In (_score_sequence text) sequence_values.
Proof.
  unfold _score_sequence, sequence_values. cbv zeta. rewrite bonus_if.
  apply signal_in_values.
  destruct (Nat.leb 3 _); [right; left | left]; reflexivity.
Qed.

Lemma score_mindmap_value text : In (_score_mindmap text) mindmap_values.
Proof.
  unfold _score_mindmap, mindmap_values. cbv zeta. rewrite bonus_if.
  apply signal_in_values.
  destruct (Nat.leb 2 _); [right; left | left]; reflexivity.
Qed.

Lemma score_timeline_value text : In (_score_timeline text) timeline_values.
Proof.
  unfold _score_timeline, timeline_signals, timeline_values. cbv zeta.
  rewrite bonus_if2. apply signal_in_values.
  destruct (Nat.leb 3 _); [right; right; left; reflexivity|].
  destruct (Nat.leb 2 _); [right; left | left]; reflexivity.
Qed.

Lemma score_er_value text : In (_score_er text) er_values.
Proof.
  unfold _score_er, er_values. cbv zeta. rewrite bonus_if.
  apply signal_in_values.
  destruct (Nat.leb 2 _); [right; left | left]; reflexivity.
Qed.

Lemma scores_in_values text :
  Forall (fun p => In (snd p) score_values) (scores text).
Proof.
  pose proof (score_flowchart_value text).
  pose proof (score_architecture_value text).
  pose proof (score_sequence_value text).
  pose proof (score_mindmap_value text).
  pose proof (score_timeline_value text).
  pose proof (score_er_value text).
  unfold scores, score_values.
  repeat (apply Forall_cons; [cbn [snd]; rewrite !in_app_iff; tauto|]).
  apply Forall_nil.
Qed.

Ltac find_value := repeat first [left; reflexivity | right].

Lemma values_distinct : Forall (fun x => In x distinct_values) score_values.
Proof.
  vm_compute. repeat (apply Forall_cons; [find_value|]). apply Forall_nil.
Qed.

Lemma value_distinct x : In x score_values -> In x distinct_values.
Proof.
  intro H. exact (proj1 (Forall_forall _ _) values_distinct x H).
Qed.

Lemma values_ok : forallb confidence_ok distinct_values = true.
Proof. vm_compute. reflexivity. Qed.

Lemma value_ok x : In x score_values -> confidence_ok x = true.
Proof.
  intro H. apply value_distinct in H.
  exact (proj1 (forallb_forall _ _) values_ok x H).
Qed.

Lemma values_compare :
  pairwise compares_exactly (map with_key distinct_values) = true.
Proof. vm_compute. reflexivity. Qed.

Lemma compare_keyed (V : list float) :
  pairwise compares_exactly (map with_key V) = true ->
  forall x y, In x V -> In y V ->
  (x <? y) = (key x <? key y)%Z /\
  (x <=? y) = (key x <=? key y)%Z /\
  (x =? y) = (key x =? key y)%Z.
Proof.
  intros H x y Hx Hy. unfold pairwise in H.
  rewrite forallb_forall in H.
  specialize (H (with_key x) (in_map with_key V x Hx)).
  rewrite forallb_forall in H.
  specialize (H (with_key y) (in_map with_key V y Hy)).
  unfold compares_exactly, with_key in H. cbn [fst snd] in H.
  apply andb_prop in H. destruct H as [H H3].
  apply andb_prop in H. destruct H as [H1 H2].
  apply Bool.eqb_prop in H1, H2, H3. auto.
Qed.

Lemma compare_values x y :
  In x score_values -> In y score_values ->
  (x <? y) = (key x <? key y)%Z /\
  (x <=? y) = (key x <=? key y)%Z /\
  (x =? y) = (key x =? key y)%Z.
Proof.
  intros Hx Hy. apply value_distinct in Hx, Hy.
  exact (compare_keyed distinct_values values_compare x y Hx Hy).
Qed.

Ltac run_max := cbv [max_key max_from get archetype_eqb map fst snd position].

Section SixScores.
Variables s1 s2 s3 s4 s5 s6 : float.

Lemma best_member :
  let d := six_scores s1 s2 s3 s4 s5 s6 in
  In (max_key d, get d (max_key d)) d.
  Proof.
    unfold six_scores. run_max.
    repeat match goal with
           | |- context [if ?x <? ?y then _ else _] => destruct (x <? y); run_max
           end; simpl; tauto.
  Qed.

Lemma best_in_order :
  In (max_key (six_scores s1 s2 s3 s4 s5 s6))
     [Flowchart; Architecture; Sequence; Mindmap; Timeline; Er].
  Proof.
    unfold six_scores. run_max.
    repeat match goal with
           | |- context [if ?x <? ?y then _ else _] => destruct (x <? y); run_max
           end; simpl; tauto.
  Qed.

Hypothesis values : Forall (fun x => In x score_values) [s1; s2; s3; s4; s5; s6].

Lemma max_key_spec (a : archetype) :
  let d := six_scores s1 s2 s3 s4 s5 s6 in
  In a (map fst d) ->
  (get d a <=? get d (max_key d)) = true /\
  ((get d a =? get d (max_key d)) = true -> position (max_key d) <= position a).
  Proof.
    assert (L : forall x y, In x [s1; s2; s3; s4; s5; s6] ->
                            In y [s1; s2; s3; s4; s5; s6] ->
                (x <? y) = (key x <? key y)%Z /\
                (x <=? y) = (key x <=? key y)%Z /\
                (x =? y) = (key x =? key y)%Z).
    { intros x y Hx Hy. rewrite Forall_forall in values.
      apply compare_values; apply values; assumption. }
    intros d Ha. unfold d, six_scores in *.
    assert (Ha' : a <> Simple).
    { intro; subst a. simpl in Ha. intuition discriminate. }
    clear Ha. run_max.
    repeat match goal with
           | |- context [if ?x <? ?y then _ else _] =>
               let E := fresh "E" in
               destruct (L x y ltac:(simpl; tauto) ltac:(simpl; tauto)) as [E _];
               rewrite E; clear E;
               destruct (Z.ltb_spec (key x) (key y)); run_max
           end.
    all: destruct a; try congruence; run_max.
    all: match goal with
         | |- (?x <=? ?y) = true /\ ((?x =? ?y) = true -> _) =>
             let E1 := fresh in let E2 := fresh in
             destruct (L x y ltac:(simpl; tauto) ltac:(simpl; tauto)) as [_ [E1 E2]];
             rewrite E1, E2; clear E1 E2;
             split; [apply Z.leb_le; lia | rewrite Z.eqb_eq; intro; lia]
         end.
  Qed.
End SixScores.

(** C1. For every text, when each of the six scores the classifier computes
    is strictly below 0.2, [detect_type] returns archetype simple with
    confidence 0.5 and the fixed reasoning string, whichever archetype has
    the highest score. *)
Theorem detect_type_below_threshold (text : string) :
  Forall (fun p => (snd p <? 0.2) = true) (scores (lower text)) ->
  detect_type text = simple_result.
Proof.
  unfold detect_type, scores. cbv zeta.
  generalize (_score_flowchart (lower text)) (_score_architecture (lower text))
             (_score_sequence (lower text)) (_score_mindmap (lower text))
             (_score_timeline (lower text)) (_score_er (lower text)).
  intros s1 s2 s3 s4 s5 s6 H.
  rewrite Forall_forall in H.
  pose proof (H _ (best_member s1 s2 s3 s4 s5 s6)) as B.
  unfold six_scores in B. cbn [snd] in B. rewrite B. reflexivity.
Qed.

(** A text whose highest score is the flowchart's 0.15 (one keyword, "end"):
    every score is below the threshold and the result is the simple one. *)
Lemma detect_type_below_threshold_witness :
  Forall (fun p => (snd p <? 0.2) = true) (scores (lower "Weekend")) /\
  get (scores (lower "Weekend")) Flowchart = 0.15 /\
  detect_type "Weekend" = simple_result.
Proof.
  assert (H : Forall (fun p => (snd p <? 0.2) = true) (scores (lower "Weekend"))).
  { vm_compute. repeat constructor. }
  split; [exact H|]. split; [vm_compute; reflexivity|].
  exact (detect_type_below_threshold "Weekend" H).
Defined.

Lemma round_of_value (x : float) :
  In x score_values -> (x <? 0.2) = false ->
  let c := py_round2 (py_min x 1.0) in
  (0 <=? c) = true /\ (c <=? 1) = true /\
  exists n : Z, (0 <= n <= 100)%Z /\ c = of_uint63 (Uint63.of_Z n) / 100.
Proof.
  intros Hx Hlow c. pose proof (value_ok x Hx) as Hok.
  unfold confidence_ok in Hok. rewrite Hlow in Hok.
  apply andb_prop in Hok. destruct Hok as [_ Hok]. cbn [orb] in Hok.
  subst c. revert Hok. generalize (py_min x 1.0). intros y Hok.
  unfold py_round2 in *.
  destruct (Prim2SF y) as [| | |[|] m e]; try discriminate.
  apply andb_prop in Hok. destruct Hok as [Hok H4].
  apply andb_prop in Hok. destruct Hok as [Hok H3].
  apply andb_prop in Hok. destruct Hok as [H1 H2].
  apply Z.leb_le in H1, H2.
  assert (Hn : (hundredths m e <? 2 ^ 53)%Z = true).
  { apply Z.ltb_lt. change (2 ^ 53)%Z with 9007199254740992%Z. lia. }
  rewrite Hn in *. repeat split; try assumption.
  exists (hundredths m e). split; [lia | reflexivity].
Qed.

(** C2. For every text, the confidence [detect_type] returns lies in [0,1]
    and is a whole number of hundredths (the float nearest to n/100 for an
    integer n between 0 and 100); every archetype score is at most 1.0, also
    when the sum of its signals exceeds 1; and the archetype returned is one
    of the seven of the enumeration. *)
Theorem detect_type_range (text : string) :
  let r := detect_type text in
  ((0 <=? confidence r) = true /\ (confidence r <=? 1) = true) /\
  (exists n : Z, (0 <= n <= 100)%Z /\
                 confidence r = of_uint63 (Uint63.of_Z n) / 100) /\
  Forall (fun p => (snd p <=? 1) = true) (scores (lower text)) /\
  In (diagram_type r)
     [Flowchart; Architecture; Sequence; Mindmap; Timeline; Er; Simple].
Proof.
  pose proof (scores_in_values (lower text)) as V.
  unfold detect_type. cbv zeta. revert V. unfold scores.
  generalize (_score_flowchart (lower text)) (_score_architecture (lower text))
             (_score_sequence (lower text)) (_score_mindmap (lower text))
             (_score_timeline (lower text)) (_score_er (lower text)).
  intros s1 s2 s3 s4 s5 s6 V.
  assert (Hclamp : Forall (fun p : archetype * float => (snd p <=? 1) = true)
            [(Flowchart, s1); (Architecture, s2); (Sequence, s3);
             (Mindmap, s4); (Timeline, s5); (Er, s6)]).
  { apply Forall_forall. intros p Hp. rewrite Forall_forall in V.
    pose proof (value_ok _ (V p Hp)) as Hok. unfold confidence_ok in Hok.
    apply andb_prop in Hok. tauto. }
  pose proof (best_member s1 s2 s3 s4 s5 s6) as B.
  pose proof (best_in_order s1 s2 s3 s4 s5 s6) as O.
  cbv zeta in B. unfold six_scores in B, O.
  rewrite Forall_forall in V. apply V in B. cbn [snd] in B.
  revert B O.
  generalize (max_key [(Flowchart, s1); (Architecture, s2); (Sequence, s3);
                       (Mindmap, s4); (Timeline, s5); (Er, s6)]).
  intros b. generalize (get [(Flowchart, s1); (Architecture, s2); (Sequence, s3);
                       (Mindmap, s4); (Timeline, s5); (Er, s6)] b).
  intros x B O.
  destruct (x <? 0.2) eqn:Hlow; cbn [confidence diagram_type].
  - repeat split; try exact Hclamp.
    + exists 50%Z. split; [lia | reflexivity].
    + simpl; tauto.
  - destruct (round_of_value x B Hlow) as (H0 & H1 & Hn).
    repeat split; try assumption.
    simpl in O |- *. tauto.
Qed.

(** A text whose flowchart signals add up to more than 1 before the final
    [min]: the score, and the confidence, are 1.0. *)
Example detect_type_clamped :
  let text := "if valid then start the process, else check the next step" in
  get (scores (lower text)) Flowchart = 1.0 /\
  confidence (detect_type text) = 1.0.
Proof. vm_compute. split; reflexivity. Qed.

(** C3. For every text, the archetype [detect_type] selects has a score that
    no other archetype's score exceeds, and an archetype with an equal score
    is never earlier in the order flowchart, architecture, sequence, mindmap,
    timeline, er; the selected archetype is the one returned unless its score
    is below the threshold. *)
Theorem detect_type_selects_max (text : string) :
  let d := scores (lower text) in
  let best := max_key d in
  Forall (fun a =>
            (get d a <=? get d best) = true /\
            ((get d a =? get d best) = true -> position best <= position a))
         [Flowchart; Architecture; Sequence; Mindmap; Timeline; Er] /\
  diagram_type (detect_type text) = (if get d best <? 0.2 then Simple else best).
Proof.
  pose proof (scores_in_values (lower text)) as V.
  unfold detect_type. cbv zeta. revert V. unfold scores.
  generalize (_score_flowchart (lower text)) (_score_architecture (lower text))
             (_score_sequence (lower text)) (_score_mindmap (lower text))
             (_score_timeline (lower text)) (_score_er (lower text)).
  intros s1 s2 s3 s4 s5 s6 V. split.
  - apply Forall_forall. intros a Ha.
    apply (max_key_spec s1 s2 s3 s4 s5 s6); [|exact Ha].
    rewrite Forall_forall in V. apply Forall_forall. intros x Hx.
    simpl in Hx.
    destruct Hx as [<-|[<-|[<-|[<-|[<-|[<-|[]]]]]]];
      match goal with
      | |- In ?s _ =>
          match type of V with
          | context [(?k, s)] => apply (V (k, s)); simpl; tauto
          end
      end.
  - match goal with |- context [if ?c then _ else _] => destruct c end;
      reflexivity.
Qed.

(** A text on which the flowchart and the architecture scores are both 0.3
    (two keywords each): the flowchart, evaluated first, is selected. *)
Lemma detect_type_selects_max_witness :
  let text := "Then else, server and client" in
  let d := scores (lower text) in
  (get d Architecture =? get d Flowchart) = true /\
  position (max_key d) <= position Architecture /\
  diagram_type (detect_type text) = Flowchart.
Proof.
  intros text d.
  destruct (detect_type_selects_max text) as [H T].
  assert (E : (get d Architecture =? get d Flowchart) = true)
    by (vm_compute; reflexivity).
  assert (B : max_key d = Flowchart) by (vm_compute; reflexivity).
  split; [exact E|]. split.
  - rewrite Forall_forall in H.
    apply (H Architecture); [simpl; tauto|].
    fold d. rewrite B. exact E.
  - rewrite T. fold d. rewrite B. vm_compute. reflexivity.
Defined.

(** C8 (as amended). In the timeline score, at least three year tokens of the
    form 19dd or 20dd add 0.4 to the sum of the keyword and pattern signals,
    exactly two add 0.2, and fewer add nothing; the sum is then capped at
    1.0. *)
Theorem score_timeline_bonus (text : string) :
  _score_timeline text =
  py_min (timeline_bonus (timeline_years text) (timeline_signals text)) 1.0.
Proof.
  unfold _score_timeline. cbv zeta.
  generalize (timeline_signals text) (timeline_years text).
  intros s n. destruct n as [|[|[|n]]]; reflexivity.
Qed.

(** C8 as stated fails: three four-digit year tokens that do not start with
    19 or 20 earn no bonus. *)
Lemma score_timeline_bonus_counterexample :
  let text := "1066 hastings, 1492 columbus, 1776 independence" in
  four_digit_tokens text = 3%nat /\
  timeline_years text = 0%nat /\
  _score_timeline text = timeline_signals text /\
  (_score_timeline text =? py_min (timeline_signals text + 0.4) 1.0) = false.
Proof. vm_compute. repeat split; reflexivity. Qed.

(** The scenario of the years: three years of the form 20dd, and a score
    that the bonus takes past 1. *)
Example detect_type_years :
  let text := "Founded 2018, launched 2020, released 2022" in
  timeline_years (lower text) = 3%nat /\
  (1 <? timeline_signals (lower text) + 0.4) = true /\
  detect_type text =
  {| diagram_type := Timeline; confidence := 1.0;
     reasoning := "Detected chronological events or dates" |}.
Proof. vm_compute. repeat split; reflexivity. Qed.

(** C9. The text of the scenario is classified as a flowchart with a
    confidence of at least 0.5. *)
Theorem detect_type_credentials :
  let r := detect_type "If credentials valid then show dashboard else show error" in
  diagram_type r = Flowchart /\ (0.5 <=? confidence r) = true.
Proof. vm_compute. split; reflexivity. Qed.

End RouterProps.

(* ================================================================== *)
(** ** Properties of the builders *)

Module GenerateProps.
Import PyStr Excalidraw Generate GenerateSpec.

(** *** The flowchart is a chain *)

Lemma combine_tl_snoc {A : Type} (l : list A) (x d : A) :
  l <> [] ->
  combine (l ++ [x]) (tl (l ++ [x])) = combine l (tl l) ++ [(last l d, x)].
Proof.
  induction l as [|a l IH]; [congruence|]. intros _.
  destruct l as [|b l]; [reflexivity|].
  change (combine ((a :: b :: l) ++ [x]) (tl ((a :: b :: l) ++ [x])))
    with ((a, b) :: combine ((b :: l) ++ [x]) (tl ((b :: l) ++ [x]))).
  rewrite IH by congruence. reflexivity.
Qed.

Lemma node_ids_add_node d n : node_ids (add_node d n) = node_ids d ++ [node_id n].
Proof. unfold node_ids, add_node. cbn [nodes]. apply map_app. Qed.

Lemma node_ids_add_edge d e : node_ids (add_edge d e) = node_ids d.
Proof. reflexivity. Qed.

(** Adding a node and the edge that links it from the last node keeps the
    chain. *)
Lemma chained_extend d n e :
  chained d -> node_ids d <> [] ->
  endpoints e = (last (node_ids d) (Id ""), node_id n) ->
  chained (add_edge (add_node d n) e).
Proof.
  unfold chained. intros Hc Hne He.
  rewrite node_ids_add_edge, node_ids_add_node.
  rewrite (combine_tl_snoc _ _ (Id "")) by exact Hne.
  cbn [edges add_edge add_node]. rewrite map_app, Hc. cbn [map]. now rewrite He.
Qed.

Lemma inv_extend start d prev n id label :
  flowchart_inv start (d, prev) ->
  node_id n = Id id ->
  flowchart_inv start (fc_connect (add_node d n) prev id label, id).
Proof.
  intros [[middle Hn] [Hc Hl]] Hid. cbn [fst snd] in *.
  assert (Hne : node_ids d <> []) by (unfold node_ids; rewrite Hn; discriminate).
  unfold fc_connect. repeat split; cbn [fst snd].
  - exists (middle ++ [n]). cbn [nodes add_edge add_node]. now rewrite Hn.
  - apply chained_extend; try assumption.
    unfold endpoints. cbn [edge_from edge_to]. now rewrite Hl, Hid.
  - rewrite node_ids_add_edge, node_ids_add_node, last_last. exact Hid.
Qed.

Lemma flowchart_step_inv start connections i element st :
  flowchart_inv start st ->
  flowchart_inv start (flowchart_step connections i element st).
Proof.
  destruct st as [d prev]. intro H. unfold flowchart_step.
  destruct (is_decision (clean element)).
  - destruct (filter (from_matches (clean element)) connections) as [|conn yes];
      unfold fc_process, fc_decision;
      apply inv_extend; [|reflexivity| |reflexivity];
      apply inv_extend; [exact H | reflexivity | exact H | reflexivity].
  - unfold fc_process. apply inv_extend; [exact H | reflexivity].
Qed.

Lemma flowchart_loop_inv start connections elements :
  forall i st,
    flowchart_inv start st ->
    flowchart_inv start (flowchart_loop connections i elements st).
Proof.
  induction elements as [|element rest IH]; intros i st H; cbn [flowchart_loop].
  - exact H.
  - apply IH. apply flowchart_step_inv. exact H.
Qed.

(** C7. The nodes of a flowchart begin with the "Start" terminator and end
    with the "End" terminator, and each node after the first is linked from
    the node before it: the edges, in order, join the consecutive nodes.
    This holds for every list of elements, the non-empty ones in
    particular. *)
Theorem flowchart_start_end_chain (elements : list string)
        (connections : list Connection) :
  let d := _create_flowchart elements connections in
  (exists middle, nodes d = start_node :: middle ++ [end_node]) /\
  map endpoints (edges d) = combine (node_ids d) (tl (node_ids d)).
Proof.
  destruct elements as [|element rest].
  - split; [|reflexivity].
    exists [{| node_id := Id "main"; node_label := "Main Process";
               node_kind := Process; node_color := None |}]. reflexivity.
  - cbv zeta. unfold _create_flowchart.
    assert (H0 : flowchart_inv start_node (fc_start empty "Start", "__start__")).
    { repeat split; cbn [fst snd]; [exists []|..]; reflexivity. }
    pose proof (flowchart_loop_inv start_node connections (element :: rest) 0 _ H0) as H.
    destruct (flowchart_loop connections 0 (element :: rest)
                             (fc_start empty "Start", "__start__")) as [d prev].
    pose proof (inv_extend start_node d prev end_node "__end__" None H eq_refl) as H'.
    destruct H as [[middle Hn] _]. cbn [fst] in Hn.
    destruct H' as [_ [Hc _]]. cbn [fst] in Hc.
    split; [|exact Hc].
    exists middle. cbn [nodes fc_connect fc_end add_edge add_node]. now rewrite Hn.
Qed.

(** *** The "yes" branch of a decision *)

Lemma extends_refl d : extends d d.
Proof. split; apply incl_refl. Qed.

Lemma extends_trans d1 d2 d3 : extends d1 d2 -> extends d2 d3 -> extends d1 d3.
Proof. intros [H1 H2] [H3 H4]. split; eapply incl_tran; eassumption. Qed.

Lemma extends_add_node d n : extends d (add_node d n).
Proof. split; cbn; [apply incl_appl|]; apply incl_refl. Qed.

Lemma extends_add_edge d e : extends d (add_edge d e).
Proof. split; cbn; [|apply incl_appl]; apply incl_refl. Qed.

Lemma flowchart_step_extends connections i element d prev :
  extends d (fst (flowchart_step connections i element (d, prev))).
Proof.
  unfold flowchart_step.
  destruct (is_decision (clean element));
    [destruct (filter (from_matches (clean element)) connections)|];
    cbn [fst]; unfold fc_connect, fc_process, fc_decision;
    repeat (eapply extends_trans; [|apply extends_add_edge || apply extends_add_node]);
    apply extends_refl.
Qed.

Lemma flowchart_loop_extends connections elements :
  forall i st, extends (fst st) (fst (flowchart_loop connections i elements st)).
Proof.
  induction elements as [|element rest IH]; intros i [d prev]; cbn [flowchart_loop].
  - apply extends_refl.
  - eapply extends_trans; [|apply IH]. apply flowchart_step_extends.
Qed.

(** What the turn of the loop for the element at position [k] makes is in the
    diagram the loop ends with. *)
Lemma flowchart_loop_turn connections elements :
  forall i st k element,
    nth_error elements k = Some element ->
    exists st',
      extends (fst (flowchart_step connections (i + k) element st'))
              (fst (flowchart_loop connections i elements st)).
Proof.
  induction elements as [|e rest IH]; intros i st k element Hk.
  - destruct k; discriminate.
  - destruct k as [|k]; cbn [nth_error] in Hk.
    + injection Hk as ->. exists st. rewrite Nat.add_0_r. cbn [flowchart_loop].
      apply flowchart_loop_extends.
    + destruct (IH (S i) (flowchart_step connections i e st) k element Hk)
        as [st' H].
      exists st'. cbn [flowchart_loop].
      replace (i + S k) with (S i + k) by lia. exact H.
Qed.

Lemma create_flowchart_turn elements connections k element :
  nth_error elements k = Some element ->
  exists st',
    extends (fst (flowchart_step connections k element st'))
            (_create_flowchart elements connections).
Proof.
  intro Hk. destruct elements as [|e rest]; [destruct k; discriminate|].
  destruct (flowchart_loop_turn connections (e :: rest) 0
              (fc_start empty "Start", "__start__") k element Hk) as [st' H].
  exists st'. cbn [Nat.add] in H.
  unfold _create_flowchart.
  destruct (flowchart_loop connections 0 (e :: rest)
                           (fc_start empty "Start", "__start__")) as [d prev].
  cbn [fst] in H. eapply extends_trans; [exact H|].
  unfold fc_connect, fc_end.
  eapply extends_trans; [apply extends_add_node | apply extends_add_edge].
Qed.

Lemma filter_first {A : Type} (f : A -> bool) (pre : list A) (x : A) (post : list A) :
  Forall (fun y => f y = false) pre -> f x = true ->
  filter f (pre ++ x :: post) = x :: filter f post.
Proof.
  intros Hpre Hx. induction Hpre as [|y pre Hy _ IH]; cbn [app filter].
  - now rewrite Hx.
  - now rewrite Hy.
Qed.

Lemma empty_from_matches (c : Connection) (element_clean : string) :
  conn_from c = None \/ conn_from c = Some "" ->
  from_matches element_clean c = true.
Proof.
  intros [H|H]; unfold from_matches; rewrite H; cbn [get_or]; unfold contains;
    change (chars (lower "")) with (@nil ascii);
    destruct (chars (lower element_clean)); reflexivity.
Qed.

(** C10. In the flowchart builder a connection whose ["from"] is missing or
    empty passes the test of [yes_connections] for every element; for a
    decision element, when no connection before it passes the test, the
    "yes" successor of the decision takes its label from this connection's
    ["to"] ("Continue" when that is missing too), whatever connections come
    after it. *)
Theorem empty_from_labels_yes_branch
        (elements : list string) (i : nat) (element : string)
        (pre : list Connection) (c : Connection) (post : list Connection) :
  nth_error elements i = Some element ->
  is_decision (clean element) = true ->
  conn_from c = None \/ conn_from c = Some "" ->
  Forall (fun c' => from_matches (clean element) c' = false) pre ->
  let d := _create_flowchart elements (pre ++ c :: post) in
  (forall element_clean, from_matches element_clean c = true) /\
  In {| node_id := Id ("process_" ++ of_nat i ++ "_yes");
        node_label := get_or (conn_to c) "Continue";
        node_kind := Process; node_color := None |} (nodes d) /\
  In {| edge_from := Id ("decision_" ++ of_nat i);
        edge_to := Id ("process_" ++ of_nat i ++ "_yes");
        edge_label := Some "yes"; edge_cardinality := None |} (edges d).
Proof.
  intros Hi Hdec Hfrom Hpre d.
  split; [intro; now apply empty_from_matches|].
  destruct (create_flowchart_turn elements (pre ++ c :: post) i element Hi)
    as [[d0 prev] [Hn He]].
  unfold flowchart_step in Hn, He. rewrite Hdec in Hn, He.
  rewrite (filter_first _ pre c post Hpre (empty_from_matches c _ Hfrom)) in Hn, He.
  cbn [fst] in Hn, He. split.
  - apply Hn. cbn. apply in_or_app. right. left. reflexivity.
  - apply He. cbn. apply in_or_app. right. left. reflexivity.
Qed.

(** A decision element, a first connection without ["from"] and a second one
    whose ["from"] is a word of the element: the first one labels the "yes"
    branch. *)
Lemma empty_from_labels_yes_branch_witness :
  let first := {| conn_from := None; conn_to := Some "Dashboard";
                  conn_label := None |} in
  let second := {| conn_from := Some "check"; conn_to := Some "Retry";
                   conn_label := None |} in
  let d := _create_flowchart ["Check credentials"] [first; second] in
  from_matches (clean "Check credentials") second = true /\
  In {| node_id := Id "process_0_yes"; node_label := "Dashboard";
        node_kind := Process; node_color := None |} (nodes d).
Proof.
  intros first second d. split; [reflexivity|].
  exact (proj1 (proj2 (empty_from_labels_yes_branch
                         ["Check credentials"] 0 "Check credentials"
                         [] first [second]
                         eq_refl eq_refl (or_introl eq_refl) (Forall_nil _)))).
Defined.

(** *** Connections and the nodes they join *)

Lemma dict_get_set {V : Type} (d : PyDict.dict V) (k : string) (v : V) (k' : string) :
  PyDict.get (PyDict.set d k v) k' =
  if String.eqb k' k then Some v else PyDict.get d k'.
Proof.
  induction d as [|[k0 v0] d IH]; cbn [PyDict.set PyDict.get].
  - reflexivity.
  - destruct (String.eqb_spec k k0) as [->|Hk]; cbn [PyDict.get].
    + destruct (String.eqb_spec k' k0); reflexivity.
    + rewrite IH. destruct (String.eqb_spec k' k0) as [->|Hk'];
        [|reflexivity].
      destruct (String.eqb_spec k0 k); [congruence | reflexivity].
Qed.

Lemma matched_In elements label : matched elements label = true <-> In label elements.
Proof.
  unfold matched. rewrite existsb_exists. split.
  - intros [x [Hx He]]. apply String.eqb_eq in He. now subst.
  - intro H. exists label. split; [exact H | apply String.eqb_refl].
Qed.

Lemma maps_elements_cons element rest before after :
  maps_elements rest (PyDict.set before element (derive_id element)) after ->
  maps_elements (element :: rest) before after.
Proof.
  intros H k. rewrite H, dict_get_set. unfold matched. cbn [existsb].
  destruct (existsb (String.eqb k) rest); [now rewrite orb_true_r|].
  rewrite orb_false_r. destruct (String.eqb_spec k element); congruence.
Qed.

Lemma architecture_components_spec cols elements :
  forall i arch ids,
    let r := architecture_components cols i elements (arch, ids) in
    edges (fst r) = edges arch /\
    node_ids (fst r) = node_ids arch ++ derived_ids elements /\
    maps_elements elements ids (snd r).
Proof.
  induction elements as [|element rest IH]; intros i arch ids;
    cbn [architecture_components].
  - cbn [fst snd derived_ids map]. rewrite app_nil_r. repeat split.
  - cbv zeta. match goal with |- context [architecture_components _ _ _ ?st] =>
      destruct (IH (S i) (fst st) (snd st)) as (He & Hn & Hd) end.
    cbn [fst snd] in *. repeat split.
    + rewrite He. reflexivity.
    + rewrite Hn. unfold arch_component. rewrite node_ids_add_node.
      cbn [node_id derived_ids map]. now rewrite <- app_assoc.
    + apply maps_elements_cons. exact Hd.
Qed.

Lemma sequence_participants_spec elements :
  forall i seq ids,
    let r := sequence_participants i elements (seq, ids) in
    edges (fst r) = edges seq /\
    node_ids (fst r) = node_ids seq ++ derived_ids elements /\
    maps_elements elements ids (snd r).
Proof.
  induction elements as [|element rest IH]; intros i seq ids;
    cbn [sequence_participants].
  - cbn [fst snd derived_ids map]. rewrite app_nil_r. repeat split.
  - cbv zeta. match goal with |- context [sequence_participants _ _ ?st] =>
      destruct (IH (S i) (fst st) (snd st)) as (He & Hn & Hd) end.
    cbn [fst snd] in *. repeat split.
    + rewrite He. reflexivity.
    + rewrite Hn. unfold seq_participant. rewrite node_ids_add_node.
      cbn [node_id derived_ids map]. now rewrite <- app_assoc.
    + apply maps_elements_cons. exact Hd.
Qed.

Lemma er_entities_spec elements :
  forall i er ids,
    let r := er_entities i elements (er, ids) in
    edges (fst r) = edges er /\
    node_ids (fst r) = node_ids er ++ derived_ids elements /\
    maps_elements elements ids (snd r).
Proof.
  induction elements as [|element rest IH]; intros i er ids;
    cbn [er_entities].
  - cbn [fst snd derived_ids map]. rewrite app_nil_r. repeat split.
  - cbv zeta. match goal with |- context [er_entities _ _ ?st] =>
      destruct (IH (S i) (fst st) (snd st)) as (He & Hn & Hd) end.
    cbn [fst snd] in *. repeat split.
    + rewrite He. reflexivity.
    + rewrite Hn. unfold er_entity. rewrite node_ids_add_node.
      cbn [node_id derived_ids map]. now rewrite <- app_assoc.
    + apply maps_elements_cons. exact Hd.
Qed.

Lemma architecture_components_result cols elements i arch ids arch' ids' :
  architecture_components cols i elements (arch, ids) = (arch', ids') ->
  edges arch' = edges arch /\
  node_ids arch' = node_ids arch ++ derived_ids elements /\
  maps_elements elements ids ids'.
Proof.
  intro E. pose proof (architecture_components_spec cols elements i arch ids) as H.
  cbv zeta in H. rewrite E in H. exact H.
Qed.

Lemma sequence_participants_result elements i seq ids seq' ids' :
  sequence_participants i elements (seq, ids) = (seq', ids') ->
  edges seq' = edges seq /\
  node_ids seq' = node_ids seq ++ derived_ids elements /\
  maps_elements elements ids ids'.
Proof.
  intro E. pose proof (sequence_participants_spec elements i seq ids) as H.
  cbv zeta in H. rewrite E in H. exact H.
Qed.

Lemma er_entities_result elements i er ids er' ids' :
  er_entities i elements (er, ids) = (er', ids') ->
  edges er' = edges er /\
  node_ids er' = node_ids er ++ derived_ids elements /\
  maps_elements elements ids ids'.
Proof.
  intro E. pose proof (er_entities_spec elements i er ids) as H.
  cbv zeta in H. rewrite E in H. exact H.
Qed.

(** A loop over the connections whose turn adds the edges [links conn]. *)
Lemma fold_links (step : Diagram -> Connection -> Diagram)
      (links : Connection -> list Edge) :
  (forall d conn, step d conn = fold_left add_edge (links conn) d) ->
  forall connections d,
    nodes (fold_left step connections d) = nodes d /\
    edges (fold_left step connections d) = edges d ++ flat_map links connections.
Proof.
  intros Hstep.
  assert (Hadd : forall l d, nodes (fold_left add_edge l d) = nodes d /\
                             edges (fold_left add_edge l d) = edges d ++ l).
  { induction l as [|e l IH]; intro d; cbn [fold_left].
    - now rewrite app_nil_r.
    - destruct (IH (add_edge d e)) as [Hn He]. rewrite Hn, He.
      cbn [nodes edges add_edge]. now rewrite <- app_assoc. }
  induction connections as [|conn rest IH]; intro d; cbn [fold_left flat_map].
  - now rewrite app_nil_r.
  - destruct (IH (step d conn)) as [Hn He]. rewrite Hn, He, Hstep.
    destruct (Hadd (links conn) d) as [Hn' He']. rewrite Hn', He'.
    now rewrite <- app_assoc.
Qed.

Lemma architecture_connect_links ids d conn :
  architecture_connect ids d conn = fold_left add_edge (id_links "" None ids conn) d.
Proof.
  unfold architecture_connect, id_links.
  destruct (PyDict.get ids _) as [a|]; [|reflexivity].
  destruct (PyDict.get ids _) as [b|]; [|reflexivity].
  destruct (truthy a && truthy b)%bool; reflexivity.
Qed.

Lemma sequence_message_links ids d conn :
  sequence_message ids d conn = fold_left add_edge (id_links "Message" None ids conn) d.
Proof.
  unfold sequence_message, id_links.
  destruct (PyDict.get ids _) as [a|]; [|reflexivity].
  destruct (PyDict.get ids _) as [b|]; [|reflexivity].
  destruct (truthy a && truthy b)%bool; reflexivity.
Qed.

Lemma er_relate_links ids d conn :
  er_relate ids d conn =
  fold_left add_edge (id_links "related to" (Some "1:N") ids conn) d.
Proof.
  unfold er_relate, id_links.
  destruct (PyDict.get ids _) as [a|]; [|reflexivity].
  destruct (PyDict.get ids _) as [b|]; [|reflexivity].
  destruct (truthy a && truthy b)%bool; reflexivity.
Qed.

Lemma truthy_derive_id (s : string) : truthy (derive_id s) = truthy s.
Proof. destruct s; reflexivity. Qed.

Lemma id_links_endpoints elements ids default cardinality conn :
  maps_elements elements [] ids ->
  map endpoints (id_links default cardinality ids conn) = linked_ids elements conn.
Proof.
  intro H. unfold id_links, linked_ids. cbv zeta. rewrite !H. cbn [PyDict.get].
  destruct (matched elements (get_or (conn_from conn) ""));
    destruct (matched elements (get_or (conn_to conn) "")); cbn [andb];
    try reflexivity.
  rewrite !truthy_derive_id.
  destruct (truthy (get_or (conn_from conn) "") && truthy (get_or (conn_to conn) ""))%bool;
    reflexivity.
Qed.

Lemma flat_map_endpoints (links : Connection -> list Edge)
      (ends : Connection -> list (ident * ident)) (connections : list Connection) :
  (forall conn, map endpoints (links conn) = ends conn) ->
  map endpoints (flat_map links connections) = flat_map ends connections.
Proof.
  intro H. induction connections as [|conn rest IH]; cbn [flat_map map].
  - reflexivity.
  - now rewrite map_app, H, IH.
Qed.

Lemma linked_ids_within elements conn p :
  In p (linked_ids elements conn) ->
  In (fst p) (derived_ids elements) /\ In (snd p) (derived_ids elements).
Proof.
  unfold linked_ids. cbv zeta.
  destruct (matched elements (get_or (conn_from conn) "")) eqn:Hf; [|intros []].
  destruct (matched elements (get_or (conn_to conn) "")) eqn:Ht; [|intros []].
  cbn [andb]. destruct (truthy _ && truthy _)%bool; [|intros []].
  intros [<-|[]]. cbn [fst snd]. unfold derived_ids.
  apply matched_In in Hf, Ht.
  split; apply (in_map (fun element => Id (derive_id element))); assumption.
Qed.

(** *** The same for the boxes of the simple builder *)

Lemma last_index_None label elements :
  last_index label elements = None <-> ~ In label elements.
Proof.
  induction elements as [|element rest IH]; cbn [last_index In].
  - tauto.
  - destruct (last_index label rest).
    + split; [discriminate|]. intro H. exfalso. 
      assert (In label rest) by
        (destruct (in_dec string_dec label rest); [assumption | exfalso; apply IH in n0; discriminate]).
      tauto.
    + destruct (String.eqb_spec label element) as [->|Hne].
      * split; [discriminate | tauto].
      * split; [|reflexivity]. intros _ [H|H]; [congruence|].
        now apply IH in H.
Qed.

Lemma last_index_lt label elements j :
  last_index label elements = Some j -> j < List.length elements.
Proof.
  revert j. induction elements as [|element rest IH]; intros j; cbn [last_index].
  - discriminate.
  - destruct (last_index label rest) as [j'|].
    + intros [= <-]. specialize (IH j' eq_refl). cbn. lia.
    + destruct (String.eqb label element); [|discriminate].
      intros [= <-]. cbn. lia.
Qed.

Lemma simple_boxes_spec horizontal elements :
  forall i d boxes,
    let r := simple_boxes horizontal i elements (d, boxes) in
    edges (fst r) = edges d /\
    node_ids (fst r) =
      node_ids d ++ map Anon (seq (List.length (nodes d)) (List.length elements)) /\
    maps_boxes (List.length (nodes d)) elements boxes (snd r).
Proof.
  induction elements as [|element rest IH]; intros i d boxes;
    cbn [simple_boxes].
  - cbn [fst snd List.length seq map]. rewrite app_nil_r. repeat split.
  - cbv zeta. destruct (simple_place horizontal i) as [x y].
    unfold box.
    match goal with |- context [simple_boxes _ _ _ ?st] =>
      destruct (IH (S i) (fst st) (snd st)) as (He & Hn & Hd) end.
    cbn [fst snd] in *. repeat split.
    + rewrite He. reflexivity.
    + rewrite Hn. rewrite node_ids_add_node. cbn [node_id nodes add_node].
      rewrite length_app. cbn [List.length seq map].
      rewrite <- app_assoc. cbn [app].
      now replace (List.length (nodes d) + 1) with (S (List.length (nodes d))) by lia.
    + intro k. rewrite Hd. cbn [nodes add_node last_index].
      rewrite length_app. cbn [List.length].
      destruct (last_index k rest) as [j|].
      * f_equal. f_equal. lia.
      * rewrite dict_get_set. destruct (String.eqb k element); [|reflexivity].
        f_equal. f_equal. lia.
Qed.

Lemma simple_boxes_result horizontal elements i d boxes d' boxes' :
  simple_boxes horizontal i elements (d, boxes) = (d', boxes') ->
  edges d' = edges d /\
  node_ids d' =
    node_ids d ++ map Anon (seq (List.length (nodes d)) (List.length elements)) /\
  maps_boxes (List.length (nodes d)) elements boxes boxes'.
Proof.
  intro E. pose proof (simple_boxes_spec horizontal elements i d boxes) as H.
  cbv zeta in H. rewrite E in H. exact H.
Qed.

Lemma simple_connect_links boxes d conn :
  simple_connect boxes d conn = fold_left add_edge (box_links boxes conn) d.
Proof.
  unfold simple_connect, box_links.
  destruct (PyDict.get boxes _) as [a|]; [|reflexivity].
  destruct (PyDict.get boxes _) as [b|]; reflexivity.
Qed.

Lemma box_links_endpoints elements boxes conn :
  maps_boxes 0 elements [] boxes ->
  map endpoints (box_links boxes conn) = linked_boxes elements conn.
Proof.
  intro H. unfold box_links, linked_boxes. rewrite !H. cbn [PyDict.get].
  destruct (last_index _ elements); [|reflexivity].
  destruct (last_index _ elements); reflexivity.
Qed.

Lemma linked_boxes_within elements conn p :
  In p (linked_boxes elements conn) ->
  In (fst p) (map Anon (seq 0 (List.length elements))) /\
  In (snd p) (map Anon (seq 0 (List.length elements))).
Proof.
  unfold linked_boxes.
  destruct (last_index (get_or (conn_from conn) "") elements) as [a|] eqn:Ha;
    destruct (last_index (get_or (conn_to conn) "") elements) as [b|] eqn:Hb;
    cbn [In]; try tauto.
  intros [<-|[]]. cbn [fst snd].
  apply last_index_lt in Ha, Hb.
  split; apply in_map; apply in_seq; lia.
Qed.

(** *** What each builder makes of the elements and the connections *)

Lemma architecture_shape element rest connections :
  let elements := element :: rest in
  let d := _create_architecture_diagram elements connections in
  node_ids d = derived_ids elements /\
  map endpoints (edges d) = flat_map (linked_ids elements) connections.
Proof.
  cbv zeta. unfold _create_architecture_diagram.
  destruct (architecture_components _ 0 (element :: rest) (empty, []))
    as [arch ids] eqn:E.
  apply architecture_components_result in E. destruct E as (He & Hn & Hd).
  destruct (fold_links _ _ (architecture_connect_links ids) connections arch)
    as [Hn' He'].
  split.
  - unfold node_ids in *. rewrite Hn'. exact Hn.
  - rewrite He', He. cbn [edges empty app].
    apply flat_map_endpoints. intro conn. now apply id_links_endpoints.
Qed.

Lemma er_shape element rest connections :
  let elements := element :: rest in
  let d := _create_er_diagram elements connections in
  node_ids d = derived_ids elements /\
  map endpoints (edges d) = flat_map (linked_ids elements) connections.
Proof.
  cbv zeta. unfold _create_er_diagram.
  destruct (er_entities 0 (element :: rest) (empty, [])) as [er ids] eqn:E.
  apply er_entities_result in E. destruct E as (He & Hn & Hd).
  destruct (fold_links _ _ (er_relate_links ids) connections er) as [Hn' He'].
  split.
  - unfold node_ids in *. rewrite Hn'. exact Hn.
  - rewrite He', He. cbn [edges empty app].
    apply flat_map_endpoints. intro conn. now apply id_links_endpoints.
Qed.

Lemma sequence_shape element rest conn connections :
  let elements := element :: rest in
  let d := _create_sequence_diagram elements (conn :: connections) in
  node_ids d = derived_ids elements /\
  map endpoints (edges d) = flat_map (linked_ids elements) (conn :: connections).
Proof.
  cbv zeta. unfold _create_sequence_diagram.
  destruct (sequence_participants 0 (element :: rest) (empty, []))
    as [seq ids] eqn:E.
  apply sequence_participants_result in E. destruct E as (He & Hn & Hd).
  destruct (fold_links _ _ (sequence_message_links ids) (conn :: connections) seq)
    as [Hn' He'].
  split.
  - unfold node_ids in *. rewrite Hn'. exact Hn.
  - rewrite He', He. cbn [edges empty app].
    apply flat_map_endpoints. intro c. now apply id_links_endpoints.
Qed.

Lemma simple_sequential_cons boxes a b rest d :
  simple_sequential boxes (a :: b :: rest) d =
  simple_sequential boxes (b :: rest) (sequential_link boxes a b d).
Proof. reflexivity. Qed.

Lemma simple_sequential_within boxes ids :
  (forall k v, PyDict.get boxes k = Some v -> In v ids) ->
  forall element_list d,
    nodes (simple_sequential boxes element_list d) = nodes d /\
    (Forall (within ids) (edges d) ->
     Forall (within ids) (edges (simple_sequential boxes element_list d))).
Proof.
  intros Hboxes. induction element_list as [|a rest IH]; intro d.
  - cbn. tauto.
  - destruct rest as [|b rest']; [cbn; tauto|].
    rewrite simple_sequential_cons.
    destruct (IH (sequential_link boxes a b d)) as [Hn Hw].
    rewrite Hn. unfold sequential_link in *. split.
    + destruct (PyDict.get boxes a); [|reflexivity].
      destruct (PyDict.get boxes b); reflexivity.
    + intro H. apply Hw.
      destruct (PyDict.get boxes a) as [x|] eqn:Ha; [|exact H].
      destruct (PyDict.get boxes b) as [y|] eqn:Hb; [|exact H].
      cbn [edges arrow_between add_edge]. apply Forall_app. split; [exact H|].
      repeat constructor; cbn; eauto.
Qed.

Lemma simple_shape element rest connections :
  let elements := element :: rest in
  let d := _create_simple_diagram elements connections in
  node_ids d = box_ids elements /\
  (connections <> [] ->
   map endpoints (edges d) = flat_map (linked_boxes elements) connections) /\
  Forall (within (box_ids elements)) (edges d).
Proof.
  cbv zeta. unfold _create_simple_diagram.
  destruct (simple_boxes _ 0 (element :: rest) (empty, [])) as [d0 boxes] eqn:E.
  apply simple_boxes_result in E. destruct E as (He & Hn & Hd).
  cbn [nodes empty List.length] in Hn, Hd.
  change (node_ids empty) with (@nil ident) in Hn. cbn [app] in Hn.
  destruct (fold_links _ _ (simple_connect_links boxes) connections d0)
    as [Hn' He'].
  assert (Hends : map endpoints (edges (fold_left (simple_connect boxes) connections d0))
                  = flat_map (linked_boxes (element :: rest)) connections).
  { rewrite He', He. cbn [edges empty app].
    apply flat_map_endpoints. intro conn. now apply box_links_endpoints. }
  assert (Hin : Forall (within (box_ids (element :: rest)))
                       (edges (fold_left (simple_connect boxes) connections d0))).
  { apply Forall_forall. intros e Hin.
    apply (in_map endpoints) in Hin. rewrite Hends in Hin.
    apply in_flat_map in Hin. destruct Hin as [conn [_ Hp]].
    apply linked_boxes_within in Hp. exact Hp. }
  assert (Hboxes : forall k v, PyDict.get boxes k = Some v ->
                               In v (box_ids (element :: rest))).
  { intros k v Hk. rewrite Hd in Hk.
    destruct (last_index k (element :: rest)) as [j|] eqn:Hj; [|discriminate].
    injection Hk as <-. apply last_index_lt in Hj.
    apply in_map. apply in_seq. lia. }
  destruct connections as [|conn connections].
  - destruct (simple_sequential_within boxes _ Hboxes (element :: rest)
                (fold_left (simple_connect boxes) [] d0)) as [Hn'' Hw].
    repeat split.
    + unfold node_ids in *. rewrite Hn'', Hn'. exact Hn.
    + congruence.
    + apply Hw. exact Hin.
  - repeat split.
    + unfold node_ids in *. rewrite Hn'. exact Hn.
    + intros _. exact Hends.
    + exact Hin.
Qed.

Lemma closed_of_endpoints (d : Diagram) (ends : list (ident * ident)) :
  map endpoints (edges d) = ends ->
  Forall (fun p => In (fst p) (node_ids d) /\ In (snd p) (node_ids d)) ends ->
  closed d.
Proof.
  intros <- H. rewrite Forall_map in H. exact H.
Qed.

(** C6. Every edge the architecture, simple and ER builders produce has both
    endpoints among the identifiers of the nodes the same builder produced,
    for every list of elements and every list of connections. *)
Theorem no_dangling_edges (elements : list string) (connections : list Connection) :
  closed (_create_architecture_diagram elements connections) /\
  closed (_create_simple_diagram elements connections) /\
  closed (_create_er_diagram elements connections).
Proof.
  destruct elements as [|element rest].
  - repeat split; repeat constructor; cbn; tauto.
  - destruct (architecture_shape element rest connections) as [Hn He].
    destruct (er_shape element rest connections) as [Hn' He'].
    destruct (simple_shape element rest connections) as (Hn'' & _ & Hw).
    repeat split.
    + apply (closed_of_endpoints _ _ He). rewrite Hn.
      apply Forall_flat_map. apply Forall_forall. intros conn _.
      apply Forall_forall. intros p Hp. now apply linked_ids_within in Hp.
    + unfold closed. rewrite Hn''. exact Hw.
    + apply (closed_of_endpoints _ _ He'). rewrite Hn'.
      apply Forall_flat_map. apply Forall_forall. intros conn _.
      apply Forall_forall. intros p Hp. now apply linked_ids_within in Hp.
Qed.

(** C5 (as amended). With at least one element and one connection, the
    architecture, ER, sequence and simple builders make one edge per
    connection whose ["from"] and ["to"] are each equal, character for
    character, to one of the elements (and, for the first three, not empty),
    between the nodes made for those elements and in the order of the
    connections; a connection one of whose labels is not among the elements
    makes no edge. *)
Theorem connections_match_elements (elements : list string)
        (connections : list Connection) :
  elements <> [] -> connections <> [] ->
  map endpoints (edges (_create_architecture_diagram elements connections)) =
    flat_map (linked_ids elements) connections /\
  map endpoints (edges (_create_er_diagram elements connections)) =
    flat_map (linked_ids elements) connections /\
  map endpoints (edges (_create_sequence_diagram elements connections)) =
    flat_map (linked_ids elements) connections /\
  map endpoints (edges (_create_simple_diagram elements connections)) =
    flat_map (linked_boxes elements) connections /\
  (forall conn,
     ~ In (get_or (conn_from conn) "") elements \/
     ~ In (get_or (conn_to conn) "") elements ->
     linked_ids elements conn = [] /\ linked_boxes elements conn = []).
Proof.
  intros Hel Hconn.
  destruct elements as [|element rest]; [congruence|].
  destruct connections as [|conn connections]; [congruence|].
  split; [apply architecture_shape|].
  split; [apply er_shape|].
  split; [apply sequence_shape|].
  split; [apply simple_shape; discriminate|].
  intros c H. split.
  - unfold linked_ids. cbv zeta.
    destruct (matched (element :: rest) (get_or (conn_from c) "")) eqn:Hf;
      [|reflexivity].
    destruct (matched (element :: rest) (get_or (conn_to c) "")) eqn:Ht;
      [|reflexivity].
    apply matched_In in Hf, Ht. tauto.
  - unfold linked_boxes.
    destruct H as [H|H]; apply (proj2 (last_index_None _ _)) in H; rewrite H;
      try reflexivity.
    destruct (last_index (get_or (conn_from c) "") (element :: rest));
      reflexivity.
Qed.

(** Two elements and two connections: the one that spells the elements as
    they are makes an edge, the one in lower case makes none. *)
Lemma connections_match_elements_witness :
  let elements := [ "Frontend"; "Backend" ] in
  let connections :=
    [ connection "frontend" "backend"; connection "Frontend" "Backend" ] in
  map endpoints (edges (_create_architecture_diagram elements connections)) =
    [ (Id "frontend", Id "backend") ] /\
  map endpoints (edges (_create_simple_diagram elements connections)) =
    [ (Anon 0, Anon 1) ].
Proof.
  intros elements connections.
  assert (Hel : elements <> []) by discriminate.
  assert (Hconn : connections <> []) by discriminate.
  destruct (connections_match_elements elements connections Hel Hconn)
    as (Harch & _ & _ & Hsimple & _).
  split; [exact Harch | exact Hsimple].
Defined.

(** C5 as stated fails: both labels of the connection equal, once in lower
    case, the identifiers of the nodes made from the elements, and none of the
    four builders joins them. *)
Lemma connections_match_elements_counterexample :
  let elements := [ "Frontend"; "Backend" ] in
  let conn := connection "frontend" "backend" in
  normalized_match elements "frontend" = true /\
  normalized_match elements "backend" = true /\
  node_ids (_create_architecture_diagram elements [conn]) =
    [ Id "frontend"; Id "backend" ] /\
  edges (_create_architecture_diagram elements [conn]) = [] /\
  edges (_create_er_diagram elements [conn]) = [] /\
  edges (_create_sequence_diagram elements [conn]) = [] /\
  edges (_create_simple_diagram elements [conn]) = [].
Proof. vm_compute. repeat split; reflexivity. Qed.

(** The scenarios of section 8 of the specification. *)
Example architecture_scenario :
  map (fun n => (node_label n, node_kind n, node_color n))
      (nodes (_create_architecture_diagram
                [ "Frontend"; "Backend"; "Database" ] [])) =
  [ ("Frontend", Component 150 100, Some "blue");
    ("Backend", Component 350 100, Some "green");
    ("Database", Component 550 100, Some "orange") ].
Proof. reflexivity. Qed.

Example sequence_default_scenario :
  let d := _create_sequence_diagram [] [] in
  map node_label (nodes d) = [ "User"; "Server" ] /\
  map edge_label (edges d) = [ Some "Request"; Some "Response" ].
Proof. split; reflexivity. Qed.

Example dropped_connection_scenario :
  let connections :=
    [ connection "Frontend" "Backend"; connection "Frontend" "Cache" ] in
  let d := _create_architecture_diagram [ "Frontend"; "Backend" ] connections in
  List.length (edges d) < List.length connections /\ closed d.
Proof.
  split; [vm_compute; lia|].
  repeat constructor; cbn; tauto.
Qed.

(** *** The fallback of the dispatcher *)

(** C4. When the builder chosen for the diagram type raises an exception,
    [generate_diagram_from_analysis] does not propagate it: it prints the
    exception in a warning, builds the diagram again with the simple builder
    on the same elements and connections, and returns that diagram with the
    type "simple" (after saving it; an exception of the simple builder or of
    [save] is the outcome when there is one). *)
Theorem fallback_on_builder_exception
        (create_flowchart create_architecture_diagram create_sequence_diagram
           create_mindmap create_timeline_diagram create_er_diagram
           create_simple_diagram : list string -> list Connection -> outcome Diagram)
        (save : Diagram -> string -> outcome unit)
        (analysis : Analysis) (output_path : string) (e : string) :
  let diagram_type := analysis_diagram_type analysis in
  let elements := analysis_elements analysis in
  let connections :=
    match analysis_connections analysis with Some l => l | None => [] end in
  build create_flowchart create_architecture_diagram create_sequence_diagram
        create_mindmap create_timeline_diagram create_er_diagram
        create_simple_diagram diagram_type elements connections = Raised e ->
  generate_diagram_from_analysis
    create_flowchart create_architecture_diagram create_sequence_diagram
    create_mindmap create_timeline_diagram create_er_diagram
    create_simple_diagram save analysis output_path =
  ( [ "Warning: Failed to create " ++ diagram_type ++ " diagram: " ++ e;
      "Falling back to simple diagram" ],
    match create_simple_diagram elements connections with
    | Returned diagram =>
        match save diagram (output_path ++ ".excalidraw") with
        | Returned _ =>
            Returned {| generated_diagram := diagram;
                        generated_type := "simple";
                        generated_excalidraw_path := output_path ++ ".excalidraw";
                        generated_analysis := analysis |}
        | Raised e' => Raised e'
        end
    | Raised e' => Raised e'
    end )%string.
Proof.
  intros diagram_type elements connections H.
  unfold generate_diagram_from_analysis.
  fold diagram_type elements connections. cbv zeta.
  fold diagram_type elements connections. rewrite H.
  destruct (create_simple_diagram elements connections); reflexivity.
Qed.

(** A flowchart builder that fails in the diagram classes, a destination that
    can be written: the result is the simple diagram of the two elements,
    with the type "simple", and two lines of warning. *)
Lemma fallback_on_builder_exception_witness :
  let failing : list string -> list Connection -> outcome Diagram :=
    fun _ _ => Raised "unknown node" in
  let save : Diagram -> string -> outcome unit := fun _ _ => Returned tt in
  let analysis :=
    {| analysis_diagram_type := "flowchart";
       analysis_elements := [ "Login"; "Dashboard" ];
       analysis_connections := None |} in
  generate_diagram_from_analysis
    failing (returns _create_architecture_diagram)
    (returns _create_sequence_diagram) (returns _create_mindmap)
    (returns _create_timeline_diagram) (returns _create_er_diagram)
    (returns _create_simple_diagram) save analysis "/tmp/diagram" =
  ( [ "Warning: Failed to create flowchart diagram: unknown node";
      "Falling back to simple diagram" ],
    Returned {| generated_diagram :=
                  _create_simple_diagram [ "Login"; "Dashboard" ] [];
                generated_type := "simple";
                generated_excalidraw_path := "/tmp/diagram.excalidraw";
                generated_analysis := analysis |} ).
Proof.
  intros failing save analysis.
  exact (fallback_on_builder_exception
           failing (returns _create_architecture_diagram)
           (returns _create_sequence_diagram) (returns _create_mindmap)
           (returns _create_timeline_diagram) (returns _create_er_diagram)
           (returns _create_simple_diagram) save analysis "/tmp/diagram"
           "unknown node" eq_refl).
Defined.

End GenerateProps.

(* ================================================================== *)
(** ** Further properties of the classifier *)

Module RouterPropsExt.
Import PyStr PyFloat Router ScoreValues RouterSpec RouterSpecExt RouterProps.
Import Re.

Lemma count_search fuel r : forall prev s,
  1 <= count_from fuel r prev s -> search_from r prev s = true.
Proof.
  induction fuel as [|fuel IH]; intros prev s H; [cbn in H; lia|].
  cbn [count_from] in H.
  destruct s as [|c t]; cbn [search_from];
    destruct (match_here r prev _) as [[p' s']|]; try reflexivity.
  - lia.
  - apply IH. exact H.
Qed.

Lemma search_mono r1 r2 :
  (forall prev s, match_here r1 prev s <> None -> match_here r2 prev s <> None) ->
  forall s prev, search_from r1 prev s = true -> search_from r2 prev s = true.
Proof.
  intros Himp. induction s as [|c t IH]; intros prev H; cbn [search_from] in *.
  - specialize (Himp prev []).
    destruct (match_here r1 prev []); [|discriminate].
    destruct (match_here r2 prev []); [reflexivity|]. exfalso. now apply Himp.
  - specialize (Himp prev (c :: t)).
    destruct (match_here r1 prev (c :: t)).
    + destruct (match_here r2 prev (c :: t)); [reflexivity|]. exfalso. now apply Himp.
    + destruct (match_here r2 prev (c :: t)); [reflexivity|]. now apply IH.
Qed.

Lemma literal_digit (d c : ascii) :
  is_digit d = true -> Ascii.eqb d c = true -> is_digit c = true.
Proof. intros Hd E. apply Ascii.eqb_eq in E. now subst. Qed.

Lemma year_is_four_digits yr d4 :
  year_regex = Some yr -> four_digits_regex = Some d4 ->
  forall prev s, match_here yr prev s <> None -> match_here d4 prev s <> None.
Proof.
  intros [= <-] [= <-] prev s.
  unfold match_here. cbn [rx_match item_matches].
  destruct (xorb (prev_is_word prev) (next_is_word s)); [|congruence].
  destruct s as [|c1 [|c2 [|c3 [|c4 s]]]];
    repeat match goal with
           | |- context [Ascii.eqb ?a ?c] =>
               let E := fresh "E" in
               destruct (Ascii.eqb a c) eqn:E;
               [try rewrite (literal_digit a c eq_refl E)|]
           end;
    repeat match goal with
           | |- context [if ?b then _ else _] => destruct b
           end;
    congruence.
Qed.

Lemma compile_year : Re.compile "\b(19|20)\d{2}\b" = year_regex.
Proof. vm_compute. reflexivity. Qed.

Lemma compile_four_digits : Re.compile "\b\d{4}\b" = four_digits_regex.
Proof. vm_compute. reflexivity. Qed.

(** A text with a year of the form 19dd or 20dd matches the first pattern
    of the timeline list. *)
Lemma year_found (text : string) :
  1 <= timeline_years text -> Re.search "\b\d{4}\b" text = true.
Proof.
  unfold timeline_years, findall_count, search.
  rewrite compile_year, compile_four_digits.
  destruct year_regex as [yr|] eqn:Ey; [|cbn; lia].
  destruct four_digits_regex as [d4|] eqn:Ed; [|discriminate].
  intro H. apply count_search in H.
  revert H. apply search_mono. now apply (year_is_four_digits yr d4).
Qed.

Local Open Scope float_scope.

Lemma hits_in_sums_from (w : float) (f : string -> bool) (items : list string)
      (lo : nat) :
  lo <= List.length (filter f items) ->
  In (py_sum (map (fun _ => w) (filter f items)))
     (sums_from w lo (List.length items)).
Proof.
  intro H. rewrite map_const_repeat. unfold sums_from.
  apply in_map_iff. exists (List.length (filter f items)). split; [reflexivity|].
  apply in_seq. pose proof (filter_length_le f items). lia.
Qed.

Lemma signal_between wk keywords klo wp patterns plo bonuses text bonus :
  klo <= List.length (filter (fun k => contains k text) keywords) ->
  plo <= List.length (filter (fun p => Re.search p text) patterns) ->
  In bonus bonuses ->
  In (py_min (apply_bonus bonus (keyword_score wk keywords text +
                                 pattern_score wp patterns text)) 1.0)
     (values_between wk keywords klo wp patterns plo bonuses).
Proof.
  intros Hk Hp Hbonus. unfold values_between.
  apply in_flat_map. eexists. split; [apply hits_in_sums_from; exact Hk|].
  apply in_flat_map. eexists. split; [apply hits_in_sums_from; exact Hp|].
  apply in_map_iff. exists bonus. split; [reflexivity | exact Hbonus].
Qed.

Lemma filter_hit {A : Type} (f : A -> bool) (l : list A) (x : A) :
  In x l -> f x = true -> 1 <= List.length (filter f l).
Proof.
  intros Hx Hf.
  assert (H : In x (filter f l)) by (apply filter_In; split; assumption).
  destruct (filter f l); [destruct H | cbn; lia].
Qed.

Lemma winners_ok : forallb winner_ok distinct_values = true.
Proof. vm_compute. reflexivity. Qed.

Lemma threshold_value : In 0.2 distinct_values.
Proof. vm_compute. find_value. Qed.

Lemma mindmap_keyword_ok : dominated_ok 0.2 mindmap_keyword_values = true.
Proof. vm_compute. reflexivity. Qed.

Lemma timeline_keyword_ok : dominated_ok 0.2 timeline_keyword_values = true.
Proof. vm_compute. reflexivity. Qed.

Lemma er_keyword_ok : dominated_ok 0.2 er_keyword_values = true.
Proof. vm_compute. reflexivity. Qed.

Lemma two_years_ok : dominated_ok 0.45 two_year_values = true.
Proof. vm_compute. reflexivity. Qed.

Lemma three_years_ok : dominated_ok 0.65 three_year_values = true.
Proof. vm_compute. reflexivity. Qed.

Section SixScoresExt.
Variables s1 s2 s3 s4 s5 s6 : float.
Hypothesis values : Forall (fun p => In (snd p) score_values) (six_scores s1 s2 s3 s4 s5 s6).

Lemma six_values : Forall (fun x => In x score_values) [s1; s2; s3; s4; s5; s6].
Proof.
  rewrite Forall_forall in values. unfold six_scores in values.
  repeat (apply Forall_cons;
          [match goal with
           | |- In ?s _ =>
               match type of values with
               | context [(?k, s)] => apply (values (k, s)); simpl; tauto
               end
           end|]).
  apply Forall_nil.
Qed.

Lemma best_value :
  let d := six_scores s1 s2 s3 s4 s5 s6 in
  In (get d (max_key d)) distinct_values.
Proof.
  intro d. apply value_distinct.
  rewrite Forall_forall in values.
  exact (values _ (best_member s1 s2 s3 s4 s5 s6)).
Qed.

Lemma score_value (a : archetype) :
  let d := six_scores s1 s2 s3 s4 s5 s6 in
  In a (map fst d) -> In (get d a) distinct_values.
Proof.
  intros d Ha. apply value_distinct.
  pose proof six_values as V. rewrite Forall_forall in V.
  apply V. unfold d, six_scores in *. cbn in Ha.
  destruct Ha as [<-|[<-|[<-|[<-|[<-|[<-|[]]]]]]]; cbn; tauto.
Qed.

(** When the highest score is below the threshold, so is every score. *)
Lemma below_threshold_all :
  let d := six_scores s1 s2 s3 s4 s5 s6 in
  (get d (max_key d) <? 0.2) = true ->
  Forall (fun p => (snd p <? 0.2) = true) d.
Proof.
  intros d H. apply Forall_forall. intros [a x] Hin.
  assert (Ha : In a (map fst d)) by (apply (in_map fst) in Hin; exact Hin).
  assert (Hx : x = get d a).
  { unfold d, six_scores in *. cbn in Hin.
    destruct Hin as [E|[E|[E|[E|[E|[E|[]]]]]]]; injection E as <- <-; reflexivity. }
  subst x. cbn [snd].
  destruct (max_key_spec s1 s2 s3 s4 s5 s6 six_values a Ha) as [Hle _].
  fold d in Hle.
  pose proof (score_value a Ha) as Va. pose proof best_value as Vb.
  fold d in Va. cbv zeta in Vb. fold d in Vb.
  destruct (compare_keyed _ values_compare _ _ Va Vb) as (_ & E1 & _).
  destruct (compare_keyed _ values_compare _ _ Vb threshold_value) as (E2 & _).
  destruct (compare_keyed _ values_compare _ _ Va threshold_value) as (E3 & _).
  rewrite E1 in Hle. rewrite E2 in H. rewrite E3.
  apply Z.leb_le in Hle. apply Z.ltb_lt in H. apply Z.ltb_lt. lia.
Qed.

(** When one score is among [l] and whatever is at least a score of [l]
    rounds to at least [c], the highest score reaches the threshold and
    rounds to at least [c]. *)
Lemma winner_dominates (a : archetype) (c : float) (l : list float) :
  let d := six_scores s1 s2 s3 s4 s5 s6 in
  In a (map fst d) -> In (get d a) l -> dominated_ok c l = true ->
  (get d (max_key d) <? 0.2) = false /\
  (c <=? py_round2 (py_min (get d (max_key d)) 1.0)) = true.
Proof.
  intros d Ha Hl Hok.
  destruct (max_key_spec s1 s2 s3 s4 s5 s6 six_values a Ha) as [Hle _].
  fold d in Hle. pose proof best_value as Vb. cbv zeta in Vb. fold d in Vb.
  unfold dominated_ok in Hok. rewrite forallb_forall in Hok.
  specialize (Hok _ Hl). rewrite forallb_forall in Hok.
  specialize (Hok _ Vb). rewrite Hle in Hok. cbn [implb] in Hok.
  apply andb_prop in Hok. destruct Hok as [H1 H2].
  apply negb_true_iff in H1. split; assumption.
Qed.

End SixScoresExt.

Ltac abstract_scores text :=
  generalize (_score_flowchart (lower text)) (_score_architecture (lower text))
             (_score_sequence (lower text)) (_score_mindmap (lower text))
             (_score_timeline (lower text)) (_score_er (lower text)).

(** X1. [detect_type] answers "simple" exactly when each of the six scores
    is below 0.2. *)
Theorem detect_type_simple_iff (text : string) :
  diagram_type (detect_type text) = Simple <->
  Forall (fun p => (snd p <? 0.2) = true) (scores (lower text)).
Proof.
  pose proof (scores_in_values (lower text)) as V.
  unfold detect_type. cbv zeta. revert V. unfold scores.
  abstract_scores text. intros s1 s2 s3 s4 s5 s6 V.
  change [(Flowchart, s1); (Architecture, s2); (Sequence, s3);
          (Mindmap, s4); (Timeline, s5); (Er, s6)]
    with (six_scores s1 s2 s3 s4 s5 s6) in *.
  set (d := six_scores s1 s2 s3 s4 s5 s6) in *.
  destruct (get d (max_key d) <? 0.2) eqn:Hlow; cbn [diagram_type].
  - split; [intros _ | reflexivity].
    exact (below_threshold_all s1 s2 s3 s4 s5 s6 V Hlow).
  - split.
    + intro E. pose proof (best_in_order s1 s2 s3 s4 s5 s6) as O.
      fold d in O. rewrite E in O. cbn in O. intuition discriminate.
    + intro H. rewrite Forall_forall in H.
      pose proof (H _ (best_member s1 s2 s3 s4 s5 s6)) as B.
      cbn [snd] in B. fold d in B. congruence.
Qed.

(** X2. When [detect_type] does not answer "simple", the confidence is the
    score of the archetype it returns, rounded to two decimals (the [min] of
    the last line changes nothing), it is at least 0.2, and the reasoning is
    the sentence of that archetype. *)
Theorem detect_type_winner (text : string) :
  let r := detect_type text in
  diagram_type r <> Simple ->
  confidence r = py_round2 (get (scores (lower text)) (diagram_type r)) /\
  (0.2 <=? confidence r) = true /\
  reasoning r = reasons (diagram_type r).
Proof.
  pose proof (scores_in_values (lower text)) as V.
  unfold detect_type. cbv zeta. revert V. unfold scores.
  abstract_scores text. intros s1 s2 s3 s4 s5 s6 V.
  change [(Flowchart, s1); (Architecture, s2); (Sequence, s3);
          (Mindmap, s4); (Timeline, s5); (Er, s6)]
    with (six_scores s1 s2 s3 s4 s5 s6) in *.
  pose proof (best_value s1 s2 s3 s4 s5 s6 V) as Vb. cbv zeta in Vb.
  set (b := max_key (six_scores s1 s2 s3 s4 s5 s6)) in *.
  set (x := get (six_scores s1 s2 s3 s4 s5 s6) b) in *.
  destruct (x <? 0.2) eqn:Hlow; cbn [diagram_type confidence reasoning].
  - congruence.
  - intros _. fold x.
    pose proof (proj1 (forallb_forall _ _) winners_ok x Vb) as W.
    unfold winner_ok in W. rewrite Hlow in W. cbn [orb] in W.
    apply andb_prop in W. destruct W as [W1 W2].
    apply negb_true_iff in W1.
    unfold py_min. rewrite W1. repeat split. exact W2.
Qed.

Lemma detect_type_winner_witness :
  let text := "Frontend calls backend API, backend queries database" in
  diagram_type (detect_type text) = Architecture /\
  confidence (detect_type text) = 1.0 /\
  reasoning (detect_type text) = "Detected system components, services, or layers".
Proof.
  intro text.
  assert (T : diagram_type (detect_type text) = Architecture)
    by (vm_compute; reflexivity).
  assert (N : diagram_type (detect_type text) <> Simple)
    by (rewrite T; discriminate).
  destruct (detect_type_winner text N) as (C & _ & R).
  split; [exact T|]. split.
  - rewrite C, T. vm_compute. reflexivity.
  - rewrite R, T. reflexivity.
Defined.

Lemma lower_same (t1 t2 : string) :
  same_up_to_case t1 t2 -> lower t1 = lower t2.
Proof.
  unfold same_up_to_case, lower. intro H. f_equal.
  induction H as [|a b l1 l2 Hab _ IH]; cbn [map]; [reflexivity|].
  now rewrite Hab, IH.
Qed.

(** X3. The classification does not depend on the case of the letters: two
    texts that differ only by case get the same result. *)
Theorem detect_type_ignores_case (t1 t2 : string) :
  same_up_to_case t1 t2 -> detect_type t1 = detect_type t2.
Proof.
  intro H. apply lower_same in H. unfold detect_type. now rewrite H.
Qed.

Lemma detect_type_ignores_case_witness :
  detect_type "IF VALID THEN SHOW, ELSE RETRY" =
  detect_type "if valid then show, else retry".
Proof.
  apply detect_type_ignores_case.
  repeat (apply Forall2_cons; [reflexivity|]). apply Forall2_nil.
Defined.

(** The result when one score is known to be in a list whose values all
    carry the highest score to a confidence of at least [c]. *)
Lemma detect_type_dominated (text : string) (a : archetype) (c : float)
      (l : list float) :
  In a [Flowchart; Architecture; Sequence; Mindmap; Timeline; Er] ->
  In (get (scores (lower text)) a) l -> dominated_ok c l = true ->
  diagram_type (detect_type text) <> Simple /\
  (c <=? confidence (detect_type text)) = true.
Proof.
  pose proof (scores_in_values (lower text)) as V.
  unfold detect_type. cbv zeta. revert V. unfold scores.
  abstract_scores text. intros s1 s2 s3 s4 s5 s6 V Ha Hl Hok.
  change [(Flowchart, s1); (Architecture, s2); (Sequence, s3);
          (Mindmap, s4); (Timeline, s5); (Er, s6)]
    with (six_scores s1 s2 s3 s4 s5 s6) in *.
  destruct (winner_dominates s1 s2 s3 s4 s5 s6 V a c l Ha Hl Hok) as [H1 H2].
  rewrite H1. cbn [diagram_type confidence]. split; [|exact H2].
  pose proof (best_in_order s1 s2 s3 s4 s5 s6) as O.
  intro E. rewrite E in O. cbn in O. intuition discriminate.
Qed.

Lemma score_timeline_years (text : string) :
  2 <= timeline_years text ->
  In (_score_timeline text)
     (if Nat.leb 3 (timeline_years text) then three_year_values
      else two_year_values).
Proof.
  intro H.
  assert (Hp : 1 <= List.length (filter (fun p => Re.search p text) timeline_patterns)).
  { apply (filter_hit _ _ "\b\d{4}\b"); [left; reflexivity|].
    apply year_found. lia. }
  unfold _score_timeline, timeline_signals. cbv zeta. rewrite bonus_if2.
  destruct (Nat.leb 3 (timeline_years text)) eqn:E3.
  - apply signal_between; [lia | exact Hp | left; reflexivity].
  - assert (E2 : Nat.leb 2 (timeline_years text) = true) by (apply Nat.leb_le; lia).
    rewrite E2. apply signal_between; [lia | exact Hp | left; reflexivity].
Qed.

(** X4. A text with two year tokens of the form 19dd or 20dd is never
    classified as simple and gets a confidence of at least 0.45; with three
    or more, of at least 0.65: the bonus of the years always comes with the
    0.25 of the four-digit pattern. *)
Theorem detect_type_years_confidence (text : string) :
  let years := timeline_years (lower text) in
  2 <= years ->
  diagram_type (detect_type text) <> Simple /\
  (years_confidence years <=? confidence (detect_type text)) = true.
Proof.
  intros years H. pose proof (score_timeline_years (lower text) H) as Hin.
  fold years in Hin. unfold years_confidence.
  destruct (Nat.leb 3 years).
  - apply (detect_type_dominated text Timeline 0.65 three_year_values);
      [simpl; tauto | exact Hin | exact three_years_ok].
  - apply (detect_type_dominated text Timeline 0.45 two_year_values);
      [simpl; tauto | exact Hin | exact two_years_ok].
Qed.

Lemma detect_type_years_confidence_witness :
  let text := "Versions of 2019 and 2021" in
  timeline_years (lower text) = 2%nat /\
  diagram_type (detect_type text) <> Simple /\
  (0.45 <=? confidence (detect_type text)) = true.
Proof.
  intro text.
  assert (Y : timeline_years (lower text) = 2%nat) by (vm_compute; reflexivity).
  assert (H : 2 <= timeline_years (lower text)) by (rewrite Y; lia).
  split; [exact Y|].
  pose proof (detect_type_years_confidence text H) as R.
  cbv zeta in R. rewrite Y in R. exact R.
Defined.

Lemma keyword_score_in (text : string) (k : string) (keywords : list string)
      (wp : float) (patterns : list string) (bonuses : list (option float))
      (bonus : option float) :
  In k keywords -> contains k text = true -> In bonus bonuses ->
  In (py_min (apply_bonus bonus (keyword_score 0.2 keywords text +
                                 pattern_score wp patterns text)) 1.0)
     (values_between 0.2 keywords 1 wp patterns 0 bonuses).
Proof.
  intros Hk Hc Hb. apply signal_between; [|lia|exact Hb].
  exact (filter_hit (fun k => contains k text) keywords k Hk Hc).
Qed.

(** X5. One keyword of the mind-map, timeline or ER list in the text is
    enough for a result other than "simple", with a confidence of at least
    0.2: their keywords weigh 0.2, the threshold itself. *)
Theorem detect_type_keyword (text k : string) :
  In k (mindmap_keywords ++ timeline_keywords ++ er_keywords) ->
  contains k (lower text) = true ->
  diagram_type (detect_type text) <> Simple /\
  (0.2 <=? confidence (detect_type text)) = true.
Proof.
  intros Hk Hc. apply in_app_or in Hk. destruct Hk as [Hk|Hk];
    [|apply in_app_or in Hk; destruct Hk as [Hk|Hk]].
  - apply (detect_type_dominated text Mindmap 0.2 mindmap_keyword_values);
      [simpl; tauto | | exact mindmap_keyword_ok].
    change (get (scores (lower text)) Mindmap) with (_score_mindmap (lower text)).
    unfold _score_mindmap. cbv zeta. rewrite bonus_if.
    apply (keyword_score_in _ k); try assumption.
    destruct (Nat.leb 2 _); [right; left | left]; reflexivity.
  - apply (detect_type_dominated text Timeline 0.2 timeline_keyword_values);
      [simpl; tauto | | exact timeline_keyword_ok].
    change (get (scores (lower text)) Timeline) with (_score_timeline (lower text)).
    unfold _score_timeline, timeline_signals. cbv zeta. rewrite bonus_if2.
    apply (keyword_score_in _ k); try assumption.
    destruct (Nat.leb 3 _); [right; right; left; reflexivity|].
    destruct (Nat.leb 2 _); [right; left | left]; reflexivity.
  - apply (detect_type_dominated text Er 0.2 er_keyword_values);
      [simpl; tauto | | exact er_keyword_ok].
    change (get (scores (lower text)) Er) with (_score_er (lower text)).
    unfold _score_er. cbv zeta. rewrite bonus_if.
    apply (keyword_score_in _ k); try assumption.
    destruct (Nat.leb 2 _); [right; left | left]; reflexivity.
Qed.

Lemma detect_type_keyword_witness :
  diagram_type (detect_type "A short History") <> Simple /\
  (0.2 <=? confidence (detect_type "A short History")) = true.
Proof.
  apply (detect_type_keyword "A short History" "history").
  - apply in_or_app. right. apply in_or_app. left. simpl. tauto.
  - reflexivity.
Defined.

End RouterPropsExt.

(* ================================================================== *)
(** ** Further properties of the builders and of the dispatcher *)

Module GeneratePropsExt.
Import PyStr Excalidraw Generate GenerateSpec GenerateSpecExt GenerateProps.

Lemma enumerate_from_cons {A : Type} (i : nat) (x : A) (l : list A) :
  enumerate_from i (x :: l) = (i, x) :: enumerate_from (S i) l.
Proof. reflexivity. Qed.

Lemma enumerate_from_length {A : Type} (i : nat) (l : list A) :
  List.length (enumerate_from i l) = List.length l.
Proof.
  unfold enumerate_from. rewrite length_combine, length_seq. lia.
Qed.

Lemma enumerate_from_fst {A : Type} (i : nat) (l : list A) :
  map fst (enumerate_from i l) = seq i (List.length l).
Proof.
  revert i. induction l as [|x l IH]; intro i; [reflexivity|].
  rewrite enumerate_from_cons. cbn [map fst List.length seq]. now rewrite IH.
Qed.

Lemma enumerate_from_snd {A : Type} (i : nat) (l : list A) :
  map snd (enumerate_from i l) = l.
Proof.
  revert i. induction l as [|x l IH]; intro i; [reflexivity|].
  rewrite enumerate_from_cons. cbn [map snd]. now rewrite IH.
Qed.

Lemma architecture_components_nodes cols elements :
  forall i arch ids,
    nodes (fst (architecture_components cols i elements (arch, ids))) =
    nodes arch ++ map (architecture_node cols) (enumerate_from i elements).
Proof.
  induction elements as [|element rest IH]; intros i arch ids;
    cbn [architecture_components].
  - cbn. now rewrite app_nil_r.
  - cbv zeta. rewrite IH, enumerate_from_cons.
    cbn [map nodes arch_component add_node]. now rewrite <- app_assoc.
Qed.

Lemma sequence_participants_nodes elements :
  forall i seq ids,
    nodes (fst (sequence_participants i elements (seq, ids))) =
    nodes seq ++ map sequence_node (enumerate_from i elements).
Proof.
  induction elements as [|element rest IH]; intros i seq ids;
    cbn [sequence_participants].
  - cbn. now rewrite app_nil_r.
  - cbv zeta. rewrite IH, enumerate_from_cons.
    cbn [map nodes seq_participant add_node]. now rewrite <- app_assoc.
Qed.

Lemma er_entities_nodes elements :
  forall i er ids,
    nodes (fst (er_entities i elements (er, ids))) =
    nodes er ++ map er_node (enumerate_from i elements).
Proof.
  induction elements as [|element rest IH]; intros i er ids;
    cbn [er_entities].
  - cbn. now rewrite app_nil_r.
  - cbv zeta. rewrite IH, enumerate_from_cons.
    cbn [map nodes er_entity add_node]. now rewrite <- app_assoc.
Qed.

Lemma simple_boxes_nodes horizontal elements :
  forall i d boxes,
    List.length (nodes d) = i ->
    nodes (fst (simple_boxes horizontal i elements (d, boxes))) =
    nodes d ++ map (simple_node horizontal) (enumerate_from i elements).
Proof.
  induction elements as [|element rest IH]; intros i d boxes Hi;
    cbn [simple_boxes].
  - cbn. now rewrite app_nil_r.
  - cbv zeta. destruct (simple_place horizontal i) as [x y] eqn:E.
    unfold box. rewrite IH.
    + rewrite enumerate_from_cons. cbn [map nodes add_node simple_node].
      rewrite E, Hi. cbn [fst snd]. now rewrite <- app_assoc.
    + cbn [nodes add_node]. rewrite length_app. cbn. lia.
Qed.

Lemma architecture_components_made cols elements i arch ids arch' ids' :
  architecture_components cols i elements (arch, ids) = (arch', ids') ->
  nodes arch' = nodes arch ++ map (architecture_node cols) (enumerate_from i elements).
Proof.
  intro E. pose proof (architecture_components_nodes cols elements i arch ids) as H.
  rewrite E in H. exact H.
Qed.

Lemma sequence_participants_made elements i seq ids seq' ids' :
  sequence_participants i elements (seq, ids) = (seq', ids') ->
  nodes seq' = nodes seq ++ map sequence_node (enumerate_from i elements).
Proof.
  intro E. pose proof (sequence_participants_nodes elements i seq ids) as H.
  rewrite E in H. exact H.
Qed.

Lemma er_entities_made elements i er ids er' ids' :
  er_entities i elements (er, ids) = (er', ids') ->
  nodes er' = nodes er ++ map er_node (enumerate_from i elements).
Proof.
  intro E. pose proof (er_entities_nodes elements i er ids) as H.
  rewrite E in H. exact H.
Qed.

Lemma simple_boxes_made horizontal elements i d boxes d' boxes' :
  List.length (nodes d) = i ->
  simple_boxes horizontal i elements (d, boxes) = (d', boxes') ->
  nodes d' = nodes d ++ map (simple_node horizontal) (enumerate_from i elements).
Proof.
  intros Hi E.
  pose proof (simple_boxes_nodes horizontal elements i d boxes Hi) as H.
  rewrite E in H. exact H.
Qed.

(** The nodes of the four builders that take connections, for at least one
    element: one node per element, in the order of the elements. *)
Lemma architecture_nodes element rest connections :
  let elements := element :: rest in
  nodes (_create_architecture_diagram elements connections) =
  map (architecture_node (Nat.min (List.length elements) 4))
      (enumerate_from 0 elements).
Proof.
  cbv zeta. unfold _create_architecture_diagram.
  destruct (architecture_components _ 0 (element :: rest) (empty, []))
    as [arch ids] eqn:E.
  apply architecture_components_made in E.
  destruct (fold_links _ _ (architecture_connect_links ids) connections arch)
    as [Hn _].
  rewrite Hn, E. reflexivity.
Qed.

Lemma er_nodes element rest connections :
  let elements := element :: rest in
  nodes (_create_er_diagram elements connections) =
  map er_node (enumerate_from 0 elements).
Proof.
  cbv zeta. unfold _create_er_diagram.
  destruct (er_entities 0 (element :: rest) (empty, [])) as [er ids] eqn:E.
  apply er_entities_made in E.
  destruct (fold_links _ _ (er_relate_links ids) connections er) as [Hn _].
  rewrite Hn, E. reflexivity.
Qed.

Lemma sequence_default_flow_nodes ids :
  forall i seq, nodes (sequence_default_flow i ids seq) = nodes seq.
Proof.
  induction ids as [|a rest IH]; intros i seq; [reflexivity|].
  destruct rest as [|b rest']; [reflexivity|].
  change (sequence_default_flow i (a :: b :: rest') seq)
    with (sequence_default_flow (S i) (b :: rest')
            (seq_message seq a b ("Step " ++ of_nat (i + 1)))).
  now rewrite IH.
Qed.

Lemma sequence_nodes element rest connections :
  let elements := element :: rest in
  nodes (_create_sequence_diagram elements connections) =
  map sequence_node (enumerate_from 0 elements).
Proof.
  cbv zeta. unfold _create_sequence_diagram.
  destruct (sequence_participants 0 (element :: rest) (empty, []))
    as [seq ids] eqn:E.
  apply sequence_participants_made in E.
  destruct connections as [|conn connections].
  - rewrite sequence_default_flow_nodes. exact E.
  - destruct (fold_links _ _ (sequence_message_links ids) (conn :: connections) seq)
      as [Hn _].
    rewrite Hn, E. reflexivity.
Qed.

Lemma simple_sequential_nodes boxes element_list :
  forall d, nodes (simple_sequential boxes element_list d) = nodes d.
Proof.
  induction element_list as [|a rest IH]; intro d; [reflexivity|].
  destruct rest as [|b rest']; [reflexivity|].
  rewrite simple_sequential_cons, IH. unfold sequential_link.
  destruct (PyDict.get boxes a); [|reflexivity].
  destruct (PyDict.get boxes b); reflexivity.
Qed.

Lemma simple_nodes element rest connections :
  let elements := element :: rest in
  nodes (_create_simple_diagram elements connections) =
  map (simple_node (Nat.leb (List.length elements) 4))
      (enumerate_from 0 elements).
Proof.
  cbv zeta. unfold _create_simple_diagram.
  destruct (simple_boxes _ 0 (element :: rest) (empty, [])) as [d0 boxes] eqn:E.
  apply simple_boxes_made in E; [|reflexivity].
  destruct (fold_links _ _ (simple_connect_links boxes) connections d0) as [Hn _].
  destruct connections as [|conn connections].
  - rewrite simple_sequential_nodes. exact E.
  - rewrite Hn. exact E.
Qed.

Lemma NoDup_map_in {A B : Type} (f : A -> B) (l : list A) :
  NoDup l -> (forall x y, In x l -> In y l -> f x = f y -> x = y) ->
  NoDup (map f l).
Proof.
  induction 1 as [|a l Ha Hl IH]; intro Hinj; cbn [map]; constructor.
  - intro Hin. apply in_map_iff in Hin. destruct Hin as [y [Hy Hin]].
    apply Ha. rewrite (Hinj a y); [exact Hin | left; reflexivity
                                  | right; exact Hin | now rewrite Hy].
  - apply IH. intros x y Hx Hy. apply Hinj; right; assumption.
Qed.

Lemma map_enumerate {A B : Type} (f : nat -> B) (i : nat) (l : list A) :
  map (fun p => f (fst p)) (enumerate_from i l) = map f (seq i (List.length l)).
Proof.
  rewrite <- (enumerate_from_fst i l), map_map. reflexivity.
Qed.

Lemma map_enumerate_snd {A B : Type} (f : A -> B) (i : nat) (l : list A) :
  map (fun p => f (snd p)) (enumerate_from i l) = map f l.
Proof.
  rewrite <- (enumerate_from_snd i l) at 2. rewrite map_map. reflexivity.
Qed.

(** X6. For at least one element, the architecture, sequence, ER and simple
    builders make exactly one node per element, in the order of the
    elements: the first three label it with the element in title case, the
    simple builder with the element as it is. *)
Theorem one_node_per_element (element : string) (rest : list string)
        (connections : list Connection) :
  let elements := element :: rest in
  map node_label (nodes (_create_architecture_diagram elements connections)) =
    map title elements /\
  map node_label (nodes (_create_sequence_diagram elements connections)) =
    map title elements /\
  map node_label (nodes (_create_er_diagram elements connections)) =
    map title elements /\
  map node_label (nodes (_create_simple_diagram elements connections)) =
    elements.
Proof.
  cbv zeta.
  rewrite architecture_nodes, sequence_nodes, er_nodes, simple_nodes.
  rewrite !map_map.
  repeat split.
  - rewrite <- (map_enumerate_snd title 0 (element :: rest)).
    apply map_ext. intros [i e]. reflexivity.
  - rewrite <- (map_enumerate_snd title 0 (element :: rest)).
    apply map_ext. intros [i e]. reflexivity.
  - rewrite <- (map_enumerate_snd title 0 (element :: rest)).
    apply map_ext. intros [i e]. reflexivity.
  - rewrite <- (enumerate_from_snd 0 (element :: rest)) at 2.
    apply map_ext. intros [i e]. reflexivity.
Qed.

Lemma architecture_place_inj cols i j :
  0 < cols -> architecture_place cols i = architecture_place cols j -> i = j.
Proof.
  unfold architecture_place. intros Hc H.
  apply pair_equal_spec in H. destruct H as [Hx Hy].
  assert (Hm : i mod cols = j mod cols)
    by (revert Hx; generalize (i mod cols), (j mod cols); lia).
  assert (Hd : i / cols = j / cols)
    by (revert Hy; generalize (i / cols), (j / cols); lia).
  rewrite (Nat.div_mod_eq i cols), (Nat.div_mod_eq j cols). now rewrite Hm, Hd.
Qed.

(** X7. The architecture builder lays the components on a grid of at most
    four columns: the element at position [i] of [n] is at column
    [i mod min(n, 4)] and row [i / min(n, 4)], 200 apart from 150 and 150
    apart from 100; no two components are at the same place and none is
    further right than 750. *)
Theorem architecture_grid (element : string) (rest : list string)
        (connections : list Connection) :
  let elements := element :: rest in
  let n := List.length elements in
  let d := _create_architecture_diagram elements connections in
  map placed_at (nodes d) =
    map (fun i => Some (architecture_place (Nat.min n 4) i)) (seq 0 n) /\
  NoDup (map placed_at (nodes d)) /\
  Forall (fun p => exists x y, p = Some (x, y) /\
                               (150 <= x <= 750)%Z /\ (100 <= y)%Z)
         (map placed_at (nodes d)).
Proof.
  intros elements n d.
  assert (Hc : 0 < Nat.min n 4) by (subst n elements; cbn [List.length]; lia).
  assert (E : map placed_at (nodes d) =
              map (fun i => Some (architecture_place (Nat.min n 4) i)) (seq 0 n)).
  { unfold d. subst n elements. rewrite architecture_nodes, map_map.
    rewrite <- (map_enumerate (fun i => Some (architecture_place _ i))
                             0 (element :: rest)).
    apply map_ext. intros [i e]. reflexivity. }
  rewrite E. split; [reflexivity|]. split.
  - apply NoDup_map_in; [apply seq_NoDup|].
    intros i j _ _ H. apply (architecture_place_inj _ _ _ Hc).
    congruence.
  - apply Forall_forall. intros p Hp. apply in_map_iff in Hp.
    destruct Hp as [i [<- _]]. unfold architecture_place.
    eexists. eexists. split; [reflexivity|].
    pose proof (Nat.mod_upper_bound i (Nat.min n 4)). lia.
Qed.

Lemma simple_place_inj horizontal i j :
  simple_place horizontal i = simple_place horizontal j -> i = j.
Proof.
  unfold simple_place. intro H.
  destruct horizontal; apply pair_equal_spec in H; destruct H as [Hx Hy];
    [lia|].
  assert (Hm : i mod 3 = j mod 3)
    by (revert Hx; generalize (i mod 3), (j mod 3); lia).
  assert (Hd : i / 3 = j / 3)
    by (revert Hy; generalize (i / 3), (j / 3); lia).
  rewrite (Nat.div_mod_eq i 3), (Nat.div_mod_eq j 3). now rewrite Hm, Hd.
Qed.

(** X8. The simple builder puts up to four elements in one row (y = 150,
    200 apart from x = 100) and more than four in three columns (rows 120
    apart from y = 100); no two boxes are at the same place. *)
Theorem simple_layout (element : string) (rest : list string)
        (connections : list Connection) :
  let elements := element :: rest in
  let n := List.length elements in
  let d := _create_simple_diagram elements connections in
  map placed_at (nodes d) =
    map (fun i => Some (if Nat.leb n 4
                        then ((100 + Z.of_nat i * 200)%Z, 150%Z)
                        else ((100 + Z.of_nat (i mod 3) * 200)%Z,
                              (100 + Z.of_nat (i / 3) * 120)%Z)))
        (seq 0 n) /\
  NoDup (map placed_at (nodes d)).
Proof.
  intros elements n d.
  assert (E : map placed_at (nodes d) =
              map (fun i => Some (simple_place (Nat.leb n 4) i)) (seq 0 n)).
  { unfold d. subst n elements. rewrite simple_nodes, map_map.
    rewrite <- (map_enumerate (fun i => Some (simple_place _ i))
                             0 (element :: rest)).
    apply map_ext. intros [i e]. unfold placed_at, simple_node. cbn [node_kind].
    now rewrite <- surjective_pairing. }
  rewrite E. split.
  - apply map_ext. intro i. unfold simple_place. reflexivity.
  - apply NoDup_map_in; [apply seq_NoDup|].
    intros i j _ _ H. apply (simple_place_inj (Nat.leb n 4)).
    congruence.
Qed.

(** *** Identifiers *)

Lemma NoDup_map_Id (l : list string) : NoDup (map Id l) <-> NoDup l.
Proof.
  split.
  - apply NoDup_map_inv.
  - intro H. apply NoDup_map_in; [exact H|].
    intros a b _ _ E. now injection E.
Qed.

Lemma derived_ids_map (elements : list string) :
  derived_ids elements = map Id (map derive_id elements).
Proof. unfold derived_ids. now rewrite map_map. Qed.

Lemma sequence_node_ids element rest connections :
  node_ids (_create_sequence_diagram (element :: rest) connections) =
  derived_ids (element :: rest).
Proof.
  unfold node_ids. rewrite sequence_nodes, map_map.
  unfold derived_ids. rewrite <- (enumerate_from_snd 0 (element :: rest)) at 2.
  rewrite map_map. apply map_ext. intros [i e]. reflexivity.
Qed.

(** X9. With at least one element, the nodes of the architecture, sequence
    and ER builders have pairwise distinct identifiers exactly when the
    elements, lower-cased and with spaces turned into underscores, are
    pairwise distinct; the boxes of the simple builder are always
    distinct. *)
Theorem node_ids_distinct (element : string) (rest : list string)
        (connections : list Connection) :
  let elements := element :: rest in
  (NoDup (node_ids (_create_architecture_diagram elements connections)) <->
   NoDup (map derive_id elements)) /\
  (NoDup (node_ids (_create_sequence_diagram elements connections)) <->
   NoDup (map derive_id elements)) /\
  (NoDup (node_ids (_create_er_diagram elements connections)) <->
   NoDup (map derive_id elements)) /\
  NoDup (node_ids (_create_simple_diagram elements connections)).
Proof.
  cbv zeta.
  destruct (architecture_shape element rest connections) as [Ha _].
  destruct (er_shape element rest connections) as [He _].
  destruct (simple_shape element rest connections) as [Hs _].
  cbv zeta in Ha, He, Hs.
  rewrite Ha, He, Hs, sequence_node_ids, derived_ids_map.
  repeat split; try apply NoDup_map_Id.
  unfold box_ids. apply NoDup_map_in; [apply seq_NoDup|].
  intros a b _ _ H. now injection H.
Qed.

(** *** The edges made of the connections *)

Lemma id_links_edges elements ids default cardinality conn :
  maps_elements elements [] ids ->
  id_links default cardinality ids conn =
  link_edges default cardinality elements conn.
Proof.
  intro H. unfold id_links, link_edges. cbv zeta. rewrite !H. cbn [PyDict.get].
  destruct (matched elements (get_or (conn_from conn) ""));
    destruct (matched elements (get_or (conn_to conn) "")); cbn [andb];
    try reflexivity.
  rewrite !truthy_derive_id.
  destruct (truthy (get_or (conn_from conn) "") && truthy (get_or (conn_to conn) ""))%bool;
    reflexivity.
Qed.

Lemma box_links_edges elements boxes conn :
  maps_boxes 0 elements [] boxes ->
  box_links boxes conn = box_edges elements conn.
Proof.
  intro H. unfold box_links, box_edges. rewrite !H. cbn [PyDict.get].
  destruct (last_index _ elements); [|reflexivity].
  destruct (last_index _ elements); reflexivity.
Qed.

Lemma flat_map_eq {A B : Type} (f g : A -> list B) (l : list A) :
  (forall x, f x = g x) -> flat_map f l = flat_map g l.
Proof.
  intro H. induction l as [|x l IH]; cbn [flat_map]; [reflexivity|].
  now rewrite H, IH.
Qed.

Lemma architecture_edges element rest connections :
  edges (_create_architecture_diagram (element :: rest) connections) =
  flat_map (link_edges "" None (element :: rest)) connections.
Proof.
  unfold _create_architecture_diagram.
  destruct (architecture_components _ 0 (element :: rest) (empty, []))
    as [arch ids] eqn:E.
  apply architecture_components_result in E. destruct E as (He & Hn & Hd).
  destruct (fold_links _ _ (architecture_connect_links ids) connections arch)
    as [_ He'].
  rewrite He', He. cbn [edges empty app].
  apply flat_map_eq. intro conn. now apply id_links_edges.
Qed.

Lemma er_edges element rest connections :
  edges (_create_er_diagram (element :: rest) connections) =
  flat_map (link_edges "related to" (Some "1:N"%string) (element :: rest))
           connections.
Proof.
  unfold _create_er_diagram.
  destruct (er_entities 0 (element :: rest) (empty, [])) as [er ids] eqn:E.
  apply er_entities_result in E. destruct E as (He & Hn & Hd).
  destruct (fold_links _ _ (er_relate_links ids) connections er) as [_ He'].
  rewrite He', He. cbn [edges empty app].
  apply flat_map_eq. intro conn. now apply id_links_edges.
Qed.

Lemma sequence_edges element rest conn more :
  edges (_create_sequence_diagram (element :: rest) (conn :: more)) =
  flat_map (link_edges "Message" None (element :: rest)) (conn :: more).
Proof.
  unfold _create_sequence_diagram.
  destruct (sequence_participants 0 (element :: rest) (empty, []))
    as [seq ids] eqn:E.
  apply sequence_participants_result in E. destruct E as (He & Hn & Hd).
  destruct (fold_links _ _ (sequence_message_links ids) (conn :: more) seq)
    as [_ He'].
  rewrite He', He. cbn [edges empty app].
  apply flat_map_eq. intro c. now apply id_links_edges.
Qed.

Lemma simple_edges element rest conn more :
  edges (_create_simple_diagram (element :: rest) (conn :: more)) =
  flat_map (box_edges (element :: rest)) (conn :: more).
Proof.
  unfold _create_simple_diagram.
  destruct (simple_boxes _ 0 (element :: rest) (empty, [])) as [d0 boxes] eqn:E.
  apply simple_boxes_result in E. destruct E as (He & Hn & Hd).
  destruct (fold_links _ _ (simple_connect_links boxes) (conn :: more) d0)
    as [_ He'].
  rewrite He', He. cbn [edges empty app].
  apply flat_map_eq. intro c. now apply box_links_edges.
Qed.

(** X10. With at least one element and one connection, the edges of the
    architecture, ER, sequence and simple builders are those of the
    connections, in their order: a connection gives one edge when both its
    labels are elements (and, but for the simple builder, not empty) and
    none otherwise; a missing label of the edge defaults to the empty
    string, ["related to"], ["Message"] and the empty string, and every ER
    relationship has cardinality ["1:N"]. *)
Theorem connection_edges (element : string) (rest : list string)
        (conn : Connection) (more : list Connection) :
  let elements := element :: rest in
  let connections := conn :: more in
  edges (_create_architecture_diagram elements connections) =
    flat_map (link_edges "" None elements) connections /\
  edges (_create_er_diagram elements connections) =
    flat_map (link_edges "related to" (Some "1:N"%string) elements) connections /\
  edges (_create_sequence_diagram elements connections) =
    flat_map (link_edges "Message" None elements) connections /\
  edges (_create_simple_diagram elements connections) =
    flat_map (box_edges elements) connections.
Proof.
  cbv zeta.
  rewrite architecture_edges, er_edges, sequence_edges, simple_edges.
  repeat split.
Qed.

Lemma flat_map_bound {A B : Type} (f : A -> list B) (l : list A) :
  (forall x, List.length (f x) <= 1) ->
  List.length (flat_map f l) <= List.length l.
Proof.
  intro H. induction l as [|x l IH]; cbn [flat_map List.length]; [lia|].
  rewrite length_app. specialize (H x). lia.
Qed.

Lemma link_edges_bound default cardinality elements conn :
  List.length (link_edges default cardinality elements conn) <= 1.
Proof.
  unfold link_edges. cbv zeta.
  destruct (_ && _ && _ && _)%bool; cbn [List.length]; lia.
Qed.

Lemma box_edges_bound elements conn :
  List.length (box_edges elements conn) <= 1.
Proof.
  unfold box_edges.
  destruct (last_index _ elements); [|cbn [List.length]; lia].
  destruct (last_index _ elements); cbn [List.length]; lia.
Qed.

(** X11. With at least one element and one connection, the architecture,
    ER, sequence and simple builders never make more edges than there are
    connections. *)
Theorem edges_bounded (element : string) (rest : list string)
        (conn : Connection) (more : list Connection) :
  let elements := element :: rest in
  let connections := conn :: more in
  List.length (edges (_create_architecture_diagram elements connections)) <=
    List.length connections /\
  List.length (edges (_create_er_diagram elements connections)) <=
    List.length connections /\
  List.length (edges (_create_sequence_diagram elements connections)) <=
    List.length connections /\
  List.length (edges (_create_simple_diagram elements connections)) <=
    List.length connections.
Proof.
  cbv zeta.
  rewrite architecture_edges, er_edges, sequence_edges, simple_edges.
  repeat split; apply flat_map_bound; intro c;
    (apply link_edges_bound || apply box_edges_bound).
Qed.

Lemma flat_map_singletons {A B : Type} (f : A -> list B) (g : A -> B)
      (l : list A) :
  Forall (fun x => f x = [g x]) l -> flat_map f l = map g l.
Proof.
  induction 1 as [|x l Hx _ IH]; cbn [flat_map map]; [reflexivity|].
  now rewrite Hx, IH.
Qed.

Lemma truthy_true (s : string) : s <> ""%string -> truthy s = true.
Proof. destruct s; [congruence | reflexivity]. Qed.

Lemma refers_to_link_edges default cardinality elements conn :
  refers_to elements conn ->
  link_edges default cardinality elements conn =
  [ {| edge_from := Id (derive_id (get_or (conn_from conn) ""));
       edge_to := Id (derive_id (get_or (conn_to conn) ""));
       edge_label := Some (get_or (conn_label conn) default);
       edge_cardinality := cardinality |} ].
Proof.
  intros [[a (Ea & Ha & Ia)] [b (Eb & Hb & Ib)]].
  unfold link_edges. cbv zeta. rewrite Ea, Eb. cbn [get_or].
  apply matched_In in Ia, Ib. rewrite Ia, Ib.
  now rewrite (truthy_true a Ha), (truthy_true b Hb).
Qed.

(** X12. When every connection names two non-empty elements, the
    architecture, ER and sequence builders make exactly one edge for each
    connection, in the order of the connections, between the nodes derived
    from its two labels. *)
Theorem connections_all_drawn (element : string) (rest : list string)
        (conn : Connection) (more : list Connection) :
  let elements := element :: rest in
  let connections := conn :: more in
  let ends := fun c => (Id (derive_id (get_or (conn_from c) "")),
                        Id (derive_id (get_or (conn_to c) ""))) in
  Forall (refers_to elements) connections ->
  map endpoints (edges (_create_architecture_diagram elements connections)) =
    map ends connections /\
  map endpoints (edges (_create_er_diagram elements connections)) =
    map ends connections /\
  map endpoints (edges (_create_sequence_diagram elements connections)) =
    map ends connections.
Proof.
  cbv zeta. intro H.
  rewrite architecture_edges, er_edges, sequence_edges.
  repeat split.
  - rewrite (flat_map_singletons _ _ _
               (Forall_impl _ (refers_to_link_edges "" None _) H)).
    now rewrite map_map.
  - rewrite (flat_map_singletons _ _ _
               (Forall_impl _ (refers_to_link_edges "related to" (Some "1:N"%string) _) H)).
    now rewrite map_map.
  - rewrite (flat_map_singletons _ _ _
               (Forall_impl _ (refers_to_link_edges "Message" None _) H)).
    now rewrite map_map.
Qed.

Lemma connections_all_drawn_witness :
  let elements := [ "Web App"; "API"; "Database" ]%string in
  let connections := [ connection "Web App" "API"; connection "API" "Database" ] in
  map endpoints (edges (_create_architecture_diagram elements connections)) =
    [ (Id "web_app", Id "api"); (Id "api", Id "database") ]%string /\
  map endpoints (edges (_create_er_diagram elements connections)) =
    [ (Id "web_app", Id "api"); (Id "api", Id "database") ]%string /\
  map endpoints (edges (_create_sequence_diagram elements connections)) =
    [ (Id "web_app", Id "api"); (Id "api", Id "database") ]%string.
Proof.
  apply (connections_all_drawn "Web App" [ "API"; "Database" ]%string
           (connection "Web App" "API") [ connection "API" "Database" ]).
  repeat constructor; cbn; eexists; (split; [reflexivity|]);
    (split; [discriminate | tauto]).
Defined.

(** *** The default flow of the sequence builder *)

Lemma set_derived (keys : list string) (element : string) :
  PyDict.set (map (fun k => (k, derive_id k)) keys) element (derive_id element) =
  map (fun k => (k, derive_id k))
      (if existsb (String.eqb element) keys then keys else keys ++ [element]).
Proof.
  induction keys as [|k keys IH]; cbn [map PyDict.set existsb]; [reflexivity|].
  destruct (String.eqb_spec element k) as [->|Hne]; cbn [orb]; [reflexivity|].
  rewrite IH. now destruct (existsb (String.eqb element) keys).
Qed.

Lemma sequence_participants_keys elements :
  forall i seq keys,
    snd (sequence_participants i elements
           (seq, map (fun k => (k, derive_id k)) keys)) =
    map (fun k => (k, derive_id k))
        (fold_left (fun seen element =>
                      if existsb (String.eqb element) seen then seen
                      else seen ++ [element])
                   elements keys).
Proof.
  induction elements as [|element rest IH]; intros i seq keys;
    cbn [sequence_participants fold_left]; [reflexivity|].
  rewrite set_derived. apply IH.
Qed.

Lemma sequence_participants_made_keys elements i seq seq' ids' :
  sequence_participants i elements (seq, []) = (seq', ids') ->
  ids' = map (fun k => (k, derive_id k)) (first_occurrences elements).
Proof.
  intro E. pose proof (sequence_participants_keys elements i seq []) as H.
  cbn [map] in H. rewrite E in H. exact H.
Qed.

Lemma sequence_default_flow_edges ids :
  forall i seq,
    edges (sequence_default_flow i ids seq) =
    edges seq ++ map step_message (enumerate_from i (combine ids (tl ids))).
Proof.
  induction ids as [|a ids IH]; intros i seq.
  - cbn. now rewrite app_nil_r.
  - destruct ids as [|b ids'].
    + cbn. now rewrite app_nil_r.
    + change (sequence_default_flow i (a :: b :: ids') seq)
        with (sequence_default_flow (S i) (b :: ids')
                (seq_message seq a b ("Step " ++ of_nat (i + 1))%string)).
      rewrite IH. cbn [edges seq_message add_edge tl combine].
      rewrite enumerate_from_cons. cbn [map step_message].
      now rewrite <- app_assoc.
Qed.

Lemma sequence_default_flow_messages element rest :
  edges (_create_sequence_diagram (element :: rest) []) =
  map step_message
      (enumerate_from 0
         (combine (map derive_id (first_occurrences (element :: rest)))
                  (tl (map derive_id (first_occurrences (element :: rest)))))).
Proof.
  unfold _create_sequence_diagram.
  destruct (sequence_participants 0 (element :: rest) (empty, []))
    as [seq participants] eqn:E.
  pose proof (sequence_participants_made_keys _ _ _ _ _ E) as Hk.
  apply sequence_participants_result in E. destruct E as (He & _ & _).
  rewrite sequence_default_flow_edges, He, Hk, map_map. cbn [snd edges empty app].
  reflexivity.
Qed.

(** X13. Without connections, the sequence builder links the participants
    in a chain: taking the elements in the order of their first occurrence,
    each one sends the next one a message labelled ["Step 1"], ["Step 2"]
    and so on; there is no other message. *)
Theorem sequence_default_messages (element : string) (rest : list string) :
  let ids := map derive_id (first_occurrences (element :: rest)) in
  edges (_create_sequence_diagram (element :: rest) []) =
  map step_message (enumerate_from 0 (combine ids (tl ids))).
Proof.
  exact (sequence_default_flow_messages element rest).
Qed.

(** *** The sequential arrows of the simple builder *)

Lemma simple_sequential_edges elements boxes :
  maps_boxes 0 elements [] boxes ->
  forall element_list d,
    edges (simple_sequential boxes element_list d) =
    edges d ++ flat_map (sequential_edges elements)
                        (combine element_list (tl element_list)).
Proof.
  intro Hb. induction element_list as [|a l IH]; intro d.
  - cbn. now rewrite app_nil_r.
  - destruct l as [|b l'].
    + cbn. now rewrite app_nil_r.
    + rewrite simple_sequential_cons, IH.
      cbn [tl combine flat_map]. rewrite app_assoc. f_equal.
      unfold sequential_link, sequential_edges. cbn [fst snd].
      rewrite !Hb. cbn [PyDict.get].
      destruct (last_index a elements); [|now rewrite app_nil_r].
      destruct (last_index b elements); [reflexivity | now rewrite app_nil_r].
Qed.

Lemma simple_edges_sequential element rest :
  edges (_create_simple_diagram (element :: rest) []) =
  flat_map (sequential_edges (element :: rest))
           (combine (element :: rest) rest).
Proof.
  unfold _create_simple_diagram.
  destruct (simple_boxes _ 0 (element :: rest) (empty, [])) as [d0 boxes] eqn:E.
  apply simple_boxes_result in E. destruct E as (He & Hn & Hd).
  cbn [fold_left].
  rewrite (simple_sequential_edges (element :: rest) boxes Hd), He.
  reflexivity.
Qed.

Lemma last_index_In label elements :
  In label elements -> exists j, last_index label elements = Some j.
Proof.
  intro H. destruct (last_index label elements) as [j|] eqn:E; [now exists j|].
  apply (proj1 (last_index_None _ _)) in E. contradiction.
Qed.

Lemma last_index_position (pre : list string) (a : string) (post : list string) :
  NoDup (pre ++ a :: post) ->
  last_index a (pre ++ a :: post) = Some (List.length pre).
Proof.
  induction pre as [|x pre IH]; intro H; cbn [app last_index List.length].
  - apply NoDup_cons_iff in H. destruct H as [Hn _].
    apply (proj2 (last_index_None _ _)) in Hn. rewrite Hn.
    now rewrite String.eqb_refl.
  - cbn [app] in H. apply NoDup_cons_iff in H. destruct H as [_ H].
    now rewrite (IH H).
Qed.

Lemma sequential_edges_NoDup (l : list string) :
  forall pre,
    NoDup (pre ++ l) ->
    flat_map (sequential_edges (pre ++ l)) (combine l (tl l)) =
    map next_arrow (seq (List.length pre) (List.length (tl l))).
Proof.
  induction l as [|a l IH]; intros pre H; [reflexivity|].
  destruct l as [|b l']; [reflexivity|].
  change (combine (a :: b :: l') (tl (a :: b :: l')))
    with ((a, b) :: combine (b :: l') l').
  cbn [tl flat_map List.length seq map].
  specialize (IH (pre ++ [a])). rewrite <- app_assoc in IH.
  cbn [app tl] in IH. rewrite (IH H). rewrite length_app. cbn [List.length].
  replace (List.length pre + 1) with (S (List.length pre)) by lia.
  unfold sequential_edges at 1. cbn [fst snd].
  rewrite (last_index_position pre a (b :: l') H).
  assert (Hb : last_index b (pre ++ a :: b :: l') = Some (S (List.length pre))).
  { replace (pre ++ a :: b :: l') with ((pre ++ [a]) ++ b :: l')
      by now rewrite <- app_assoc.
    rewrite last_index_position.
    - rewrite length_app. cbn [List.length]. f_equal. lia.
    - now rewrite <- app_assoc. }
  rewrite Hb. reflexivity.
Qed.

(** X14. Without connections, the simple builder joins distinct elements
    by an unlabelled arrow from each box to the box of the next element,
    and by nothing else. *)
Theorem simple_sequential_arrows (element : string) (rest : list string) :
  NoDup (element :: rest) ->
  edges (_create_simple_diagram (element :: rest) []) =
  map next_arrow (seq 0 (List.length rest)).
Proof.
  intro H. rewrite simple_edges_sequential.
  apply (sequential_edges_NoDup (element :: rest) [] H).
Qed.

Lemma simple_sequential_arrows_witness :
  edges (_create_simple_diagram [ "Plan"; "Build"; "Ship" ]%string []) =
  [ next_arrow 0; next_arrow 1 ].
Proof.
  apply (simple_sequential_arrows "Plan" [ "Build"; "Ship" ]%string).
  repeat constructor; cbn; intuition discriminate.
Defined.

Lemma sequential_edges_one elements p :
  In (fst p) elements -> In (snd p) elements ->
  List.length (sequential_edges elements p) = 1 /\
  Forall (fun e => edge_label e = None) (sequential_edges elements p).
Proof.
  intros Ha Hb. unfold sequential_edges.
  destruct (last_index_In _ _ Ha) as [i ->].
  destruct (last_index_In _ _ Hb) as [j ->].
  split; [reflexivity | repeat constructor].
Qed.

Lemma flat_map_ones {A B : Type} (f : A -> list B) (P : B -> Prop) (l : list A) :
  Forall (fun x => List.length (f x) = 1 /\ Forall P (f x)) l ->
  List.length (flat_map f l) = List.length l /\ Forall P (flat_map f l).
Proof.
  induction 1 as [|x l [Hx Hp] _ [IHl IHp]]; cbn [flat_map List.length].
  - split; [reflexivity | constructor].
  - rewrite length_app, Hx, IHl. split; [reflexivity|].
    apply Forall_app. now split.
Qed.

(** X15. Without connections, the simple builder draws exactly one arrow
    less than there are elements, whether or not elements repeat, and none
    of these arrows has a label. *)
Theorem simple_sequential_count (element : string) (rest : list string) :
  let d := _create_simple_diagram (element :: rest) [] in
  List.length (edges d) = List.length rest /\
  Forall (fun e => edge_label e = None) (edges d).
Proof.
  cbv zeta. rewrite simple_edges_sequential.
  replace (List.length rest)
    with (List.length (combine (element :: rest) rest))
    by (rewrite length_combine; cbn [List.length]; lia).
  apply flat_map_ones. apply Forall_forall. intros [a b] Hin.
  apply sequential_edges_one; cbn [fst snd].
  - apply in_combine_l in Hin. exact Hin.
  - apply in_combine_r in Hin. now right.
Qed.

(** *** The nodes of the flowchart *)

Lemma flowchart_step_nodes connections i element d prev :
  nodes (fst (flowchart_step connections i element (d, prev))) =
  nodes d ++ flowchart_turn_nodes connections (i, element).
Proof.
  unfold flowchart_step, flowchart_turn_nodes. cbv zeta.
  destruct (is_decision (clean element)).
  - destruct (filter (from_matches (clean element)) connections);
      cbn [fst nodes fc_connect fc_process fc_decision add_edge add_node];
      now rewrite <- app_assoc.
  - reflexivity.
Qed.

Lemma flowchart_loop_nodes connections elements :
  forall i st,
    nodes (fst (flowchart_loop connections i elements st)) =
    nodes (fst st) ++
    flat_map (flowchart_turn_nodes connections) (enumerate_from i elements).
Proof.
  induction elements as [|element rest IH]; intros i [d prev];
    cbn [flowchart_loop].
  - cbn. now rewrite app_nil_r.
  - rewrite IH, enumerate_from_cons. cbn [flat_map].
    rewrite app_assoc. f_equal. apply flowchart_step_nodes.
Qed.

Lemma flowchart_nodes element rest connections :
  nodes (_create_flowchart (element :: rest) connections) =
  start_node :: flat_map (flowchart_turn_nodes connections)
                         (enumerate_from 0 (element :: rest)) ++ [end_node].
Proof.
  unfold _create_flowchart.
  pose proof (flowchart_loop_nodes connections (element :: rest) 0
                (fc_start empty "Start", "__start__"%string)) as H.
  destruct (flowchart_loop connections 0 (element :: rest)
                           (fc_start empty "Start", "__start__"%string))
    as [d prev].
  cbn [fst] in H. cbn [nodes fc_connect fc_end add_edge add_node].
  rewrite H. reflexivity.
Qed.

Lemma flowchart_chained elements connections :
  chained (_create_flowchart elements connections).
Proof.
  destruct elements as [|element rest]; [reflexivity|].
  unfold _create_flowchart.
  assert (H0 : flowchart_inv start_node
                 (fc_start empty "Start", "__start__"%string)).
  { repeat split; cbn [fst snd]; [exists []|..]; reflexivity. }
  pose proof (flowchart_loop_inv start_node connections (element :: rest) 0 _ H0)
    as H.
  destruct (flowchart_loop connections 0 (element :: rest)
                           (fc_start empty "Start", "__start__"%string))
    as [d prev].
  pose proof (inv_extend start_node d prev end_node "__end__" None H eq_refl)
    as H'.
  destruct H' as [_ [Hc _]]. exact Hc.
Qed.

Lemma turn_nodes_length connections (l : list (nat * string)) :
  List.length (flat_map (flowchart_turn_nodes connections) l) =
  List.length l + List.length (decisions (map snd l)).
Proof.
  induction l as [|[i element] l IH]; [reflexivity|].
  cbn [flat_map map snd]. rewrite length_app, IH.
  unfold decisions. cbn [filter]. unfold flowchart_turn_nodes at 1. cbv zeta.
  destruct (is_decision (clean element)); cbn [List.length]; lia.
Qed.

(** X16. With at least one element, the flowchart has one node for each
    element, one more for each element taken for a decision (its "yes"
    branch), and the two terminators; it has one edge less than it has
    nodes. *)
Theorem flowchart_node_count (element : string) (rest : list string)
        (connections : list Connection) :
  let elements := element :: rest in
  let d := _create_flowchart elements connections in
  List.length (nodes d) =
    2 + List.length elements + List.length (decisions elements) /\
  S (List.length (edges d)) = List.length (nodes d).
Proof.
  cbv zeta.
  pose proof (flowchart_chained (element :: rest) connections) as Hc.
  apply (f_equal (@List.length _)) in Hc.
  rewrite length_map, length_combine in Hc.
  unfold node_ids in Hc. rewrite length_tl, length_map in Hc.
  rewrite flowchart_nodes in *.
  cbn [List.length] in *. rewrite length_app, turn_nodes_length in *.
  rewrite enumerate_from_snd, enumerate_from_length in *.
  cbn [List.length] in *. lia.
Qed.

Lemma decisions_none (elements : list string) :
  decisions elements = [] ->
  Forall (fun element => is_decision (clean element) = false) elements.
Proof.
  unfold decisions. induction elements as [|e l IH]; cbn [filter]; intro H.
  - constructor.
  - destruct (is_decision (clean e)) eqn:E; [discriminate|].
    constructor; [exact E | exact (IH H)].
Qed.

Lemma flowchart_loop_plain connections elements :
  Forall (fun element => is_decision (clean element) = false) elements ->
  forall i st,
    flowchart_loop connections i elements st = flowchart_loop [] i elements st.
Proof.
  induction 1 as [|e l He _ IH]; intros i [d prev]; cbn [flowchart_loop];
    [reflexivity|].
  rewrite IH. f_equal. unfold flowchart_step. now rewrite He.
Qed.

Lemma turn_nodes_plain connections (l : list (nat * string)) :
  Forall (fun element => is_decision (clean element) = false) (map snd l) ->
  flat_map (flowchart_turn_nodes connections) l =
  map (fun p => process_node ("process_" ++ of_nat (fst p)) (clean (snd p))) l.
Proof.
  induction l as [|[i e] l IH]; cbn [map snd flat_map]; intro H;
    [reflexivity|].
  apply Forall_cons_iff in H. destruct H as [He Hl]. cbn [snd] in He.
  rewrite (IH Hl). unfold flowchart_turn_nodes at 1. cbv zeta. now rewrite He.
Qed.

(** X17. When no element is taken for a decision, the flowchart is the
    "Start" terminator, one process for each element in order, labelled with
    the element stripped of surrounding blanks and of final [.], [!] and
    [?], and the "End" terminator; the connections play no part. *)
Theorem flowchart_without_decisions (element : string) (rest : list string)
        (connections : list Connection) :
  let elements := element :: rest in
  decisions elements = [] ->
  nodes (_create_flowchart elements connections) =
    start_node ::
    map (fun p => process_node ("process_" ++ of_nat (fst p)) (clean (snd p)))
        (enumerate_from 0 elements) ++ [end_node] /\
  _create_flowchart elements connections = _create_flowchart elements [].
Proof.
  cbv zeta. intro H. apply decisions_none in H. split.
  - rewrite flowchart_nodes, turn_nodes_plain; [reflexivity|].
    now rewrite enumerate_from_snd.
  - unfold _create_flowchart. now rewrite (flowchart_loop_plain connections _ H).
Qed.

Lemma flowchart_without_decisions_witness :
  map node_label
      (nodes (_create_flowchart [ " Open the door. "; "Walk in!" ]%string
                [ connection "Open" "Close" ])) =
  [ "Start"; "Open the door"; "Walk in"; "End" ]%string.
Proof.
  rewrite (proj1 (flowchart_without_decisions
                    " Open the door. " [ "Walk in!" ]%string
                    [ connection "Open" "Close" ] eq_refl)).
  reflexivity.
Defined.

Lemma filter_none {A : Type} (f : A -> bool) (l : list A) :
  Forall (fun x => f x = false) l -> filter f l = [].
Proof.
  induction 1 as [|x l Hx _ IH]; cbn [filter]; [reflexivity|].
  now rewrite Hx.
Qed.

(** X18. In the flowchart builder, a decision element that no connection
    matches is followed by a process labelled "Continue", linked from the
    decision by an edge labelled "yes". *)
Theorem decision_default_branch
        (elements : list string) (i : nat) (element : string)
        (connections : list Connection) :
  nth_error elements i = Some element ->
  is_decision (clean element) = true ->
  Forall (fun c => from_matches (clean element) c = false) connections ->
  let d := _create_flowchart elements connections in
  In (decision_node ("decision_" ++ of_nat i) (clean element)) (nodes d) /\
  In (process_node ("process_" ++ of_nat i ++ "_continue") "Continue")
     (nodes d) /\
  In {| edge_from := Id ("decision_" ++ of_nat i);
        edge_to := Id ("process_" ++ of_nat i ++ "_continue");
        edge_label := Some "yes"%string; edge_cardinality := None |} (edges d).
Proof.
  intros Hi Hdec Hnone d.
  destruct (create_flowchart_turn elements connections i element Hi)
    as [[d0 prev] [Hn He]].
  unfold flowchart_step in Hn, He. rewrite Hdec in Hn, He.
  rewrite (filter_none _ _ Hnone) in Hn, He.
  cbn [fst] in Hn, He. repeat split.
  - apply Hn. cbn. apply in_or_app. left. apply in_or_app. right. now left.
  - apply Hn. cbn. apply in_or_app. right. now left.
  - apply He. cbn. apply in_or_app. right. now left.
Qed.

Lemma decision_default_branch_witness :
  let d := _create_flowchart [ "Log in"; "Check password" ]%string
             [ connection "Backend" "Database" ] in
  In (decision_node "decision_1" "Check password") (nodes d) /\
  In (process_node "process_1_continue" "Continue") (nodes d) /\
  In {| edge_from := Id "decision_1"; edge_to := Id "process_1_continue";
        edge_label := Some "yes"%string; edge_cardinality := None |} (edges d).
Proof.
  apply (decision_default_branch [ "Log in"; "Check password" ]%string 1
           "Check password" [ connection "Backend" "Database" ]).
  - reflexivity.
  - reflexivity.
  - repeat constructor.
Defined.

(** *** The mind map *)

Lemma mindmap_branches_made elements :
  forall i mindmap,
    List.length (nodes mindmap) = S i ->
    nodes (mindmap_branches i elements mindmap) =
      nodes mindmap ++ map branch_node (enumerate_from i elements) /\
    edges (mindmap_branches i elements mindmap) =
      edges mindmap ++ map branch_edge (seq i (List.length elements)).
Proof.
  induction elements as [|element rest IH]; intros i mindmap Hlen;
    cbn [mindmap_branches].
  - cbn. now rewrite !app_nil_r.
  - destruct (IH (S i) (mm_branch mindmap "__central__" element
                                  (cycle mindmap_colors i))) as [Hn He].
    { cbn [mm_branch nodes add_edge add_node]. rewrite length_app, Hlen.
      cbn [List.length]. lia. }
    rewrite Hn, He, enumerate_from_cons.
    cbn [mm_branch nodes edges add_edge add_node List.length seq map branch_node].
    rewrite Hlen, <- !app_assoc. split; reflexivity.
Qed.

Lemma mindmap_made central_label branches connections :
  let d := _create_mindmap (central_label :: branches) connections in
  nodes d = central_node central_label ::
            map branch_node (enumerate_from 0 branches) /\
  edges d = map branch_edge (seq 0 (List.length branches)) /\
  node_ids d = Id "__central__"%string ::
               map (fun i => Anon (S i)) (seq 0 (List.length branches)).
Proof.
  cbv zeta. unfold _create_mindmap.
  destruct (mindmap_branches_made branches 0
              (mm_central empty central_label "blue") eq_refl) as [Hn He].
  repeat split.
  - rewrite Hn. reflexivity.
  - rewrite He. reflexivity.
  - unfold node_ids. rewrite Hn.
    cbn [mm_central nodes add_node empty app map node_id].
    f_equal. rewrite map_map.
    rewrite <- (map_enumerate (fun i => Anon (S i)) 0 branches).
    apply map_ext. intros [i e]. reflexivity.
Qed.

Lemma mindmap_closed elements connections :
  closed (_create_mindmap elements connections).
Proof.
  destruct elements as [|central_label branches].
  - repeat constructor; cbn; tauto.
  - destruct (mindmap_made central_label branches connections)
      as (_ & He & Hids).
    unfold closed. rewrite He, Hids.
    apply Forall_forall. intros e Hin. apply in_map_iff in Hin.
    destruct Hin as [i [<- Hi]]. split; cbn [branch_edge edge_from edge_to].
    + now left.
    + right. apply (in_map (fun i => Anon (S i))). exact Hi.
Qed.

(** X19. The mind map builder makes a star: the first element is the
    central node, every other element is a branch, in order, and each branch
    is linked from the central node and from nothing else; the connections
    play no part. *)
Theorem mindmap_star (central_label : string) (branches : list string)
        (connections : list Connection) :
  let d := _create_mindmap (central_label :: branches) connections in
  nodes d = central_node central_label ::
            map branch_node (enumerate_from 0 branches) /\
  edges d = map branch_edge (seq 0 (List.length branches)).
Proof.
  destruct (mindmap_made central_label branches connections) as (Hn & He & _).
  split; assumption.
Qed.

(** *** The timeline *)

Lemma timeline_step_made i element timeline :
  edges (timeline_step i element timeline) = edges timeline /\
  exists n,
    nodes (timeline_step i element timeline) = nodes timeline ++ [n] /\
    node_id n = Anon (List.length (nodes timeline)) /\
    node_label n = timeline_title element /\
    date_of n = Some (timeline_date (i, element)).
Proof.
  unfold timeline_step, timeline_title, timeline_date. cbv zeta.
  destruct (split_colon (chars element)) as [[before after]|].
  - destruct (existsb _ milestone_words); (split; [reflexivity|]);
      eexists; repeat split.
  - split; [reflexivity|]. eexists. repeat split.
Qed.

Lemma timeline_loop_made elements :
  forall i timeline,
    List.length (nodes timeline) = i ->
    let d := timeline_loop i elements timeline in
    edges d = edges timeline /\
    exists made,
      nodes d = nodes timeline ++ made /\
      map node_id made = map Anon (seq i (List.length elements)) /\
      map node_label made = map timeline_title elements /\
      map date_of made = map (fun p => Some (timeline_date p))
                             (enumerate_from i elements).
Proof.
  induction elements as [|element rest IH]; intros i timeline Hlen;
    cbn [timeline_loop]; cbv zeta.
  - split; [reflexivity|]. exists []. rewrite app_nil_r. repeat split.
  - destruct (timeline_step_made i element timeline)
      as [He [n (Hn & Hid & Hlabel & Hdate)]].
    destruct (IH (S i) (timeline_step i element timeline)) as [He' [made H]].
    { rewrite Hn, length_app, Hlen. cbn [List.length]. lia. }
    cbv zeta in He'. destruct H as (Hn' & Hids & Hlabels & Hdates).
    split; [now rewrite He', He|].
    exists (n :: made). rewrite Hn', Hn, <- app_assoc.
    rewrite enumerate_from_cons.
    cbn [app map List.length seq]. rewrite Hid, Hlen, Hlabel, Hdate.
    rewrite Hids, Hlabels, Hdates. repeat split.
Qed.

Lemma timeline_made element rest connections :
  let elements := element :: rest in
  let d := _create_timeline_diagram elements connections in
  edges d = [] /\
  node_ids d = map Anon (seq 0 (List.length elements)) /\
  map node_label (nodes d) = map timeline_title elements /\
  map date_of (nodes d) =
    map (fun p => Some (timeline_date p)) (enumerate_from 0 elements).
Proof.
  cbv zeta. unfold _create_timeline_diagram, tl_build.
  destruct (timeline_loop_made (element :: rest) 0 empty eq_refl)
    as [He [made (Hn & Hids & Hlabels & Hdates)]].
  cbv zeta in He. cbn [nodes empty app] in Hn. unfold node_ids.
  rewrite He, Hn, Hids, Hlabels, Hdates. repeat split.
Qed.

Lemma timeline_closed elements connections :
  closed (_create_timeline_diagram elements connections).
Proof.
  destruct elements as [|element rest]; [constructor|].
  destruct (timeline_made element rest connections) as [He _].
  unfold closed. rewrite He. constructor.
Qed.

(** X20. With at least one element, the timeline builder makes one entry
    for each element, in order, and no edge at all: an element with a colon
    gives the date before the first colon and the title after it, both
    stripped; an element without a colon is its own title, dated "Step"
    and its position counted from one.  The connections play no part. *)
Theorem timeline_entries (element : string) (rest : list string)
        (connections : list Connection) :
  let elements := element :: rest in
  let d := _create_timeline_diagram elements connections in
  edges d = [] /\
  node_ids d = map Anon (seq 0 (List.length elements)) /\
  map node_label (nodes d) = map timeline_title elements /\
  map date_of (nodes d) =
    map (fun p => Some (timeline_date p)) (enumerate_from 0 elements).
Proof.
  exact (timeline_made element rest connections).
Qed.

(** *** No dangling edge in the other builders *)

Lemma in_tl {A : Type} (x : A) (l : list A) : In x (tl l) -> In x l.
Proof. destruct l; [intros [] | now right]. Qed.

Lemma chained_closed (d : Diagram) : chained d -> closed d.
Proof.
  unfold chained, closed. intro H.
  apply Forall_forall. intros e Hin.
  apply (in_map endpoints) in Hin. rewrite H in Hin. unfold endpoints in Hin.
  split.
  - apply in_combine_l in Hin. exact Hin.
  - apply in_combine_r in Hin. apply in_tl. exact Hin.
Qed.

Lemma first_occurrences_from (elements : list string) :
  forall seen x,
    In x (fold_left (fun seen element =>
                       if existsb (String.eqb element) seen then seen
                       else seen ++ [element])
                    elements seen) ->
    In x seen \/ In x elements.
Proof.
  induction elements as [|e l IH]; intros seen x; cbn [fold_left].
  - now left.
  - intro H. apply IH in H. destruct H as [H|H]; [|right; now right].
    destruct (existsb (String.eqb e) seen); [now left|].
    apply in_app_or in H. destruct H as [H|[<-|[]]]; [now left|].
    right. now left.
Qed.

Lemma first_occurrences_incl (elements : list string) (x : string) :
  In x (first_occurrences elements) -> In x elements.
Proof.
  intro H. apply first_occurrences_from in H. destruct H as [[]|H]. exact H.
Qed.

Lemma sequence_closed elements connections :
  closed (_create_sequence_diagram elements connections).
Proof.
  destruct elements as [|element rest].
  - repeat constructor; cbn; tauto.
  - destruct connections as [|conn more].
    + unfold closed.
      rewrite sequence_node_ids, sequence_default_flow_messages.
      apply Forall_forall. intros e Hin. apply in_map_iff in Hin.
      destruct Hin as [[i [a b]] [<- Hin]].
      apply (in_map snd) in Hin. rewrite enumerate_from_snd in Hin.
      cbn [snd] in Hin.
      assert (Ha := in_combine_l _ _ _ _ Hin).
      assert (Hb := in_tl _ _ (in_combine_r _ _ _ _ Hin)).
      assert (Hin' : forall x,
                 In x (map derive_id (first_occurrences (element :: rest))) ->
                 In (Id x) (derived_ids (element :: rest))).
      { intros x Hx. apply in_map_iff in Hx. destruct Hx as [k [<- Hk]].
        apply first_occurrences_incl in Hk.
        apply (in_map (fun element => Id (derive_id element))). exact Hk. }
      split; cbn [step_message edge_from edge_to]; apply Hin'; assumption.
    + destruct (sequence_shape element rest conn more) as [Hn He].
      cbv zeta in Hn, He.
      apply (closed_of_endpoints _ _ He). rewrite Hn.
      apply Forall_forall. intros p Hin. apply in_flat_map in Hin.
      destruct Hin as [c [_ Hp]]. now apply linked_ids_within in Hp.
Qed.

(** X21. For every list of elements and every list of connections, every
    edge made by the flowchart, sequence, mind map and timeline builders
    joins two nodes of the same diagram. *)
Theorem no_dangling_edges_elsewhere (elements : list string)
        (connections : list Connection) :
  closed (_create_flowchart elements connections) /\
  closed (_create_sequence_diagram elements connections) /\
  closed (_create_mindmap elements connections) /\
  closed (_create_timeline_diagram elements connections).
Proof.
  repeat split.
  - apply chained_closed, flowchart_chained.
  - apply sequence_closed.
  - apply mindmap_closed.
  - apply timeline_closed.
Qed.

(** *** Cleaning an element and deriving an identifier *)

Lemma chars_str (l : list ascii) : chars (str l) = l.
Proof. apply list_ascii_of_string_of_list_ascii. Qed.

Lemma str_chars (s : string) : str (chars s) = s.
Proof. apply string_of_list_ascii_of_string. Qed.

Lemma drop_while_split (f : ascii -> bool) (l : list ascii) :
  exists pre, l = pre ++ drop_while f l /\ Forall (fun c => f c = true) pre.
Proof.
  induction l as [|c l [pre [E H]]]; cbn [drop_while].
  - exists []. split; [reflexivity | constructor].
  - destruct (f c) eqn:Hc.
    + exists (c :: pre). cbn [app]. split; [now rewrite <- E | now constructor].
    + exists []. split; [reflexivity | constructor].
Qed.

Lemma drop_while_head (f : ascii -> bool) (l : list ascii) :
  match drop_while f l with
  | [] => True
  | c :: _ => f c = false
  end.
Proof.
  induction l as [|c l IH]; cbn [drop_while]; [exact I|].
  destruct (f c) eqn:Hc; [exact IH | exact Hc].
Qed.

Lemma rdrop_while_split (f : ascii -> bool) (l : list ascii) :
  exists suf, l = rdrop_while f l ++ suf /\ Forall (fun c => f c = true) suf.
Proof.
  unfold rdrop_while. destruct (drop_while_split f (rev l)) as [pre [E H]].
  exists (rev pre). split.
  - rewrite <- rev_app_distr, <- E. now rewrite rev_involutive.
  - apply Forall_rev. exact H.
Qed.

Lemma rdrop_while_last (f : ascii -> bool) (l : list ascii) :
  match rev (rdrop_while f l) with
  | [] => True
  | c :: _ => f c = false
  end.
Proof.
  unfold rdrop_while. rewrite rev_involutive. apply drop_while_head.
Qed.

(** X22. Cleaning an element for the flowchart only removes blanks at its
    two ends and the marks [.], [!] and [?] at the end: the element is the
    cleaned text between a run of blanks and a run of blanks and marks.
    The cleaned text does not begin with a blank and does not end with a
    mark. *)
Theorem clean_strips (element : string) :
  (exists pre suf,
     chars element = pre ++ chars (clean element) ++ suf /\
     Forall (fun c => is_space c = true) pre /\
     Forall (fun c => is_space c = true \/ is_final_mark c = true) suf) /\
  match chars (clean element) with
  | [] => True
  | c :: _ => is_space c = false
  end /\
  match rev (chars (clean element)) with
  | [] => True
  | c :: _ => is_final_mark c = false
  end.
Proof.
  unfold clean, rstrip, strip. rewrite !chars_str.
  set (f := fun c => existsb (Ascii.eqb c) (chars ".!?")).
  destruct (drop_while_split is_space (chars element)) as [pre [E1 H1]].
  set (l1 := drop_while is_space (chars element)) in *.
  destruct (rdrop_while_split is_space l1) as [suf1 [E2 H2]].
  set (l2 := rdrop_while is_space l1) in *.
  destruct (rdrop_while_split f l2) as [suf2 [E3 H3]].
  repeat split.
  - exists pre, (suf2 ++ suf1). split; [|split].
    + rewrite (app_assoc (rdrop_while f l2)), <- E3, <- E2. exact E1.
    + exact H1.
    + apply Forall_app. split.
      * eapply Forall_impl; [|exact H3]. intros c Hc. right. exact Hc.
      * eapply Forall_impl; [|exact H2]. intros c Hc. left. exact Hc.
  - pose proof (drop_while_head is_space (chars element)) as Hh.
    fold l1 in Hh. rewrite E2, E3 in Hh.
    destruct (rdrop_while f l2) as [|c l3]; [exact I | exact Hh].
  - apply (rdrop_while_last f l2).
Qed.

Lemma lower_char_lower (c : ascii) :
  is_upper (lower_char c) = false /\ lower_char (lower_char c) = lower_char c.
Proof.
  destruct c as [[] [] [] [] [] [] [] []]; split; reflexivity.
Qed.

Lemma lower_char_space (c : ascii) :
  Ascii.eqb (lower_char c) " " = Ascii.eqb c " ".
Proof.
  destruct c as [[] [] [] [] [] [] [] []]; reflexivity.
Qed.

Lemma derive_id_chars (element : string) :
  chars (derive_id element) =
  map (fun c => if Ascii.eqb (lower_char c) " " then "_"%char else lower_char c)
      (chars element).
Proof.
  unfold derive_id, replace_char, lower. rewrite !chars_str, map_map.
  reflexivity.
Qed.

(** X23. The identifier derived from an element has as many characters as
    the element, holds no space and no upper-case letter, and deriving an
    identifier from it again changes nothing. *)
Theorem derive_id_normal (element : string) :
  List.length (chars (derive_id element)) = List.length (chars element) /\
  Forall (fun c => c <> " "%char /\ is_upper c = false)
         (chars (derive_id element)) /\
  derive_id (derive_id element) = derive_id element.
Proof.
  repeat split.
  - rewrite derive_id_chars. apply length_map.
  - rewrite derive_id_chars. apply Forall_forall. intros c Hin.
    apply in_map_iff in Hin. destruct Hin as [x [<- _]].
    destruct (Ascii.eqb_spec (lower_char x) " ") as [E|E].
    + split; [discriminate | reflexivity].
    + split; [exact E | apply lower_char_lower].
  - rewrite <- (str_chars (derive_id (derive_id element))).
    rewrite <- (str_chars (derive_id element)) at 2. f_equal.
    rewrite (derive_id_chars (derive_id element)), derive_id_chars, map_map.
    apply map_ext. intro c.
    destruct (Ascii.eqb_spec (lower_char c) " ") as [E|E]; [reflexivity|].
    rewrite (proj2 (lower_char_lower c)).
    destruct (Ascii.eqb_spec (lower_char c) " "); [contradiction | reflexivity].
Qed.

(** *** The dispatcher *)

Section DispatchProps.

Variables create_flowchart create_architecture_diagram
          create_sequence_diagram create_mindmap create_timeline_diagram
          create_er_diagram create_simple_diagram
  : list string -> list Connection -> outcome Diagram.
Variable save : Diagram -> string -> outcome unit.

Lemma save_and_return_made analysis output_path diagram diagram_type g :
  save_and_return save analysis output_path diagram diagram_type = Returned g ->
  g = {| generated_diagram := diagram; generated_type := diagram_type;
         generated_excalidraw_path := (output_path ++ ".excalidraw")%string;
         generated_analysis := analysis |} /\
  save diagram (output_path ++ ".excalidraw")%string = Returned tt.
Proof.
  unfold save_and_return. cbv zeta.
  destruct (save diagram _) as [[]|e]; [|discriminate].
  intros [= <-]. split; reflexivity.
Qed.

Lemma build_unknown diagram_type elements connections :
  ~ In diagram_type known_types ->
  build create_flowchart create_architecture_diagram create_sequence_diagram
        create_mindmap create_timeline_diagram create_er_diagram
        create_simple_diagram diagram_type elements connections =
  create_simple_diagram elements connections.
Proof.
  intro H. unfold build.
  repeat match goal with
         | |- context [String.eqb diagram_type ?s] =>
             destruct (String.eqb_spec diagram_type s) as [->|_];
             [exfalso; apply H; cbn; tauto|]
         end.
  reflexivity.
Qed.

End DispatchProps.

(** X24. Whatever the builders and [save] do, when
    [generate_diagram_from_analysis] returns a result, the diagram of the
    result has been saved at the output path followed by [.excalidraw],
    which is the path the result carries, and the result carries the
    analysis unchanged; either nothing was printed and the diagram is that
    of the builder chosen by the type, reported as given, or the two
    warning lines were printed and the diagram is that of the simple
    builder, reported as ["simple"]. *)
Theorem generate_postcondition
        (create_flowchart create_architecture_diagram create_sequence_diagram
           create_mindmap create_timeline_diagram create_er_diagram
           create_simple_diagram : list string -> list Connection -> outcome Diagram)
        (save : Diagram -> string -> outcome unit)
        (analysis : Analysis) (output_path : string)
        (stderr : list string) (g : Generated) :
  let diagram_type := analysis_diagram_type analysis in
  let elements := analysis_elements analysis in
  let connections := connections_of analysis in
  generate_diagram_from_analysis
    create_flowchart create_architecture_diagram create_sequence_diagram
    create_mindmap create_timeline_diagram create_er_diagram
    create_simple_diagram save analysis output_path = (stderr, Returned g) ->
  generated_excalidraw_path g = (output_path ++ ".excalidraw")%string /\
  generated_analysis g = analysis /\
  save (generated_diagram g) (generated_excalidraw_path g) = Returned tt /\
  ((stderr = [] /\ generated_type g = diagram_type /\
    build create_flowchart create_architecture_diagram create_sequence_diagram
          create_mindmap create_timeline_diagram create_er_diagram
          create_simple_diagram diagram_type elements connections =
    Returned (generated_diagram g)) \/
   (List.length stderr = 2 /\ generated_type g = "simple"%string /\
    create_simple_diagram elements connections =
    Returned (generated_diagram g))).
Proof.
  cbv zeta. unfold generate_diagram_from_analysis, connections_of. cbv zeta.
  destruct (build _ _ _ _ _ _ _ _ _ _) as [d|e] eqn:Hb.
  - intros [= <- H]. apply save_and_return_made in H. destruct H as [-> Hs].
    cbn [generated_excalidraw_path generated_analysis generated_diagram
         generated_type].
    repeat split; try assumption. left. repeat split.
  - destruct (create_simple_diagram _ _) as [d|e'] eqn:Hc; [|discriminate].
    intros [= <- H]. apply save_and_return_made in H. destruct H as [-> Hs].
    cbn [generated_excalidraw_path generated_analysis generated_diagram
         generated_type].
    repeat split; try assumption. right. repeat split.
Qed.

Lemma generate_postcondition_witness :
  let save : Diagram -> string -> outcome unit := fun _ _ => Returned tt in
  let analysis :=
    {| analysis_diagram_type := "mindmap";
       analysis_elements := [ "Plan"; "Scope"; "Budget" ]%string;
       analysis_connections := None |} in
  let g :=
    {| generated_diagram := _create_mindmap [ "Plan"; "Scope"; "Budget" ]%string [];
       generated_type := "mindmap";
       generated_excalidraw_path := "/tmp/plan.excalidraw";
       generated_analysis := analysis |} in
  generate save analysis "/tmp/plan" = ([], Returned g) /\
  generated_excalidraw_path g = "/tmp/plan.excalidraw"%string /\
  generated_analysis g = analysis.
Proof.
  intros save analysis g.
  assert (H : generate save analysis "/tmp/plan" = ([], Returned g))
    by reflexivity.
  split; [exact H|].
  destruct (generate_postcondition _ _ _ _ _ _ _ save analysis "/tmp/plan" [] g H)
    as (Hp & Ha & _).
  split; [exact Hp | exact Ha].
Defined.

(** X25. A type that is none of the six names the dispatcher knows is
    handed to the simple builder, without any warning, and the result
    reports the type as it was given, not as ["simple"]. *)
Theorem unknown_type_builds_simple
        (save : Diagram -> string -> outcome unit)
        (analysis : Analysis) (output_path : string) :
  let diagram :=
    _create_simple_diagram (analysis_elements analysis)
                           (connections_of analysis) in
  ~ In (analysis_diagram_type analysis) known_types ->
  save diagram (output_path ++ ".excalidraw")%string = Returned tt ->
  generate save analysis output_path =
  ([], Returned {| generated_diagram := diagram;
                   generated_type := analysis_diagram_type analysis;
                   generated_excalidraw_path :=
                     (output_path ++ ".excalidraw")%string;
                   generated_analysis := analysis |}).
Proof.
  cbv zeta. intros Hu Hs.
  unfold generate, generate_diagram_from_analysis. cbv zeta.
  rewrite (build_unknown _ _ _ _ _ _ _ _ _ _ Hu).
  unfold returns, save_and_return, connections_of in *. cbv zeta.
  now rewrite Hs.
Qed.

Lemma unknown_type_builds_simple_witness :
  let save : Diagram -> string -> outcome unit := fun _ _ => Returned tt in
  let analysis :=
    {| analysis_diagram_type := "Flowchart";
       analysis_elements := [ "Login"; "Dashboard" ]%string;
       analysis_connections := None |} in
  generate save analysis "/tmp/d" =
  ([], Returned {| generated_diagram :=
                     _create_simple_diagram [ "Login"; "Dashboard" ]%string [];
                   generated_type := "Flowchart";
                   generated_excalidraw_path := "/tmp/d.excalidraw";
                   generated_analysis := analysis |}).
Proof.
  intros save analysis.
  apply (unknown_type_builds_simple save analysis "/tmp/d").
  - cbn. intuition discriminate.
  - reflexivity.
Defined.

(** *** The identifiers of the flowchart *)

Lemma digits_of_app fuel :
  forall n acc, digits_of fuel n acc = digits_of fuel n [] ++ acc.
Proof.
  induction fuel as [|fuel IH]; intros n acc; cbn [digits_of]; [reflexivity|].
  destruct (Nat.ltb n 10); [reflexivity|].
  rewrite (IH (n / 10) (_ :: acc)), (IH (n / 10) [_]), <- app_assoc.
  reflexivity.
Qed.

Lemma digit_of_small (k : nat) :
  k < 10 ->
  is_digit (ascii_of_nat (48 + k)) = true /\
  digit_value (ascii_of_nat (48 + k)) = k.
Proof.
  intro H. unfold digit_value. rewrite nat_ascii_embedding by lia.
  split; [|lia].
  do 10 (destruct k as [|k]; [reflexivity|]). lia.
Qed.

Lemma digits_of_digits fuel :
  forall n, Forall (fun c => is_digit c = true) (digits_of fuel n []).
Proof.
  induction fuel as [|fuel IH]; intro n; cbn [digits_of]; [constructor|].
  assert (Hd := proj1 (digit_of_small (n mod 10)
                         (Nat.mod_upper_bound n 10 ltac:(lia)))).
  destruct (Nat.ltb n 10).
  - now repeat constructor.
  - rewrite digits_of_app. apply Forall_app. split; [apply IH|].
    now repeat constructor.
Qed.

Lemma decimal_value_snoc (l : list ascii) (c : ascii) :
  decimal_value (l ++ [c]) = 10 * decimal_value l + digit_value c.
Proof. unfold decimal_value. now rewrite fold_left_app. Qed.

Lemma digits_of_value fuel :
  forall n, n < fuel -> decimal_value (digits_of fuel n []) = n.
Proof.
  induction fuel as [|fuel IH]; intros n Hn; [lia|]. cbn [digits_of].
  assert (Hd := proj2 (digit_of_small (n mod 10)
                         (Nat.mod_upper_bound n 10 ltac:(lia)))).
  destruct (Nat.ltb_spec n 10) as [Hs|Hs].
  - unfold decimal_value. cbn [fold_left]. rewrite Hd.
    rewrite Nat.mod_small by exact Hs. lia.
  - rewrite digits_of_app, decimal_value_snoc, Hd, IH.
    + symmetry. apply Nat.div_mod_eq.
    + assert (n / 10 < n) by (apply Nat.div_lt; lia). lia.
Qed.

Lemma of_nat_chars (n : nat) :
  Forall (fun c => is_digit c = true) (chars (of_nat n)) /\
  decimal_value (chars (of_nat n)) = n.
Proof.
  unfold of_nat. rewrite chars_str. split.
  - apply digits_of_digits.
  - apply digits_of_value. lia.
Qed.

Lemma chars_append (a b : string) :
  chars (a ++ b)%string = chars a ++ chars b.
Proof.
  induction a as [|c a IH]; [reflexivity|].
  cbn [String.append chars list_ascii_of_string app]. f_equal. exact IH.
Qed.

(** Two runs of digits, each followed by the end or by a character that is
    not a digit, are equal when the whole texts are. *)
Lemma split_digits (n : list ascii) :
  forall n' s s',
    Forall (fun c => is_digit c = true) n ->
    Forall (fun c => is_digit c = true) n' ->
    match s with [] => True | c :: _ => is_digit c = false end ->
    match s' with [] => True | c :: _ => is_digit c = false end ->
    n ++ s = n' ++ s' -> n = n' /\ s = s'.
Proof.
  induction n as [|c n IH]; intros n' s s' Hn Hn' Hs Hs' E.
  - destruct n' as [|c' n']; [now split|].
    cbn [app] in E. subst s. apply Forall_cons_iff in Hn'. destruct Hn' as [H _].
    congruence.
  - destruct n' as [|c' n'].
    + cbn [app] in E. subst s'. apply Forall_cons_iff in Hn. destruct Hn as [H _].
      congruence.
    + cbn [app] in E. injection E as -> E.
      apply Forall_cons_iff in Hn, Hn'.
      destruct (IH n' s s' (proj2 Hn) (proj2 Hn') Hs Hs' E) as [-> ->].
      now split.
Qed.

Lemma numbered_chars form i :
  chars (numbered form i) =
  chars (fst form) ++ chars (of_nat i) ++ chars (snd form).
Proof. unfold numbered. now rewrite !chars_append. Qed.

Lemma numbered_inj form form' i j :
  In form id_forms -> In form' id_forms ->
  numbered form i = numbered form' j -> i = j /\ form = form'.
Proof.
  intros Hf Hf' E. apply (f_equal chars) in E. rewrite !numbered_chars in E.
  destruct (of_nat_chars i) as [Di Vi]. destruct (of_nat_chars j) as [Dj Vj].
  cbn [id_forms In] in Hf, Hf'.
  destruct Hf as [<-|[<-|[<-|[<-|[]]]]];
    destruct Hf' as [<-|[<-|[<-|[<-|[]]]]];
    cbn [fst snd] in E;
    try (cbn in E; discriminate E);
    apply app_inv_head in E;
    (apply split_digits in E; [|assumption|assumption|cbn; auto|cbn; auto]);
    destruct E as [E Es]; try discriminate Es;
    (split; [|reflexivity]);
    rewrite <- Vi, <- Vj, E; reflexivity.
Qed.

Lemma made_at_inj i j id : made_at i id -> made_at j id -> i = j.
Proof.
  intros [f [Hf ->]] [f' [Hf' E]]. injection E as E.
  now destruct (numbered_inj f f' i j Hf Hf' E).
Qed.

Lemma numbered_not_terminator form i :
  In form id_forms ->
  numbered form i <> "__start__"%string /\ numbered form i <> "__end__"%string.
Proof.
  intro Hf. cbn [id_forms In] in Hf.
  destruct Hf as [<-|[<-|[<-|[<-|[]]]]]; split; intro E;
    apply (f_equal chars) in E; rewrite numbered_chars in E;
    cbn in E; discriminate E.
Qed.

Lemma append_empty_r (s : string) : (s ++ "")%string = s.
Proof.
  induction s as [|c s IH]; [reflexivity|]. cbn [String.append]. now rewrite IH.
Qed.

Lemma turn_nodes_made_at connections i element id :
  In id (map node_id (flowchart_turn_nodes connections (i, element))) ->
  made_at i id.
Proof.
  unfold flowchart_turn_nodes. cbv zeta.
  destruct (is_decision (clean element)).
  - destruct (filter (from_matches (clean element)) connections);
      cbn [map In node_id decision_node process_node];
      intros [<-|[<-|[]]].
    + exists ("decision_", "")%string. split; [cbn; tauto|].
      unfold numbered. cbn [fst snd]. now rewrite append_empty_r.
    + exists ("process_", "_continue")%string. split; [cbn; tauto|]. reflexivity.
    + exists ("decision_", "")%string. split; [cbn; tauto|].
      unfold numbered. cbn [fst snd]. now rewrite append_empty_r.
    + exists ("process_", "_yes")%string. split; [cbn; tauto|]. reflexivity.
  - cbn [map In node_id process_node]. intros [<-|[]].
    exists ("process_", "")%string. split; [cbn; tauto|].
    unfold numbered. cbn [fst snd]. now rewrite append_empty_r.
Qed.

Lemma turn_nodes_NoDup connections p :
  NoDup (map node_id (flowchart_turn_nodes connections p)).
Proof.
  destruct p as [i element]. unfold flowchart_turn_nodes. cbv zeta.
  destruct (is_decision (clean element)).
  - destruct (filter (from_matches (clean element)) connections);
      cbn [map node_id decision_node process_node];
      (constructor; [|repeat constructor; intros []]);
      intros [E|[]]; discriminate E.
  - cbn. repeat constructor. intros [].
Qed.

Lemma NoDup_flat_map_keys {A B : Type} (f : A -> list B) (key : A -> nat)
      (T : nat -> B -> Prop) (l : list A) :
  NoDup (map key l) ->
  (forall x, NoDup (f x)) ->
  (forall x b, In b (f x) -> T (key x) b) ->
  (forall i j b, T i b -> T j b -> i = j) ->
  NoDup (flat_map f l).
Proof.
  intros Hl Hf HT Hinj. induction l as [|x l IH]; cbn [flat_map];
    [constructor|].
  cbn [map] in Hl. apply NoDup_cons_iff in Hl. destruct Hl as [Hx Hl].
  apply NoDup_app; [apply Hf | apply IH; exact Hl |].
  intros b Hb Hb'. apply in_flat_map in Hb'. destruct Hb' as [y [Hy Hby]].
  apply Hx. rewrite (Hinj _ _ b (HT x b Hb) (HT y b Hby)).
  now apply in_map.
Qed.

Lemma map_flat_map {A B C : Type} (g : B -> C) (f : A -> list B) (l : list A) :
  map g (flat_map f l) = flat_map (fun x => map g (f x)) l.
Proof.
  induction l as [|x l IH]; cbn [flat_map map]; [reflexivity|].
  now rewrite map_app, IH.
Qed.

Lemma flowchart_ids_NoDup elements connections :
  NoDup (node_ids (_create_flowchart elements connections)).
Proof.
  destruct elements as [|element rest].
  - cbn. repeat constructor; cbn; intuition discriminate.
  - unfold node_ids. rewrite flowchart_nodes.
    cbn [map]. rewrite map_app, map_flat_map. cbn [map node_id start_node end_node].
    set (l := enumerate_from 0 (element :: rest)).
    set (f := fun p => map node_id (flowchart_turn_nodes connections p)).
    assert (Hmid : NoDup (flat_map f l)).
    { apply (NoDup_flat_map_keys f fst made_at).
      - unfold l. rewrite enumerate_from_fst. apply seq_NoDup.
      - intro p. apply turn_nodes_NoDup.
      - intros [i e] b Hb. now apply turn_nodes_made_at in Hb.
      - apply made_at_inj. }
    assert (Hterm : forall s, s = "__start__"%string \/ s = "__end__"%string ->
                              ~ In (Id s) (flat_map f l)).
    { intros s Hs Hin. apply in_flat_map in Hin. destruct Hin as [[i e] [_ Hb]].
      apply turn_nodes_made_at in Hb. destruct Hb as [form [Hf E]].
      injection E as E. destruct (numbered_not_terminator form i Hf) as [H1 H2].
      destruct Hs as [->| ->]; congruence. }
    constructor.
    + intro Hin. apply in_app_or in Hin. destruct Hin as [Hin|[E|[]]].
      * exact (Hterm "__start__"%string (or_introl eq_refl) Hin).
      * discriminate E.
    + apply NoDup_app; [exact Hmid | repeat constructor; intros [] |].
      intros b Hb [<-|[]].
      exact (Hterm "__end__"%string (or_intror eq_refl) Hb).
Qed.

(** X26. For every list of elements and every list of connections, the
    nodes of the flowchart, of the mind map and of the timeline have
    pairwise distinct identifiers. *)
Theorem node_ids_always_distinct (elements : list string)
        (connections : list Connection) :
  NoDup (node_ids (_create_flowchart elements connections)) /\
  NoDup (node_ids (_create_mindmap elements connections)) /\
  NoDup (node_ids (_create_timeline_diagram elements connections)).
Proof.
  repeat split.
  - apply flowchart_ids_NoDup.
  - destruct elements as [|central_label branches].
    + cbn. repeat constructor; cbn; intuition discriminate.
    + destruct (mindmap_made central_label branches connections)
        as (_ & _ & Hids).
      rewrite Hids. constructor.
      * intro Hin. apply in_map_iff in Hin. destruct Hin as [i [E _]].
        discriminate E.
      * apply NoDup_map_in; [apply seq_NoDup|].
        intros a b _ _ E. now injection E.
  - destruct elements as [|element rest].
    + cbn. repeat constructor; cbn; intuition (discriminate || lia).
    + destruct (timeline_made element rest connections) as (_ & Hids & _).
      rewrite Hids. apply NoDup_map_in; [apply seq_NoDup|].
      intros a b _ _ E. now injection E.
Qed.

End GeneratePropsExt.
